(** * API Users service (app/routes.py): a shallow embedding

    The service keeps user profiles and per-user API key sets in two MongoDB
    collections ([db.users], [db.keys]) and mirrors them into two Redis lists
    ([users_list], [api_keys_list]) whose entries are JSON texts.

    Layout of this file:
    - Python values and dictionaries as the handlers build them;
    - [json.dumps(..., sort_keys=True)] and [json.loads] on the fragment of
      JSON the service writes (objects, arrays, strings, integers);
    - the two stores and the sources of randomness as an explicit [world],
      threaded through a state-and-exception monad;
    - the five request handlers of [app/routes.py];
    - the properties of the handlers, the invariant of the states the
      service reaches, and what follows from it: the caches mirror the
      stores. *)

From Stdlib Require Import ZArith NArith Ascii String List Permutation.
From Stdlib Require Import DecimalString DecimalZ DecimalN DecimalPos DecimalFacts.
From stdpp Require Import base option list sorting strings gmap.

Set Warnings "-register-all".

Local Open Scope Z_scope.
Local Open Scope list_scope.

(** ** Python values *)

(** [bson.ObjectId]: twelve bytes, identified here with their canonical
    rendering [str(oid)], 24 lower-case hexadecimal digits. *)
Record ObjectId : Type := mkObjectId { oid_hex : string }.

(** The values that occur in the documents of this service.  A [dict] is an
    association list in insertion order; Python keeps its keys distinct. *)
Inductive value : Type :=
| VInt (n : Z)
| VStr (s : string)
| VList (l : list value)
| VDict (d : list (string * value))
| VObjectId (o : ObjectId).

Abbreviation dict := (list (string * value)).

Section value_induction.
  Variable P : value -> Prop.
  Hypothesis Hint : forall n, P (VInt n).
  Hypothesis Hstr : forall s, P (VStr s).
  Hypothesis Hlist : forall l, Forall P l -> P (VList l).
  Hypothesis Hdict : forall d, Forall (fun kv => P (snd kv)) d -> P (VDict d).
  Hypothesis Hoid : forall o, P (VObjectId o).

Fixpoint value_nested_ind (v : value) : P v :=
  match v with
  | VInt n => Hint n
  | VStr s => Hstr s
  | VList l =>
      Hlist l ((fix go (l : list value) : Forall P l :=
                  match l with
                  | [] => @List.Forall_nil _ P
                  | x :: l' => @List.Forall_cons _ P x l' (value_nested_ind x) (go l')
                  end) l)
  | VDict d =>
      Hdict d ((fix go (d : dict) : Forall (fun kv => P (snd kv)) d :=
                  match d with
                  | [] => @List.Forall_nil _ _
                  | kv :: d' =>
                      @List.Forall_cons _ (fun kv => P (snd kv)) kv d'
                        (value_nested_ind (snd kv)) (go d')
                  end) d)
  | VObjectId o => Hoid o
  end.
End value_induction.

(** [d.get(k)] *)
Fixpoint dict_get (d : dict) (k : string) : option value :=
  match d with
  | [] => None
  | (k', v) :: d' => if String.eqb k' k then Some v else dict_get d' k
  end.

(** [d[k] = v]: an existing key keeps its position, a new key goes last. *)
Fixpoint dict_set (d : dict) (k : string) (v : value) : dict :=
  match d with
  | [] => [(k, v)]
  | (k', v') :: d' =>
      if String.eqb k' k then (k', v) :: d' else (k', v') :: dict_set d' k v
  end.

Definition dict_keys (d : dict) : list string := map fst d.

(** Python's [==] on these values: dictionaries compare as sets of items,
    whatever the insertion order. *)
Fixpoint value_eqb (a b : value) : bool :=
  match a, b with
  | VInt x, VInt y => Z.eqb x y
  | VStr x, VStr y => String.eqb x y
  | VObjectId x, VObjectId y => String.eqb (oid_hex x) (oid_hex y)
  | VList xs, VList ys =>
      (fix go (xs ys : list value) : bool :=
         match xs, ys with
         | [], [] => true
         | x :: xs', y :: ys' => value_eqb x y && go xs' ys'
         | _, _ => false
         end) xs ys
  | VDict xs, VDict ys =>
      Nat.eqb (length xs) (length ys) &&
      (fix go (xs : dict) : bool :=
         match xs with
         | [] => true
         | (k, x) :: xs' =>
             match dict_get ys k with
             | Some y => value_eqb x y
             | None => false
             end && go xs'
         end) xs
  | _, _ => false
  end.

(** Well-formed JSON-serialisable values: distinct keys in every dictionary
    and no [ObjectId] left ([json.dumps] raises [TypeError] on those). *)
Inductive json_value : value -> Prop :=
| jv_int n : json_value (VInt n)
| jv_str s : json_value (VStr s)
| jv_list l : Forall json_value l -> json_value (VList l)
| jv_dict d :
    NoDup (dict_keys d) -> Forall (fun kv => json_value (snd kv)) d ->
    json_value (VDict d).

(** ** json.dumps *)

Definition dquote : ascii := "034"%char.
Definition backslash : ascii := "\"%char.

Definition hex_chars : list ascii :=
  list_ascii_of_string "0123456789abcdef".

Definition hex_char (n : N) : ascii := nth (N.to_nat n) hex_chars "0"%char.

(** One character of a string literal, as [ensure_ascii=True] writes it:
    printable ASCII other than the quote and the backslash is copied, the
    rest is escaped. *)
Definition escape_char (c : ascii) : list ascii :=
  let n := N_of_ascii c in
  if Ascii.eqb c dquote then [backslash; dquote]
  else if Ascii.eqb c backslash then [backslash; backslash]
  else if N.eqb n 10 then [backslash; "n"%char]
  else if N.eqb n 13 then [backslash; "r"%char]
  else if N.eqb n 9 then [backslash; "t"%char]
  else if N.eqb n 8 then [backslash; "b"%char]
  else if N.eqb n 12 then [backslash; "f"%char]
  else if (N.leb 32 n && N.leb n 126)%bool then [c]
  else [backslash; "u"%char; "0"%char; "0"%char;
        hex_char (N.div n 16); hex_char (N.modulo n 16)].

Definition encode_string (s : list ascii) : list ascii :=
  dquote :: flat_map escape_char s ++ [dquote].

(** [str(n)] for an [int]. *)
Definition encode_int (n : Z) : list ascii :=
  list_ascii_of_string (NilEmpty.string_of_int (Z.to_int n)).

(** [', '.join(items)] *)
Fixpoint join_items (items : list (list ascii)) : list ascii :=
  match items with
  | [] => []
  | [x] => x
  | x :: rest => x ++ ","%char :: " "%char :: join_items rest
  end.

Definition key_le {A} (a b : string * A) : Prop := String.le (fst a) (fst b).

Global Instance key_le_dec {A} (a b : string * A) : Decision (key_le a b).
Proof. unfold key_le. apply _. Defined.

(** [sorted(d.items())] for distinct keys. *)
Definition sort_items {A} (d : list (string * A)) : list (string * A) :=
  merge_sort key_le d.

Definition encode_member (kv : string * list ascii) : list ascii :=
  encode_string (list_ascii_of_string (fst kv)) ++ ":"%char :: " "%char :: snd kv.

(** The encoder with the default separators and [sort_keys=True]. *)
Fixpoint encode (v : value) : list ascii :=
  match v with
  | VInt n => encode_int n
  | VStr s => encode_string (list_ascii_of_string s)
  | VList l => "["%char :: join_items (map encode l) ++ ["]"%char]
  | VDict d =>
      "{"%char ::
        join_items
          (map encode_member
             (sort_items (map (fun kv => (fst kv, encode (snd kv))) d)))
        ++ ["}"%char]
  | VObjectId _ => []
  end.

(** What the encoder accepts: an [ObjectId] anywhere inside makes
    [json.dumps] raise [TypeError]. *)
Fixpoint serialisable (v : value) : bool :=
  match v with
  | VInt _ | VStr _ => true
  | VList l => forallb serialisable l
  | VDict d => forallb (fun kv => serialisable (snd kv)) d
  | VObjectId _ => false
  end.

(** [json.dumps(v, sort_keys=True)]; [None] stands for the [TypeError]. *)
Definition json_dumps (v : value) : option string :=
  if serialisable v then Some (string_of_list_ascii (encode v)) else None.

(** ** json.loads *)

(** The whitespace the scanner skips: space, tab, line feed, carriage
    return. *)
Definition is_ws (c : ascii) : bool :=
  let n := N_of_ascii c in
  (N.eqb n 32 || N.eqb n 9 || N.eqb n 10 || N.eqb n 13)%bool.

Fixpoint skip_ws (s : list ascii) : list ascii :=
  match s with
  | c :: r => if is_ws c then skip_ws r else s
  | [] => []
  end.

Definition is_digit (c : ascii) : bool :=
  let n := N_of_ascii c in (N.leb 48 n && N.leb n 57)%bool.

Definition hex_value (c : ascii) : option N :=
  let n := N_of_ascii c in
  if (N.leb 48 n && N.leb n 57)%bool then Some (n - 48)%N
  else if (N.leb 97 n && N.leb n 102)%bool then Some (n - 87)%N
  else if (N.leb 65 n && N.leb n 70)%bool then Some (n - 55)%N
  else None.

Definition hex4 (a b c d : ascii) : option N :=
  x ← hex_value a; y ← hex_value b; z ← hex_value c; t ← hex_value d;
  Some (((x * 16 + y) * 16 + z) * 16 + t)%N.

(** The character a one-letter escape stands for. *)
Definition unescape (e : ascii) : option ascii :=
  if Ascii.eqb e dquote then Some dquote
  else if Ascii.eqb e backslash then Some backslash
  else if Ascii.eqb e "/"%char then Some "/"%char
  else if Ascii.eqb e "b"%char then Some (ascii_of_N 8)
  else if Ascii.eqb e "f"%char then Some (ascii_of_N 12)
  else if Ascii.eqb e "n"%char then Some (ascii_of_N 10)
  else if Ascii.eqb e "r"%char then Some (ascii_of_N 13)
  else if Ascii.eqb e "t"%char then Some (ascii_of_N 9)
  else None.

(** The body of a string literal, after its opening quote.  Strict mode: a
    raw control character is an error.  A [\uXXXX] escape beyond U+00FF is
    outside the strings modelled here and is refused. *)
Fixpoint scan_string (s : list ascii) : option (list ascii * list ascii) :=
  match s with
  | [] => None
  | c :: r =>
      if Ascii.eqb c dquote then Some ([], r)
      else if Ascii.eqb c backslash then
        match r with
        | [] => None
        | e :: r1 =>
            if Ascii.eqb e "u"%char then
              match r1 with
              | h1 :: h2 :: h3 :: h4 :: r2 =>
                  match hex4 h1 h2 h3 h4 with
                  | Some n =>
                      if N.ltb n 256 then
                        match scan_string r2 with
                        | Some (cs, rest) => Some (ascii_of_N n :: cs, rest)
                        | None => None
                        end
                      else None
                  | None => None
                  end
              | _ => None
              end
            else
              match unescape e with
              | Some x =>
                  match scan_string r1 with
                  | Some (cs, rest) => Some (x :: cs, rest)
                  | None => None
                  end
              | None => None
              end
        end
      else if N.ltb (N_of_ascii c) 32 then None
      else
        match scan_string r with
        | Some (cs, rest) => Some (c :: cs, rest)
        | None => None
        end
  end.

Fixpoint span_digits (s : list ascii) : list ascii * list ascii :=
  match s with
  | c :: r =>
      if is_digit c then let (ds, rest) := span_digits r in (c :: ds, rest)
      else ([], s)
  | [] => ([], [])
  end.

Definition starts_fraction (s : list ascii) : bool :=
  match s with
  | c :: _ => (Ascii.eqb c "."%char || Ascii.eqb c "e"%char || Ascii.eqb c "E"%char)%bool
  | [] => false
  end.

(** The integer part of a number, [0|[1-9][0-9]*]: after a leading zero the
    number is over.  A fraction or an exponent would make it a float, which
    this service never writes: refused. *)
Definition scan_digits (s : list ascii) : option (Z * list ascii) :=
  match s with
  | [] => None
  | c :: r =>
      if Ascii.eqb c "0"%char then
        if starts_fraction r then None else Some (0, r)
      else
        let (ds, rest) := span_digits s in
        match NilEmpty.uint_of_string (string_of_list_ascii ds) with
        | Some u =>
            match ds with
            | [] => None
            | _ => if starts_fraction rest then None
                   else Some (Z.of_uint u, rest)
            end
        | None => None
        end
  end.

Definition scan_number (s : list ascii) : option (Z * list ascii) :=
  match s with
  | c :: r =>
      if Ascii.eqb c "-"%char then
        match scan_digits r with
        | Some (n, rest) => Some (- n, rest)
        | None => None
        end
      else scan_digits s
  | [] => None
  end.

(** [dict(pairs)]: a repeated key keeps its first position and takes the
    last value. *)
Definition dict_of_pairs (pairs : list (string * value)) : dict :=
  fold_left (fun d kv => dict_set d (fst kv) (snd kv)) pairs [].

(** The recursive-descent scanner.  [fuel] bounds the number of nested and
    successive scanner calls; [json_loads] gives it more than the text can
    use up. *)
Fixpoint scan_value (fuel : nat) (s : list ascii) : option (value * list ascii) :=
  match fuel with
  | O => None
  | S fuel =>
      match s with
      | [] => None
      | c :: r =>
          if Ascii.eqb c dquote then
            match scan_string r with
            | Some (cs, rest) => Some (VStr (string_of_list_ascii cs), rest)
            | None => None
            end
          else if Ascii.eqb c "{"%char then
            match skip_ws r with
            | c1 :: r1 =>
                if Ascii.eqb c1 "}"%char then Some (VDict [], r1)
                else
                  match scan_members fuel (c1 :: r1) with
                  | Some (pairs, rest) => Some (VDict (dict_of_pairs pairs), rest)
                  | None => None
                  end
            | [] => None
            end
          else if Ascii.eqb c "["%char then
            match skip_ws r with
            | c1 :: r1 =>
                if Ascii.eqb c1 "]"%char then Some (VList [], r1)
                else
                  match scan_elements fuel (c1 :: r1) with
                  | Some (vs, rest) => Some (VList vs, rest)
                  | None => None
                  end
            | [] => None
            end
          else
            match scan_number s with
            | Some (n, rest) => Some (VInt n, rest)
            | None => None
            end
      end
  end
with scan_elements (fuel : nat) (s : list ascii)
  : option (list value * list ascii) :=
  match fuel with
  | O => None
  | S fuel =>
      match scan_value fuel s with
      | Some (v, r) =>
          match skip_ws r with
          | c :: r1 =>
              if Ascii.eqb c ","%char then
                match scan_elements fuel (skip_ws r1) with
                | Some (vs, rest) => Some (v :: vs, rest)
                | None => None
                end
              else if Ascii.eqb c "]"%char then Some ([v], r1)
              else None
          | [] => None
          end
      | None => None
      end
  end
with scan_members (fuel : nat) (s : list ascii)
  : option (list (string * value) * list ascii) :=
  match fuel with
  | O => None
  | S fuel =>
      match s with
      | c :: r =>
          if Ascii.eqb c dquote then
            match scan_string r with
            | Some (k, r1) =>
                match skip_ws r1 with
                | c1 :: r2 =>
                    if Ascii.eqb c1 ":"%char then
                      match scan_value fuel (skip_ws r2) with
                      | Some (v, r3) =>
                          match skip_ws r3 with
                          | c2 :: r4 =>
                              if Ascii.eqb c2 ","%char then
                                match scan_members fuel (skip_ws r4) with
                                | Some (pairs, rest) =>
                                    Some ((string_of_list_ascii k, v) :: pairs, rest)
                                | None => None
                                end
                              else if Ascii.eqb c2 "}"%char then
                                Some ([(string_of_list_ascii k, v)], r4)
                              else None
                          | [] => None
                          end
                      | None => None
                      end
                    else None
                | [] => None
                end
            | None => None
            end
          else None
      | [] => None
      end
  end.

(** [json.loads(text)]: one value, surrounded by optional whitespace; [None]
    stands for [JSONDecodeError] (or for a text outside the fragment). *)
Definition decode (s : list ascii) : option value :=
  match scan_value (S (length s)) (skip_ws s) with
  | Some (v, rest) => match skip_ws rest with [] => Some v | _ => None end
  | None => None
  end.

Definition json_loads (text : string) : option value :=
  decode (list_ascii_of_string text).

(** The dictionary [json.loads] gives back for the text of [v]: the same
    items, every dictionary in key order. *)
Fixpoint canon (v : value) : value :=
  match v with
  | VList l => VList (map canon l)
  | VDict d => VDict (sort_items (map (fun kv => (fst kv, canon (snd kv))) d))
  | _ => v
  end.

(** A bound on the scanner calls the text of [v] needs. *)
Fixpoint scan_cost (v : value) : nat :=
  match v with
  | VList l => S (list_sum (map (fun x => S (scan_cost x)) l))
  | VDict d => S (list_sum (map (fun kv => S (scan_cost (snd kv))) d))
  | _ => 1%nat
  end.

(** ** Auxiliary notions for the codec proofs *)

(** What may follow a number for the scanner to stop where the encoder
    stopped: the end of the text, or a character that is neither a digit
    nor the start of a fraction or an exponent. *)
Definition delimited (rest : list ascii) : Prop :=
  match rest with
  | [] => True
  | c :: _ => is_digit c = false /\ starts_fraction rest = false
  end.

(** The characters a JSON text of this fragment can start with. *)
Definition value_start (c : ascii) : bool :=
  (Ascii.eqb c dquote || Ascii.eqb c "{"%char || Ascii.eqb c "["%char
   || Ascii.eqb c "-"%char || is_digit c)%bool.

(** [scans v]: the scanner reads the text of [v] back, whatever follows it,
    as soon as it has the fuel. *)
Definition scans (v : value) : Prop :=
  forall fuel rest, (scan_cost v <= fuel)%nat -> delimited rest ->
    scan_value fuel (encode v ++ rest) = Some (canon v, rest).

(** The text of one item of a dictionary. *)
Definition member_text (kv : string * value) : list ascii :=
  encode_member (fst kv, encode (snd kv)).

(** One item of a dictionary has an equal counterpart in [ys]. *)
Definition item_matches (ys : dict) (kv : string * value) : bool :=
  match dict_get ys (fst kv) with
  | Some y => value_eqb (snd kv) y
  | None => false
  end.

(** ** bson.ObjectId *)

Definition is_hex (c : ascii) : bool :=
  match hex_value c with Some _ => true | None => false end.

(** [str.lower] on one character. *)
Definition lower (c : ascii) : ascii :=
  let n := N_of_ascii c in
  if (N.leb 65 n && N.leb n 90)%bool then ascii_of_N (n + 32) else c.

(** [ObjectId(s)] for a [str]: 24 hexadecimal digits in either case, or
    [InvalidId] ([None] here).  This is [ObjectId] on the texts without
    ASCII whitespace ([blank_free] below).  On a text of 24 characters
    [bytes.fromhex] also skips whitespace between digit pairs and
    [ObjectId] then holds fewer than 12 bytes; what the driver makes of
    such an identifier is not determined by the library's interface, so
    the outcome of [create_api_key] on a text with whitespace is not
    modelled, and what is proved of its responses is stated for
    [blank_free] texts. *)
Definition ObjectId_of_str (s : string) : option ObjectId :=
  let cs := list_ascii_of_string s in
  if (Nat.eqb (length cs) 24 && forallb is_hex cs)%bool
  then Some (mkObjectId (string_of_list_ascii (map lower cs)))
  else None.

(** ASCII whitespace, the characters [bytes.fromhex] skips: space, tab,
    line feed, vertical tab, form feed, carriage return. *)
Definition is_space (c : ascii) : bool :=
  let n := N_of_ascii c in
  (N.eqb n 32 || (N.leb 9 n && N.leb n 13))%bool.

Definition blank_free (s : string) : bool :=
  forallb (fun c => negb (is_space c)) (list_ascii_of_string s).

(** [str(oid)] *)
Definition str_of_ObjectId (o : ObjectId) : string := oid_hex o.

Fixpoint hex_digits (k : nat) (n : N) : list ascii :=
  match k with
  | O => []
  | S k' => hex_digits k' (N.div n 16) ++ [hex_char (N.modulo n 16)]
  end.

(** [ObjectId()]: the driver hands out identifiers that never repeat; they
    are numbered here by a counter kept in the [world]. *)
Definition ObjectId_of_counter (n : N) : ObjectId :=
  mkObjectId (string_of_list_ascii (hex_digits 24 n)).

(** ** The world: MongoDB, Redis, and the sources of randomness *)

Inductive exn : Type :=
| HTTPException (status_code : nat) (detail : string)
| InvalidId
| OverflowError
| KeyError (key : string)
| TypeError
| AttributeError
| JSONDecodeError.

Inductive result (A : Type) : Type :=
| Return (a : A)
| Raise (e : exn).
Arguments Return {A} a.
Arguments Raise {A} e.

(** The two collections of [app/database.py]'s [db]. *)
Inductive collection : Type := users | keys.

Record world : Type := mkWorld {
  db_users : list dict;                 (* db.users, in natural order *)
  db_keys : list dict;                  (* db.keys *)
  redis : gmap string (list string);    (* redis_client: lists by name *)
  oid_counter : N;                      (* identifiers handed out so far *)
  entropy : nat -> nat;                 (* the operating system's randomness *)
  drawn : nat                           (* how much of it was consumed *)
}.

(** A handler is run against the world; an exception keeps the writes made
    before it was raised. *)
Definition M (A : Type) : Type := world -> result A * world.

Global Instance M_ret : MRet M := fun A a w => (Return a, w).

Global Instance M_bind : MBind M := fun A B f m w =>
  match m w with
  | (Return a, w') => f a w'
  | (Raise e, w') => (Raise e, w')
  end.

Definition raise {A} (e : exn) : M A := fun w => (Raise e, w).

Definition docs (c : collection) (w : world) : list dict :=
  match c with users => db_users w | keys => db_keys w end.

Definition set_docs (c : collection) (l : list dict) (w : world) : world :=
  match c with
  | users => mkWorld l (db_keys w) (redis w) (oid_counter w) (entropy w) (drawn w)
  | keys => mkWorld (db_users w) l (redis w) (oid_counter w) (entropy w) (drawn w)
  end.

Definition set_redis (r : gmap string (list string)) (w : world) : world :=
  mkWorld (db_users w) (db_keys w) r (oid_counter w) (entropy w) (drawn w).

(** *** MongoDB (motor) *)

(** A document matches the filter [{field: v}]. *)
Definition matches (field : string) (v : value) (doc : dict) : bool :=
  match dict_get doc field with
  | Some x => value_eqb x v
  | None => false
  end.

(** The integers BSON holds: eight bytes, signed. *)
Definition int64 (n : Z) : bool :=
  (Z.leb (- 2 ^ 63) n && Z.ltb n (2 ^ 63))%bool.

(** What the driver's BSON encoder accepts of the values of this service:
    on an [int] beyond eight bytes, at any depth, it raises
    [OverflowError] and nothing is sent to the server. *)
Fixpoint bson_encodable (v : value) : bool :=
  match v with
  | VInt n => int64 n
  | VStr _ | VObjectId _ => true
  | VList l => forallb bson_encodable l
  | VDict d => forallb (fun kv => bson_encodable (snd kv)) d
  end.

(** [await db.c.find_one({field: v})]: the filter is encoded first. *)
Definition find_one (c : collection) (field : string) (v : value)
  : M (option dict) :=
  if bson_encodable v
  then fun w => (Return (List.find (matches field v) (docs c w)), w)
  else raise OverflowError.

(** [await db.c.insert_one(doc)] for a [doc] without [_id]: the driver
    draws an [ObjectId] and writes it into the caller's dictionary under
    [_id], where it is the last key; it then encodes the document, [_id]
    first, and the collection stores it in that order.  The result pairs
    [inserted_id] with the caller's dictionary as the call leaves it. *)
Definition insert_one (c : collection) (doc : dict) : M (ObjectId * dict) :=
  fun w =>
    let oid := ObjectId_of_counter (oid_counter w) in
    let doc' := dict_set doc "_id" (VObjectId oid) in
    let w1 := mkWorld (db_users w) (db_keys w) (redis w)
                (N.succ (oid_counter w)) (entropy w) (drawn w) in
    if bson_encodable (VDict doc)
    then (Return (oid, doc'),
          set_docs c (docs c w ++ [("_id"%string, VObjectId oid) :: doc]) w1)
    else (Raise OverflowError, w1).

Fixpoint update_first (p : dict -> bool) (f : dict -> dict) (l : list dict)
  : list dict :=
  match l with
  | [] => []
  | d :: r => if p d then f d :: r else d :: update_first p f r
  end.

(** [await db.c.update_one({field: v}, {"$set": {k: x}})]: the field keeps
    its place in the stored document.  The handlers send text filters and
    key lists made of what the collection holds and of texts, which the
    encoder accepts. *)
Definition update_one (c : collection) (field : string) (v : value)
    (k : string) (x : value) : M unit :=
  fun w =>
    (Return tt,
     set_docs c (update_first (matches field v) (fun d => dict_set d k x)
                   (docs c w)) w).

(** *** Redis lists (redis.asyncio, [decode_responses=True]) *)

Definition redis_list (name : string) (w : world) : list string :=
  default [] (redis w !! name).

(** [await redis_client.lrange(name, 0, -1)] *)
Definition lrange (name : string) : M (list string) :=
  fun w => (Return (redis_list name w), w).

(** [await redis_client.rpush(name, v)] *)
Definition rpush (name : string) (v : string) : M unit :=
  fun w => (Return tt, set_redis (<[name := redis_list name w ++ [v]]> (redis w)) w).

Fixpoint remove_first_n (n : nat) (v : string) (l : list string) : list string :=
  match l with
  | [] => []
  | x :: r =>
      if String.eqb x v then
        match n with
        | O => l
        | S n' => remove_first_n n' v r
        end
      else x :: remove_first_n n v r
  end.

(** LREM: [count = 0] removes every element equal to [v], [count > 0] the
    first [count] of them from the head, [count < 0] from the tail. *)
Definition lrem_list (count : Z) (v : string) (l : list string) : list string :=
  if Z.eqb count 0 then List.filter (fun x => negb (String.eqb x v)) l
  else if Z.ltb 0 count then remove_first_n (Z.to_nat count) v l
  else rev (remove_first_n (Z.to_nat (- count)) v (rev l)).

(** [await redis_client.lrem(name, count, v)] *)
Definition lrem (name : string) (count : Z) (v : string) : M unit :=
  fun w =>
    (Return tt,
     set_redis (<[name := lrem_list count v (redis_list name w)]> (redis w)) w).

(** *** json, in the monad *)

Definition dumps (v : value) : M string :=
  match json_dumps v with
  | Some text => mret text
  | None => raise TypeError
  end.

Definition loads (text : string) : M value :=
  match json_loads text with
  | Some v => mret v
  | None => raise JSONDecodeError
  end.

(** *** Python operations on values *)

(** [d[k]] *)
Definition getitem (v : value) (k : string) : M value :=
  match v with
  | VDict d =>
      match dict_get d k with
      | Some x => mret x
      | None => raise (KeyError k)
      end
  | _ => raise TypeError
  end.

(** [v.get(k)] *)
Definition get (v : value) (k : string) : M (option value) :=
  match v with
  | VDict d => mret (dict_get d k)
  | _ => raise AttributeError
  end.

(** [x == v] where [x] is the result of a [.get] ([None] when absent). *)
Definition opt_eqb (x : option value) (v : value) : bool :=
  match x with
  | Some y => value_eqb y v
  | None => false
  end.

(** The items a [for] loop or a comprehension visits. *)
Definition iter (v : value) : M (list value) :=
  match v with
  | VList l => mret l
  | VDict d => mret (map (fun kv => VStr (fst kv)) d)
  | VStr s => mret (map (fun c => VStr (String c EmptyString)) (list_ascii_of_string s))
  | _ => raise TypeError
  end.

(** [len(v)] *)
Definition len (v : value) : M nat :=
  match v with
  | VList l => mret (length l)
  | VDict d => mret (length d)
  | VStr s => mret (String.length s)
  | _ => raise TypeError
  end.

(** [v.append(x)], giving the list as the call leaves it. *)
Definition append (v : value) (x : value) : M value :=
  match v with
  | VList l => mret (VList (l ++ [x]))
  | _ => raise AttributeError
  end.

(** Truth value of what [find_one] returns: [None] and the empty
    dictionary are false. *)
Definition truthy (o : option dict) : bool :=
  match o with
  | Some (_ :: _) => true
  | _ => false
  end.

(** ** app/routes.py *)

Inductive StatusEnum : Type := active | inactive.

Definition StatusEnum_value (s : StatusEnum) : string :=
  match s with active => "active" | inactive => "inactive" end.

Record User : Type := mkUser {
  id : Z;
  name : string;
  company : string;
  status : StatusEnum
}.

(** [user.dict()] *)
Definition User_dict (user : User) : dict :=
  [("id"%string, VInt (id user)); ("name"%string, VStr (name user));
   ("company"%string, VStr (company user));
   ("status"%string, VStr (StatusEnum_value (status user)))].

Definition convert_object_ids (doc : dict) : dict :=
  map (fun kv => (fst kv,
                  match snd kv with
                  | VObjectId o => VStr (str_of_ObjectId o)
                  | v => v
                  end)) doc.

Definition ascii_letters : string :=
  "abcdefghijklmnopqrstuvwxyzABCDEFGHIJKLMNOPQRSTUVWXYZ".

Definition digits : string := "0123456789".

Definition chars : string :=
  String.append ascii_letters (String.append digits "!@#$%^&*()_+-=").

(** [secrets.choice(seq)]: [seq[randbelow(len(seq))]]. *)
Definition secrets_choice (seq : list ascii) : M ascii :=
  fun w =>
    (Return (nth (entropy w (drawn w) mod length seq)%nat seq "000"%char),
     mkWorld (db_users w) (db_keys w) (redis w) (oid_counter w) (entropy w)
       (S (drawn w))).

Fixpoint choices (length : nat) : M (list ascii) :=
  match length with
  | O => mret []
  | S n =>
      c ← secrets_choice (list_ascii_of_string chars);
      cs ← choices n;
      mret (c :: cs)
  end.

Definition generate_api_key (length : nat) : M string :=
  cs ← choices length; mret (string_of_list_ascii cs).

(** One entry of a key list. *)
Definition key_entry (key : string) : value :=
  VDict [("key"%string, VStr key); ("status"%string, VStr "valid")].

Definition create_user (user : User) : M value :=
  let user_dict := User_dict user in
  existing ← find_one users "id" (VInt (id user));
  if truthy existing then
    raise (HTTPException 400 "User ID already exists")
  else
    result ← insert_one users user_dict;
    let mongo_id := str_of_ObjectId (fst result) in
    let user_dict := dict_set (snd result) "_id" (VStr mongo_id) in
    api_key ← generate_api_key 20;
    _ ← insert_one keys [("id"%string, VStr mongo_id);
                         ("keys"%string, VList [key_entry api_key])];
    user_json ← dumps (VDict (convert_object_ids user_dict));
    lrem "users_list" 0 user_json;;
    rpush "users_list" user_json;;
    let api_doc := [("id"%string, VStr mongo_id);
                    ("keys"%string, VList [key_entry api_key])] in
    api_json ← dumps (VDict api_doc);
    lrem "api_keys_list" 0 api_json;;
    rpush "api_keys_list" api_json;;
    mret (VDict [("message"%string, VStr "User created");
                 ("user"%string, VDict user_dict);
                 ("api_key"%string, VStr api_key)]).

(** The loop of [create_api_key] and [remove_api_key] over [old_entries]:
    at the first entry whose ["id"] is [mongo_id], [lrem] with count 0,
    then [break]. *)
Fixpoint remove_old_entry (mongo_id : string) (old_entries : list string)
  : M unit :=
  match old_entries with
  | [] => mret tt
  | entry :: rest =>
      entry_dict ← loads entry;
      entry_id ← get entry_dict "id";
      if opt_eqb entry_id (VStr mongo_id) then lrem "api_keys_list" 0 entry
      else remove_old_entry mongo_id rest
  end.

Definition create_api_key (mongo_id : string) : M value :=
  match ObjectId_of_str mongo_id with
  | None => raise InvalidId
  | Some oid =>
      mongo_user ← find_one users "_id" (VObjectId oid);
      if negb (truthy mongo_user) then
        raise (HTTPException 404 "User not found")
      else
        new_key ← generate_api_key 20;
        found ← find_one keys "id" (VStr mongo_id);
        key_doc ←
          (if negb (truthy found) then
             let key_doc := [("id"%string, VStr mongo_id);
                             ("keys"%string, VList [key_entry new_key])] in
             inserted ← insert_one keys key_doc;
             mret (snd inserted)
           else
             let key_doc := default [] found in
             old_keys ← getitem (VDict key_doc) "keys";
             new_keys ← append old_keys (key_entry new_key);
             update_one keys "id" (VStr mongo_id) "keys" new_keys;;
             mret (dict_set key_doc "keys" new_keys));
        let key_doc_serialized := convert_object_ids key_doc in
        old_entries ← lrange "api_keys_list";
        remove_old_entry mongo_id old_entries;;
        updated_json ← dumps (VDict key_doc_serialized);
        rpush "api_keys_list" updated_json;;
        mret (VDict [("message"%string, VStr "New API key created");
                     ("new_key"%string, VStr new_key)])
  end.

(** [[k for k in ks if k["key"] != key_to_remove]] *)
Fixpoint filter_keys (key_to_remove : string) (ks : list value)
  : M (list value) :=
  match ks with
  | [] => mret []
  | k :: rest =>
      key ← getitem k "key";
      kept ← filter_keys key_to_remove rest;
      mret (if negb (value_eqb key (VStr key_to_remove)) then k :: kept else kept)
  end.

Definition remove_api_key (mongo_id : string) (key_to_remove : string)
  : M value :=
  found ← find_one keys "id" (VStr mongo_id);
  if negb (truthy found) then
    raise (HTTPException 404 "API key document not found")
  else
    let key_doc := default [] found in
    all_keys ← getitem (VDict key_doc) "keys";
    visited ← iter all_keys;
    filtered_keys ← filter_keys key_to_remove visited;
    n ← len all_keys;
    if Nat.eqb (length filtered_keys) n then
      raise (HTTPException 404 "API key not found")
    else
      update_one keys "id" (VStr mongo_id) "keys" (VList filtered_keys);;
      let updated_doc := [("id"%string, VStr mongo_id);
                          ("keys"%string, VList filtered_keys)] in
      updated_json ← dumps (VDict updated_doc);
      old_entries ← lrange "api_keys_list";
      remove_old_entry mongo_id old_entries;;
      rpush "api_keys_list" updated_json;;
      mret (VDict [("message"%string, VStr "API key removed");
                   ("removed_key"%string, VStr key_to_remove)]).

(** The loop of [list_api_keys] and [get_user] over [all_entries]: the
    first entry whose ["id"] equals [wanted], decoded, or the handler's 404. *)
Fixpoint first_entry (wanted : value) (detail : string)
    (all_entries : list string) : M value :=
  match all_entries with
  | [] => raise (HTTPException 404 detail)
  | entry :: rest =>
      entry_dict ← loads entry;
      entry_id ← get entry_dict "id";
      if opt_eqb entry_id wanted then mret entry_dict
      else first_entry wanted detail rest
  end.

Definition list_api_keys (mongo_id : string) : M value :=
  all_entries ← lrange "api_keys_list";
  first_entry (VStr mongo_id) "API keys not found in Redis" all_entries.

Definition get_user (user_id : Z) : M value :=
  all_entries ← lrange "users_list";
  first_entry (VInt user_id) "User not found in Redis" all_entries.

(** A world with empty stores. *)
Definition empty_world (rnd : nat -> nat) : world :=
  mkWorld [] [] ∅ 0 rnd 0.

(** ** Notions used to state the properties *)

(** The cache update both key-set handlers end with ([create_api_key],
    lines 93-101, where the new text is computed between the loop and the
    push; [remove_api_key], lines 122-129). *)
Definition update_api_keys_cache (mongo_id updated_json : string) : M unit :=
  old_entries ← lrange "api_keys_list";
  remove_old_entry mongo_id old_entries;;
  rpush "api_keys_list" updated_json.

(** A cache entry decodes to a dictionary whose ["id"] is [wanted]. *)
Definition entry_has_id (wanted : value) (entry : string) : bool :=
  match json_loads entry with
  | Some (VDict d) => opt_eqb (dict_get d "id") wanted
  | _ => false
  end.

(** A cache entry decodes to a dictionary (what the loops can work on). *)
Definition decodable (entry : string) : Prop :=
  exists d, json_loads entry = Some (VDict d).

(** How many entries of a cache list belong to an identifier. *)
Definition count_id (wanted : value) (entries : list string) : nat :=
  length (List.filter (entry_has_id wanted) entries).

(** How many entries of a cache list are exactly the text [e]. *)
Definition copies (e : string) (entries : list string) : nat :=
  length (List.filter (String.eqb e) entries).

(** The cache list after the update, as the code computes it: every exact
    copy of the first entry of [mongo_id] goes, the new text is appended. *)
Definition cache_after (mongo_id updated_json : string) (entries : list string)
  : list string :=
  match List.find (entry_has_id (VStr mongo_id)) entries with
  | Some e => lrem_list 0 e entries
  | None => entries
  end ++ [updated_json].

(** [removeByIdThenAppend] in the words of the specification: the single
    first entry matching the identifier is removed, that exact occurrence
    and no other, and the new text is appended. *)
Fixpoint remove_first_match (p : string -> bool) (entries : list string)
  : list string :=
  match entries with
  | [] => []
  | e :: rest => if p e then rest else e :: remove_first_match p rest
  end.

Definition spec_removeByIdThenAppend (mongo_id updated_json : string)
    (entries : list string) : list string :=
  remove_first_match (entry_has_id (VStr mongo_id)) entries ++ [updated_json].

(** The text [json.dumps] gives for a serialisable value. *)
Definition text_of (v : value) : string := string_of_list_ascii (encode v).

(** The key of one entry of a key list, [k["key"]]. *)
Definition key_of (k : value) : option value :=
  match k with
  | VDict kd => dict_get kd "key"
  | _ => None
  end.

(** The key list without the entries whose key is [key_to_remove]. *)
Definition without_key (key_to_remove : string) (ks : list value) : list value :=
  List.filter (fun k => negb (opt_eqb (key_of k) (VStr key_to_remove))) ks.

(** An entry of a key list: a serialisable dictionary with a ["key"]. *)
Definition key_entry_ok (k : value) : Prop :=
  json_value k /\ exists x, key_of k = Some x.

(** A key-set document as the handlers store it ([key_doc_ok] below): an
    [ObjectId] under ["_id"] and a list of key entries under ["keys"]. *)

(** What a stored document may hold for [convert_object_ids] to make it
    serialisable: distinct field names, and under each a serialisable
    value or an [ObjectId]. *)
Definition storable (doc : dict) : Prop :=
  NoDup (dict_keys doc) /\
  Forall (fun kv => json_value (snd kv) \/ exists o, snd kv = VObjectId o) doc.

Definition key_doc_ok (doc : dict) : Prop :=
  storable doc /\
  (exists o, dict_get doc "_id" = Some (VObjectId o)) /\
  (exists ks, dict_get doc "keys" = Some (VList ks) /\ Forall key_entry_ok ks).

(** The characters a generated key is made of, read off the entropy. *)
Fixpoint drawn_chars (rnd : nat -> nat) (start n : nat) : list ascii :=
  match n with
  | O => []
  | S n' =>
      nth (rnd start mod length (list_ascii_of_string chars))%nat
        (list_ascii_of_string chars) "000"%char
      :: drawn_chars rnd (S start) n'
  end.

Definition drawn_key (rnd : nat -> nat) (start n : nat) : string :=
  string_of_list_ascii (drawn_chars rnd start n).

Arguments ObjectId_of_counter : simpl never.
Arguments drawn_key : simpl never.
Arguments text_of : simpl never.

Definition with_drawn (k : nat) (w : world) : world :=
  mkWorld (db_users w) (db_keys w) (redis w) (oid_counter w) (entropy w) k.

Definition with_counter (n : N) (w : world) : world :=
  mkWorld (db_users w) (db_keys w) (redis w) n (entropy w) (drawn w).

(** A boolean form of [decodable], to check concrete cache lists. *)
Definition decodableb (entry : string) : bool :=
  match json_loads entry with
  | Some (VDict _) => true
  | _ => false
  end.

(** ** Sample inputs *)

Definition sample_entropy (i : nat) : nat := (i * 7 + 3)%nat.

Definition ann : User := mkUser 1 "Ann" "Acme" active.

(** A user whose id is the first integer beyond the signed 64-bit ones. *)
Definition wide_user : User := mkUser (2 ^ 63) "Ann" "Acme" active.

(** The stores after Ann was created in an empty world. *)
Definition world_with_ann : world :=
  snd (create_user ann (empty_world sample_entropy)).

(** The storage id Ann's document received there. *)
Definition ann_storage_id : string :=
  str_of_ObjectId (ObjectId_of_counter 0).

(** The key Ann received there. *)
Definition ann_key : string := drawn_key sample_entropy 0 20.

(** A key set as [db.keys] holds it. *)
Definition stored_key_set (mongo_id : string) (ks : list string) (doc_id : ObjectId)
  : dict :=
  [("_id"%string, VObjectId doc_id); ("id"%string, VStr mongo_id);
   ("keys"%string, VList (map key_entry ks))].

Definition sample_key_doc : dict :=
  [("id"%string, VStr "u1"); ("keys"%string, VList [key_entry "k1"; key_entry "k2"])].

Definition sample_key_doc_reordered : dict :=
  [("keys"%string,
    VList [VDict [("status"%string, VStr "valid"); ("key"%string, VStr "k1")];
           key_entry "k2"]);
   ("id"%string, VStr "u1")].

(** A cache list holding the same text twice, as two requests that push the
    same refreshed document leave it. *)
Definition duplicated_cache_world : world :=
  mkWorld []
    [("_id"%string, VObjectId (ObjectId_of_counter 7)) :: sample_key_doc]
    {["api_keys_list"%string :=
        [text_of (VDict sample_key_doc); text_of (VDict sample_key_doc)]]}
    8 sample_entropy 0.

(** ** Consistent worlds *)

(** A storage id in use: the text of an [ObjectId] the driver handed out. *)
Definition issued (w : world) (s : string) : Prop :=
  exists n, (n < oid_counter w)%N /\
            ObjectId_of_str s = Some (ObjectId_of_counter n).

(** The invariant of section 3 of the specification, as the sequential
    service maintains it: stored key sets are well formed and belong to
    storage ids in use, stored users carry the [ObjectId] they were given,
    both cache lists hold decodable documents of stored users and of
    storage ids in use, and the key-set cache has at most one entry per
    storage id. *)
Record consistent (w : world) : Prop := mkConsistent {
  cons_keys : Forall key_doc_ok (db_keys w);
  cons_key_ids :
    Forall (fun doc => exists s, dict_get doc "id" = Some (VStr s) /\ issued w s)
      (db_keys w);
  cons_users :
    Forall (fun doc => exists n, (n < oid_counter w)%N /\
                         dict_get doc "_id"
                         = Some (VObjectId (ObjectId_of_counter n)))
      (db_users w);
  cons_users_cache :
    Forall (fun e => exists d i,
                json_loads e = Some (VDict d) /\
                dict_get d "id" = Some (VInt i) /\
                Exists (fun doc => matches "id" (VInt i) doc = true) (db_users w))
      (redis_list "users_list" w);
  cons_cache :
    Forall (fun e => exists d s,
                json_loads e = Some (VDict d) /\
                dict_get d "id" = Some (VStr s) /\ issued w s)
      (redis_list "api_keys_list" w);
  cons_unique :
    forall s, (count_id (VStr s) (redis_list "api_keys_list" w) <= 1)%nat;
  cons_space : (oid_counter w <= 16 ^ 24)%N
}.

(** The requests of section 6 and the handler that serves each. *)
Inductive request : Type :=
| CreateUser (user : User)
| CreateApiKey (mongo_id : string)
| RemoveApiKey (mongo_id key_to_remove : string)
| ListApiKeys (mongo_id : string)
| GetUser (user_id : Z).

Definition serve (r : request) : M value :=
  match r with
  | CreateUser user => create_user user
  | CreateApiKey mongo_id => create_api_key mongo_id
  | RemoveApiKey mongo_id key_to_remove => remove_api_key mongo_id key_to_remove
  | ListApiKeys mongo_id => list_api_keys mongo_id
  | GetUser user_id => get_user user_id
  end.

(** The worlds the service reaches from empty stores by serving requests
    one after the other, as long as identifiers are left. *)
Inductive reachable : world -> Prop :=
| reach_start rnd : reachable (empty_world rnd)
| reach_step w r :
    reachable w -> (oid_counter w + 2 <= 16 ^ 24)%N ->
    reachable (snd (serve r w)).

(** ** Notions for the further properties *)

(** What [convert_object_ids] does to one value of a document. *)
Definition convert_value (v : value) : value :=
  match v with
  | VObjectId o => VStr (str_of_ObjectId o)
  | _ => v
  end.

(** A value that is an [ObjectId] itself (the top level of a field). *)
Definition is_object_id (v : value) : bool :=
  match v with VObjectId _ => true | _ => false end.

(** A handler leaves an observation [f] of the world as it found it,
    whatever its outcome. *)
Definition preserves {B A} (f : world -> B) (m : M A) : Prop :=
  forall w, f (snd (m w)) = f w.

(** The part of the world that belongs to the users: the collection and its
    cache list. *)
Definition users_part (w : world) : list dict * list string :=
  (db_users w, redis_list "users_list" w).

(** The sources of identifiers and of randomness. *)
Definition sources (w : world) : N * nat :=
  (oid_counter w, drawn w).

(** The requests whose outcome the model determines: all but a
    [create_api_key] on a path text with ASCII whitespace. *)
Definition modelled (r : request) : Prop :=
  match r with
  | CreateApiKey mongo_id => blank_free mongo_id = true
  | _ => True
  end.

(** The outcomes a client of the service can be given: a response, the 400
    of [create_user], the 404 of the other handlers, the [InvalidId]
    [create_api_key] lets through on a path text that is no [ObjectId], and
    the [OverflowError] [create_user] lets through on an id beyond the
    signed 64-bit integers. *)
Definition answered (r : request) (out : result value) : Prop :=
  match out with
  | Return _ => True
  | Raise (HTTPException status_code _) =>
      match r with
      | CreateUser _ => status_code = 400%nat
      | _ => status_code = 404%nat
      end
  | Raise InvalidId =>
      match r with
      | CreateApiKey mongo_id => ObjectId_of_str mongo_id = None
      | _ => False
      end
  | Raise OverflowError =>
      match r with
      | CreateUser user => int64 (id user) = false
      | _ => False
      end
  | Raise _ => False
  end.

(** A key as [generate_api_key()] makes it. *)
Definition key_text_ok (key : string) : Prop :=
  String.length key = 20%nat /\
  Forall (fun c => In c (list_ascii_of_string chars)) (list_ascii_of_string key).

(** The cache text of a stored document. *)
Definition user_text (doc : dict) : string :=
  text_of (VDict (convert_object_ids doc)).

(** The ["id"] of a stored document, if it has one. *)
Definition doc_id (doc : dict) : option value := dict_get doc "id".

(** A user document as [create_user] stores it. *)
Definition stored_user (user : User) (oid : ObjectId) : dict :=
  ("_id"%string, VObjectId oid) :: User_dict user.

(** The users cache mirrors the users collection: the list holds the text
    of each stored user, in the order of the collection; user ids and
    storage ids are not shared. *)
Record users_coherent (w : world) : Prop := mkUsersCoherent {
  uc_cache : redis_list "users_list" w = map user_text (db_users w);
  uc_shape :
    Forall (fun doc => exists user n, (n < oid_counter w)%N /\
                         doc = stored_user user (ObjectId_of_counter n))
      (db_users w);
  uc_ids : NoDup (map doc_id (db_users w));
  uc_storage_ids : NoDup (map (fun doc => dict_get doc "_id") (db_users w))
}.

(** The key-set cache mirrors the key-set collection: one document per
    storage id, made of generated keys, each with an entry in the cache
    that carries its keys, and no entry without a document. *)
Record keys_coherent (w : world) : Prop := mkKeysCoherent {
  kc_ids : NoDup (map doc_id (db_keys w));
  kc_shape :
    Forall (fun doc => exists s ks oid,
                doc = stored_key_set s ks oid /\ Forall key_text_ok ks)
      (db_keys w);
  kc_cached :
    Forall (fun doc => exists e d,
                In e (redis_list "api_keys_list" w) /\
                json_loads e = Some (VDict d) /\
                dict_get d "id" = dict_get doc "id" /\
                dict_get d "keys" = dict_get doc "keys")
      (db_keys w);
  kc_stored :
    Forall (fun e => exists d doc,
                json_loads e = Some (VDict d) /\ In doc (db_keys w) /\
                dict_get d "id" = dict_get doc "id")
      (redis_list "api_keys_list" w)
}.

(** Every stored user has a key set under its storage id. *)
Definition users_have_keys (w : world) : Prop :=
  Forall (fun doc => exists o,
              dict_get doc "_id" = Some (VObjectId o) /\
              Exists (fun kd => matches "id" (VStr (str_of_ObjectId o)) kd = true)
                (db_keys w))
    (db_users w).

(** Every key set belongs to a stored user: its id is a text of that
    user's storage id. *)
Definition keys_have_users (w : world) : Prop :=
  Forall (fun kd => exists s oid,
              dict_get kd "id" = Some (VStr s) /\
              ObjectId_of_str s = Some oid /\
              Exists (fun u => matches "_id" (VObjectId oid) u = true) (db_users w))
    (db_keys w).

Definition coherent (w : world) : Prop :=
  users_coherent w /\ keys_coherent w /\ users_have_keys w /\ keys_have_users w.

(** The stores after six users were created in an empty world; the sixth
    receives a storage id with a letter among its digits. *)
Definition six_users_world : world :=
  fold_left (fun w i => snd (create_user (mkUser i "U" "C" active) w))
    [1; 2; 3; 4; 5; 6] (empty_world sample_entropy).

(** A cache entry that is JSON but not an object: the text of the list
    with the one element 1. *)
Definition non_object_entry : string := text_of (VList [VInt 1]).

(** The stores after Ann was created, with a foreign entry at the head of
    both cache lists. *)
Definition foreign_entry_world : world :=
  set_redis
    (<["api_keys_list"%string :=
         non_object_entry :: redis_list "api_keys_list" world_with_ann]>
       (<["users_list"%string :=
            non_object_entry :: redis_list "users_list" world_with_ann]>
          (redis world_with_ann)))
    world_with_ann.

(** ** Proof automation *)

Ltac world_simpl :=
  cbn [set_docs set_redis with_drawn with_counter docs db_users db_keys redis
         oid_counter entropy drawn fst snd].

Ltac distinct_keys :=
  apply (bool_decide_unpack _); vm_compute; exact I.

Ltac redis_simpl :=
  unfold redis_list; world_simpl;
  repeat first
    [ rewrite lookup_insert_eq
    | rewrite lookup_insert_ne by discriminate
    | rewrite insert_insert_eq ];
  cbn [from_option Datatypes.id].

(** ** Properties of the JSON codec *)

Section codec.

Lemma scan_string_escape c tail :
  scan_string (escape_char c ++ tail) =
  match scan_string tail with
  | Some (cs, rest) => Some (c :: cs, rest)
  | None => None
  end.
Proof.
  destruct c as [[] [] [] [] [] [] [] []]; reflexivity.
Qed.

Lemma scan_string_encode cs rest :
  scan_string (flat_map escape_char cs ++ dquote :: rest) = Some (cs, rest).
Proof.
  induction cs as [|c cs IH]; [reflexivity|].
  cbn [flat_map]. rewrite <- app_assoc, scan_string_escape, IH. reflexivity.
Qed.

Lemma span_digits_app ds rest :
  forallb is_digit ds = true -> delimited rest ->
  span_digits (ds ++ rest) = (ds, rest).
Proof.
  intros Hds Hrest. induction ds as [|d ds IH]; cbn [span_digits app forallb] in *.
  - destruct rest as [|c r]; [reflexivity|]. destruct Hrest as [Hc _].
    cbn [span_digits]. rewrite Hc. reflexivity.
  - apply andb_prop in Hds as [-> Hds]. rewrite (IH Hds). reflexivity.
Qed.

Lemma string_of_uint_digits d :
  forallb is_digit (list_ascii_of_string (NilEmpty.string_of_uint d)) = true.
Proof. induction d; cbn; auto. Qed.

Lemma nzhead_not_D0 d d' : Decimal.nzhead d <> Decimal.D0 d'.
Proof. induction d; cbn; try discriminate. exact IHd. Qed.

Lemma pos_to_uint_not_D0 p d : Pos.to_uint p <> Decimal.D0 d.
Proof.
  intros E.
  pose proof (DecimalPos.Unsigned.to_of (Pos.to_uint p)) as H.
  rewrite DecimalPos.Unsigned.of_to in H. cbn [N.to_uint] in H.
  unfold Decimal.unorm in H. rewrite E in H.
  destruct (Decimal.nzhead (Decimal.D0 d)) eqn:Hnz;
    try discriminate.
  - injection H as ->. exact (DecimalPos.Unsigned.to_uint_nonzero p E).
  - exact (nzhead_not_D0 _ _ Hnz).
Qed.

Lemma scan_digits_pos p rest :
  delimited rest ->
  scan_digits (list_ascii_of_string (NilEmpty.string_of_uint (Pos.to_uint p)) ++ rest)
  = Some (Z.pos p, rest).
Proof.
  intros Hrest.
  pose proof (string_of_uint_digits (Pos.to_uint p)) as Hdig.
  pose proof (NilEmpty.usu (Pos.to_uint p)) as Husu.
  pose proof (pos_to_uint_not_D0 p) as Hnz.
  pose proof (DecimalPos.Unsigned.to_uint_nonnil p) as Hnn.
  pose proof (DecimalPos.Unsigned.of_to p) as Hof.
  assert (Hz : Z.of_uint (Pos.to_uint p) = Z.pos p).
  { unfold Z.of_uint. rewrite Hof. reflexivity. }
  remember (Pos.to_uint p) as u eqn:Hu. clear Hu Hof.
  unfold scan_digits.
  destruct (list_ascii_of_string (NilEmpty.string_of_uint u) ++ rest)
    as [|c r] eqn:Hs.
  { destruct u; cbn in Hs; congruence. }
  assert (Hc : Ascii.eqb c "0" = false).
  { destruct u; cbn in Hs; try (injection Hs as <- _; reflexivity).
    - congruence.
    - exfalso. exact (Hnz _ eq_refl). }
  rewrite Hc, <- Hs, (span_digits_app _ _ Hdig Hrest).
  rewrite string_of_list_ascii_of_string, Husu.
  destruct (list_ascii_of_string (NilEmpty.string_of_uint u)) eqn:Hl.
  { destruct u; cbn in Hl; congruence. }
  destruct rest as [|c' r']; [rewrite Hz; reflexivity|].
  destruct Hrest as [_ ->]. rewrite Hz. reflexivity.
Qed.

Lemma scan_number_encode n rest :
  delimited rest -> scan_number (encode_int n ++ rest) = Some (n, rest).
Proof.
  intros Hrest. unfold encode_int. destruct n as [|p|p]; cbn [Z.to_int].
  - cbn. destruct rest as [|c r]; [reflexivity|].
    destruct Hrest as [_ H]. cbn in H |- *. rewrite H. reflexivity.
  - cbn [NilEmpty.string_of_int].
    pose proof (scan_digits_pos p rest Hrest) as H.
    unfold scan_number.
    destruct (list_ascii_of_string (NilEmpty.string_of_uint (Pos.to_uint p)) ++ rest)
      as [|c r] eqn:Hs; [discriminate H|].
    destruct (Ascii.eqb c "-") eqn:Hm; [|exact H].
    apply Ascii.eqb_eq in Hm. subst c.
    pose proof (string_of_uint_digits (Pos.to_uint p)) as Hdig.
    destruct (list_ascii_of_string (NilEmpty.string_of_uint (Pos.to_uint p)))
      as [|c0 l0]; cbn in Hs.
    + subst rest. destruct Hrest as [_ H']. exfalso.
      unfold scan_digits in H. cbn in H. destruct r; discriminate H.
    + injection Hs as -> _. cbn in Hdig. discriminate Hdig.
  - cbn [NilEmpty.string_of_int list_ascii_of_string app].
    unfold scan_number. cbn [Ascii.eqb Bool.eqb andb].
    rewrite (scan_digits_pos p rest Hrest). reflexivity.
Qed.

Lemma value_start_facts c :
  value_start c = true ->
  is_ws c = false /\ Ascii.eqb c "]" = false /\ Ascii.eqb c "}" = false.
Proof.
  destruct c as [[] [] [] [] [] [] [] []]; cbv; intros H;
    first [discriminate H | repeat split].
Qed.

Lemma scan_number_start c r n rest :
  scan_number (c :: r) = Some (n, rest) ->
  (Ascii.eqb c "-" || is_digit c)%bool = true.
Proof.
  unfold scan_number. destruct (Ascii.eqb c "-") eqn:Hm; [reflexivity|].
  unfold scan_digits. destruct (Ascii.eqb c "0") eqn:Hz.
  { apply Ascii.eqb_eq in Hz. subst c. reflexivity. }
  cbn [span_digits orb]. destruct (is_digit c); [reflexivity|].
  cbn. discriminate.
Qed.

Lemma scan_value_number fuel s n rest :
  scan_number s = Some (n, rest) ->
  scan_value (S fuel) s = Some (VInt n, rest).
Proof.
  intros H. destruct s as [|c r]; [discriminate H|].
  pose proof (scan_number_start _ _ _ _ H) as Hc.
  cbn [scan_value].
  assert (Ascii.eqb c dquote = false /\ Ascii.eqb c "{" = false
          /\ Ascii.eqb c "[" = false) as (-> & -> & ->).
  { clear H. destruct c as [[] [] [] [] [] [] [] []]; cbv in Hc |- *;
      first [discriminate Hc | repeat split]. }
  rewrite H. reflexivity.
Qed.

Lemma encode_int_start n :
  exists c r, encode_int n = c :: r /\ value_start c = true.
Proof.
  pose proof (scan_number_encode n [] I) as H. rewrite app_nil_r in H.
  destruct (encode_int n) as [|c r] eqn:E; [discriminate H|].
  exists c, r. split; [reflexivity|].
  apply scan_number_start in H. unfold value_start.
  destruct (Ascii.eqb c "-"), (is_digit c); try discriminate H;
    rewrite ?orb_true_r; reflexivity.
Qed.

Lemma encode_start v :
  json_value v -> exists c r, encode v = c :: r /\ value_start c = true.
Proof.
  intros Hv. destruct Hv; cbn [encode].
  - apply encode_int_start.
  - eexists _, _. split; [reflexivity|reflexivity].
  - eexists _, _. split; [reflexivity|reflexivity].
  - eexists _, _. split; [reflexivity|reflexivity].
Qed.

Lemma skip_ws_start c r : value_start c = true -> skip_ws (c :: r) = c :: r.
Proof.
  intros H. apply value_start_facts in H as (H & _). cbn. rewrite H. reflexivity.
Qed.

Lemma skip_ws_encode v rest :
  json_value v -> skip_ws (encode v ++ rest) = encode v ++ rest.
Proof.
  intros Hv. destruct (encode_start v Hv) as (c & r & -> & Hc).
  apply skip_ws_start, Hc.
Qed.

Lemma delimited_comma r : delimited (","%char :: r).
Proof. split; reflexivity. Qed.

Lemma delimited_bracket r : delimited ("]"%char :: r).
Proof. split; reflexivity. Qed.

Lemma delimited_brace r : delimited ("}"%char :: r).
Proof. split; reflexivity. Qed.

Lemma join_items_cons_app a b l t :
  join_items (a :: b :: l) ++ t
  = a ++ ","%char :: " "%char :: (join_items (b :: l) ++ t).
Proof. cbn [join_items]. rewrite <- app_assoc. reflexivity. Qed.

Lemma skip_ws_join v l t :
  json_value v ->
  skip_ws (join_items (map encode (v :: l)) ++ t)
  = join_items (map encode (v :: l)) ++ t.
Proof.
  intros Hv. destruct l as [|y l].
  - apply skip_ws_encode, Hv.
  - cbn [map]. rewrite join_items_cons_app. apply skip_ws_encode, Hv.
Qed.

Lemma skip_ws_comma t : skip_ws (","%char :: t) = ","%char :: t.
Proof. reflexivity. Qed.

Lemma skip_ws_space t : skip_ws (" "%char :: t) = skip_ws t.
Proof. reflexivity. Qed.

Lemma scan_elements_encode l :
  l <> [] -> Forall (fun v => json_value v /\ scans v) l ->
  forall fuel rest,
    (list_sum (map (fun x => S (scan_cost x)) l) <= fuel)%nat ->
    scan_elements fuel (join_items (map encode l) ++ "]"%char :: rest)
    = Some (map canon l, rest).
Proof.
  induction l as [|x l IH]; [congruence|]. intros _ Hall fuel rest Hfuel.
  apply Forall_cons in Hall as [[Hjx Hx] Hl].
  destruct fuel as [|fuel]; [cbn in Hfuel; lia|].
  cbn [scan_elements].
  destruct l as [|y l].
  - cbn [map list_sum fold_right join_items] in Hfuel |- *.
    rewrite (Hx fuel); [|lia|apply delimited_bracket]. reflexivity.
  - assert (Hjy : json_value y) by (apply Forall_cons in Hl as [[? _] _]; assumption).
    specialize (IH ltac:(discriminate) Hl).
    remember (y :: l) as l' eqn:El'.
    cbn [map list_sum fold_right] in Hfuel.
    rewrite El' at 1. cbn [map]. rewrite join_items_cons_app.
    rewrite <- (map_cons encode y l), <- El'.
    rewrite (Hx fuel); [|lia|apply delimited_comma].
    rewrite skip_ws_comma. cbn [Ascii.eqb Bool.eqb andb].
    rewrite skip_ws_space. rewrite El' at 1. rewrite (skip_ws_join y l _ Hjy).
    rewrite <- El'. rewrite IH; [reflexivity|].
    unfold list_sum. lia.
Qed.
Lemma member_text_eq k v t :
  member_text (k, v) ++ t
  = dquote :: flat_map escape_char (list_ascii_of_string k)
      ++ dquote :: ":"%char :: " "%char :: (encode v ++ t).
Proof.
  unfold member_text, encode_member, encode_string. cbn [fst snd app].
  rewrite <- !app_assoc. reflexivity.
Qed.

Lemma skip_ws_colon t : skip_ws (":"%char :: t) = ":"%char :: t.
Proof. reflexivity. Qed.

Lemma skip_ws_brace t : skip_ws ("}"%char :: t) = "}"%char :: t.
Proof. reflexivity. Qed.

Lemma skip_ws_dquote t : skip_ws (dquote :: t) = dquote :: t.
Proof. reflexivity. Qed.

Lemma scan_members_encode ds :
  ds <> [] -> Forall (fun kv => json_value (snd kv) /\ scans (snd kv)) ds ->
  forall fuel rest,
    (list_sum (map (fun kv => S (scan_cost (snd kv))) ds) <= fuel)%nat ->
    scan_members fuel (join_items (map member_text ds) ++ "}"%char :: rest)
    = Some (map (fun kv => (fst kv, canon (snd kv))) ds, rest).
Proof.
  induction ds as [|[k v] ds IH]; [congruence|]. intros _ Hall fuel rest Hfuel.
  apply Forall_cons in Hall as [[Hjv Hv] Hds]. cbn [snd] in Hjv, Hv.
  destruct fuel as [|fuel]; [cbn in Hfuel; lia|].
  destruct ds as [|kv' ds].
  - cbn [map list_sum fold_right join_items fst snd] in Hfuel |- *.
    rewrite member_text_eq. cbn [scan_members].
    change (Ascii.eqb dquote dquote) with true. cbv iota.
    rewrite scan_string_encode, skip_ws_colon.
    cbn [Ascii.eqb Bool.eqb andb]. rewrite skip_ws_space.
    rewrite (skip_ws_encode _ _ Hjv).
    rewrite (Hv fuel); [|lia|apply delimited_brace].
    rewrite skip_ws_brace. cbn [Ascii.eqb Bool.eqb andb].
    rewrite string_of_list_ascii_of_string. reflexivity.
  - specialize (IH ltac:(discriminate) Hds).
    remember (kv' :: ds) as ds' eqn:Eds.
    cbn [map list_sum fold_right fst snd] in Hfuel.
    rewrite Eds at 1. cbn [map]. rewrite join_items_cons_app.
    rewrite <- (map_cons member_text kv' ds), <- Eds.
    rewrite member_text_eq. cbn [scan_members].
    change (Ascii.eqb dquote dquote) with true. cbv iota.
    rewrite scan_string_encode, skip_ws_colon.
    cbn [Ascii.eqb Bool.eqb andb]. rewrite skip_ws_space.
    rewrite (skip_ws_encode _ _ Hjv).
    rewrite (Hv fuel); [|lia|apply delimited_comma].
    rewrite skip_ws_comma. cbn [Ascii.eqb Bool.eqb andb].
    rewrite skip_ws_space.
    assert (Hsk : forall t, skip_ws (join_items (map member_text ds') ++ t)
                            = join_items (map member_text ds') ++ t).
    { intros t. rewrite Eds. destruct kv' as [k' v']. destruct ds as [|kv2 ds].
      - cbn [map join_items]. rewrite member_text_eq. apply skip_ws_dquote.
      - cbn [map]. rewrite join_items_cons_app, member_text_eq.
        apply skip_ws_dquote. }
    rewrite Hsk, IH; [|unfold list_sum; lia].
    rewrite string_of_list_ascii_of_string. reflexivity.
Qed.
(** *** Sorting items by key *)

Global Instance key_le_trans {A} : Transitive (@key_le A).
Proof. intros x y z. unfold key_le. apply transitivity. Qed.

Global Instance key_le_total {A} : Total (@key_le A).
Proof. intros x y. unfold key_le. apply total, _. Qed.

Lemma key_unique {A} (l : list (string * A)) x y :
  NoDup (map fst l) -> In x l -> In y l -> fst x = fst y -> x = y.
Proof.
  induction l as [|a l IH]; cbn; [tauto|].
  intros Hnd Hx Hy E. apply NoDup_cons in Hnd as [Ha Hnd].
  destruct Hx as [->|Hx], Hy as [->|Hy]; auto.
  - exfalso. apply Ha. rewrite E. apply list_elem_of_In, in_map, Hy.
  - exfalso. apply Ha. rewrite <- E. apply list_elem_of_In, in_map, Hx.
Qed.

Lemma sort_items_perm {A} (l : list (string * A)) : sort_items l ≡ₚ l.
Proof. apply merge_sort_Permutation. Qed.

Lemma sort_items_sorted {A} (l : list (string * A)) : Sorted key_le (sort_items l).
Proof. apply Sorted_merge_sort, _. Qed.

(** Two key-sorted arrangements of the same items, with distinct keys, are
    the same list. *)
Lemma sorted_items_unique {A} (l l1 l2 : list (string * A)) :
  NoDup (map fst l) -> l1 ≡ₚ l -> l2 ≡ₚ l ->
  Sorted key_le l1 -> Sorted key_le l2 -> l1 = l2.
Proof.
  intros Hnd H1 H2 S1 S2.
  apply (Sorted_unique_strong key_le); auto.
  - intros x y Hx Hy Hxy Hyx. apply (key_unique l); auto.
    + apply list_elem_of_In. rewrite <- H1. exact Hx.
    + apply list_elem_of_In. rewrite <- H2. exact Hy.
    + apply (anti_symm String.le); assumption.
  - rewrite H1, H2. reflexivity.
Qed.

Lemma map_fst_item {A B} (g : A -> B) (l : list (string * A)) :
  map fst (map (fun kv => (fst kv, g (snd kv))) l) = map fst l.
Proof. rewrite map_map. reflexivity. Qed.

Lemma sort_items_map {A B} (g : A -> B) (l : list (string * A)) :
  NoDup (map fst l) ->
  sort_items (map (fun kv => (fst kv, g (snd kv))) l)
  = map (fun kv => (fst kv, g (snd kv))) (sort_items l).
Proof.
  intros Hnd.
  apply (sorted_items_unique (map (fun kv => (fst kv, g (snd kv))) l)).
  - rewrite map_fst_item. exact Hnd.
  - apply sort_items_perm.
  - apply Permutation_map, sort_items_perm.
  - apply sort_items_sorted.
  - pose proof (sort_items_sorted l) as Hs.
    induction Hs as [|x l' Hs IH Hhd]; cbn [map]; constructor; auto.
    destruct Hhd; cbn [map]; constructor. exact H.
Qed.

Lemma sort_items_keys {A} (l : list (string * A)) :
  NoDup (map fst l) -> NoDup (map fst (sort_items l)).
Proof.
  intros H.
  assert (P : map fst (sort_items l) ≡ₚ map fst l)
    by apply Permutation_map, sort_items_perm.
  rewrite P. exact H.
Qed.

(** *** Rebuilding the dictionary *)

Lemma dict_set_fresh d k v :
  ~ In k (dict_keys d) -> dict_set d k v = d ++ [(k, v)].
Proof.
  induction d as [|[k' v'] d IH]; cbn; [reflexivity|]. intros H.
  destruct (String.eqb_spec k' k) as [->|_]; [tauto|].
  rewrite IH; [reflexivity|tauto].
Qed.

Lemma dict_of_pairs_distinct pairs :
  NoDup (dict_keys pairs) -> dict_of_pairs pairs = pairs.
Proof.
  unfold dict_of_pairs.
  enough (forall acc, NoDup (dict_keys (acc ++ pairs)) ->
            fold_left (fun d kv => dict_set d (fst kv) (snd kv)) pairs acc
            = acc ++ pairs) as H by (intros Hnd; apply (H [] Hnd)).
  induction pairs as [|[k v] pairs IH]; intros acc Hnd; cbn [fold_left fst snd].
  - rewrite app_nil_r. reflexivity.
  - rewrite dict_set_fresh.
    + rewrite IH; rewrite <- app_assoc; [reflexivity|exact Hnd].
    + unfold dict_keys in *. rewrite map_app in Hnd. cbn [map fst] in Hnd.
      apply NoDup_app in Hnd as (_ & Hd & _). intros Hin.
      apply (Hd k); [apply list_elem_of_In, Hin|left].
Qed.
(** *** The scanner reads the encoder's text back *)

Lemma encode_dict d :
  NoDup (dict_keys d) ->
  encode (VDict d)
  = "{"%char :: join_items (map member_text (sort_items d)) ++ ["}"%char].
Proof.
  intros Hnd. cbn [encode]. rewrite (sort_items_map encode d Hnd), map_map.
  reflexivity.
Qed.

Lemma canon_dict d :
  NoDup (dict_keys d) ->
  canon (VDict d) = VDict (map (fun kv => (fst kv, canon (snd kv))) (sort_items d)).
Proof. intros Hnd. cbn [canon]. rewrite (sort_items_map canon d Hnd). reflexivity. Qed.

Lemma list_sum_perm l1 l2 : l1 ≡ₚ l2 -> list_sum l1 = list_sum l2.
Proof.
  unfold list_sum. induction 1 as [|x l l' _ IH|x y l|l l' l'' _ IH1 _ IH2];
    cbn [fold_right]; lia.
Qed.

Lemma json_value_scans v : json_value v -> scans v.
Proof.
  induction v as [n|s|l IH|d IH|o] using value_nested_ind;
    intros Hv fuel rest Hfuel Hrest; inversion Hv as [| |? Hl|? Hnd Hd]; subst.
  - destruct fuel as [|fuel]; [cbn in Hfuel; lia|].
    apply scan_value_number, scan_number_encode, Hrest.
  - destruct fuel as [|fuel]; [cbn in Hfuel; lia|].
    cbn [encode encode_string app scan_value canon].
    change (Ascii.eqb dquote dquote) with true. cbv iota.
    rewrite <- app_assoc. cbn [app].
    rewrite scan_string_encode, string_of_list_ascii_of_string. reflexivity.
  - destruct fuel as [|fuel]; [cbn in Hfuel; lia|].
    cbn [scan_cost] in Hfuel.
    cbn [encode canon app]. rewrite <- app_assoc. cbn [app scan_value].
    cbn [Ascii.eqb Bool.eqb andb].
    destruct l as [|x l]; [reflexivity|].
    assert (Hx : json_value x) by (apply Forall_cons in Hl as [? _]; assumption).
    rewrite (skip_ws_join x l _ Hx).
    destruct (join_items (map encode (x :: l)) ++ "]"%char :: rest)
      as [|c1 r1] eqn:Etext.
    { exfalso. cbn [map] in Etext. destruct (encode_start x Hx) as (c & r & E & _).
      destruct l; cbn [map join_items] in Etext; rewrite E in Etext;
        discriminate Etext. }
    assert (Hc1 : Ascii.eqb c1 "]" = false).
    { destruct (encode_start x Hx) as (c & r & E & Hc).
      apply value_start_facts in Hc as (_ & Hc & _).
      destruct l; cbn [map join_items] in Etext; rewrite E in Etext;
        cbn [app] in Etext; injection Etext as <- _; exact Hc. }
    rewrite Hc1, <- Etext, scan_elements_encode; [reflexivity|discriminate| |lia].
    apply Forall_forall. intros y Hy. split.
    + rewrite Forall_forall in Hl. apply Hl, Hy.
    + rewrite Forall_forall in IH, Hl. apply IH; [exact Hy|]. apply Hl, Hy.
  - destruct fuel as [|fuel]; [cbn in Hfuel; lia|].
    cbn [scan_cost] in Hfuel.
    rewrite (encode_dict d Hnd), (canon_dict d Hnd).
    cbn [app]. rewrite <- app_assoc. cbn [app scan_value].
    cbn [Ascii.eqb Bool.eqb andb].
    pose proof (sort_items_perm d) as Hperm.
    pose proof (sort_items_keys d Hnd) as Hkeys.
    assert (Hall : Forall (fun kv => json_value (snd kv) /\ scans (snd kv))
                     (sort_items d)).
    { rewrite Hperm. apply Forall_forall. intros kv Hkv. split.
      - rewrite Forall_forall in Hd. apply Hd, Hkv.
      - rewrite Forall_forall in IH, Hd. apply IH; [exact Hkv|]. apply Hd, Hkv. }
    assert (Hcost : list_sum (map (fun kv => S (scan_cost (snd kv))) (sort_items d))
                    = list_sum (map (fun kv => S (scan_cost (snd kv))) d)).
    { apply list_sum_perm, Permutation_map, Hperm. }
    destruct (sort_items d) as [|[k v] ds] eqn:Es; [reflexivity|].
    assert (Etext : forall t,
              join_items (map member_text ((k, v) :: ds)) ++ t
              = dquote :: flat_map escape_char (list_ascii_of_string k)
                  ++ dquote :: ":"%char :: " "%char ::
                  (encode v ++ match ds with
                               | [] => t
                               | _ => ","%char :: " "%char ::
                                        (join_items (map member_text ds) ++ t)
                               end)).
    { intros t. destruct ds as [|kv2 ds].
      - cbn [map join_items]. apply member_text_eq.
      - cbn [map]. rewrite join_items_cons_app, member_text_eq. reflexivity. }
    rewrite (Etext ("}"%char :: rest)), skip_ws_dquote.
    change (Ascii.eqb dquote "}") with false. cbv iota.
    rewrite <- (Etext ("}"%char :: rest)).
    rewrite scan_members_encode; [|discriminate|exact Hall|lia].
    rewrite dict_of_pairs_distinct; [reflexivity|].
    unfold dict_keys. rewrite map_fst_item. exact Hkeys.
Qed.
(** *** The text is long enough to pay for its own scan *)

Lemma join_items_cost {X} (cost : X -> nat) (txt : X -> list ascii) (l : list X) :
  Forall (fun x => (cost x <= length (txt x))%nat) l ->
  (list_sum (map (fun x => S (cost x)) l) <= S (length (join_items (map txt l))))%nat.
Proof.
  unfold list_sum.
  induction l as [|x l IH]; intros Hall; cbn [map fold_right]; [lia|].
  apply Forall_cons in Hall as [Hx Hl]. specialize (IH Hl).
  destruct l as [|y l].
  - cbn [map fold_right join_items]. lia.
  - assert (E : join_items (txt x :: map txt (y :: l))
                = txt x ++ ","%char :: " "%char :: join_items (map txt (y :: l)))
      by reflexivity.
    rewrite E, length_app. cbn [length]. lia.
Qed.

Lemma encode_cost v : json_value v -> (scan_cost v <= length (encode v))%nat.
Proof.
  induction v as [n|s|l IH|d IH|o] using value_nested_ind;
    intros Hv; inversion Hv as [| |? Hl|? Hnd Hd]; subst.
  - destruct (encode_int_start n) as (c & r & E & _).
    cbn [encode scan_cost]. rewrite E. cbn [length]. lia.
  - cbn [encode scan_cost encode_string length]. lia.
  - cbn [encode scan_cost length]. rewrite length_app. cbn [length].
    pose proof (join_items_cost scan_cost encode l) as H.
    rewrite !Forall_forall in *. specialize (H (fun x Hx => IH x Hx (Hl x Hx))).
    lia.
  - rewrite (encode_dict d Hnd). cbn [scan_cost length]. rewrite length_app.
    cbn [length].
    pose proof (join_items_cost (fun kv => scan_cost (snd kv)) member_text
                  (sort_items d)) as H.
    rewrite (list_sum_perm _ (map (fun kv => S (scan_cost (snd kv))) d)) in H
      by apply Permutation_map, sort_items_perm.
    assert (Hall : Forall (fun kv => (scan_cost (snd kv) <= length (member_text kv))%nat)
                     (sort_items d)).
    { rewrite sort_items_perm. rewrite !Forall_forall in *. intros [k v] Hkv.
      specialize (IH _ Hkv (Hd _ Hkv)). cbn [snd] in *.
      unfold member_text, encode_member. cbn [fst snd].
      rewrite length_app. cbn [length]. lia. }
    specialize (H Hall). lia.
Qed.

(** The codec round trip on texts: decoding the text of a serialisable
    value gives that value with every dictionary in key order. *)
Lemma decode_encode v : json_value v -> decode (encode v) = Some (canon v).
Proof.
  intros Hv. unfold decode.
  pose proof (skip_ws_encode v [] Hv) as Hws. rewrite app_nil_r in Hws.
  rewrite Hws.
  pose proof (json_value_scans v Hv (S (length (encode v))) []) as H.
  rewrite app_nil_r in H. rewrite H; [reflexivity| |exact I].
  pose proof (encode_cost v Hv). lia.
Qed.

Lemma json_value_serialisable v : json_value v -> serialisable v = true.
Proof.
  induction v as [n|s|l IH|d IH|o] using value_nested_ind;
    intros Hv; inversion Hv as [| |? Hl|? Hnd Hd]; subst; cbn [serialisable];
    try reflexivity.
  - apply forallb_forall. rewrite !Forall_forall in *.
    intros x Hx. apply list_elem_of_In in Hx. auto.
  - apply forallb_forall. rewrite !Forall_forall in *.
    intros x Hx. apply list_elem_of_In in Hx. auto.
Qed.

Lemma loads_dumps v :
  json_value v ->
  exists text, json_dumps v = Some text /\ json_loads text = Some (canon v).
Proof.
  intros Hv. unfold json_dumps, json_loads.
  rewrite (json_value_serialisable v Hv). eexists. split; [reflexivity|].
  rewrite list_ascii_of_string_of_list_ascii. apply decode_encode, Hv.
Qed.
(** *** Equality of values *)

Lemma value_eqb_dict xs ys :
  value_eqb (VDict xs) (VDict ys)
  = (Nat.eqb (length xs) (length ys) && forallb (item_matches ys) xs)%bool.
Proof.
  cbn [value_eqb]. f_equal.
  induction xs as [|[k x] xs IH]; [reflexivity|].
  cbn [forallb]. rewrite <- IH. reflexivity.
Qed.

Lemma value_eqb_list xs ys :
  value_eqb (VList xs) (VList ys) = true
  <-> Forall2 (fun x y => value_eqb x y = true) xs ys.
Proof.
  cbn [value_eqb]. revert ys.
  induction xs as [|x xs IH]; intros [|y ys]; split; intros H;
    try discriminate H; try constructor; try (inversion H; fail).
  - apply andb_prop in H as [H _]. exact H.
  - apply andb_prop in H as [_ H]. apply IH, H.
  - apply Forall2_cons in H as [H1 H2]. rewrite H1. apply IH, H2.
Qed.

Lemma dict_get_in d k v :
  NoDup (dict_keys d) -> In (k, v) d -> dict_get d k = Some v.
Proof.
  induction d as [|[k' v'] d IH]; cbn; [tauto|]. intros Hnd Hin.
  apply NoDup_cons in Hnd as [Hk Hnd].
  destruct Hin as [E|Hin].
  - injection E as -> ->. rewrite String.eqb_refl. reflexivity.
  - destruct (String.eqb_spec k' k) as [->|_]; [|auto].
    exfalso. apply Hk, list_elem_of_In. apply (in_map fst _ _ Hin).
Qed.

Lemma dict_get_some d k v : dict_get d k = Some v -> In (k, v) d.
Proof.
  induction d as [|[k' v'] d IH]; cbn; [discriminate|].
  destruct (String.eqb_spec k' k) as [->|_]; [|auto].
  intros [= ->]. left. reflexivity.
Qed.

(** Decoding gives back a value equal to the one encoded. *)
Lemma canon_eqb v : json_value v -> value_eqb (canon v) v = true.
Proof.
  induction v as [n|s|l IH|d IH|o] using value_nested_ind;
    intros Hv; inversion Hv as [| |? Hl|? Hnd Hd]; subst.
  - apply Z.eqb_refl.
  - apply String.eqb_refl.
  - cbn [canon]. apply value_eqb_list.
    induction l as [|x l IHl]; cbn [map]; constructor.
    + apply Forall_cons in IH as [IHx _]. apply Forall_cons in Hl as [Hx _]. auto.
    + apply Forall_cons in IH as [_ IH]. apply Forall_cons in Hl as [_ Hl].
      apply IHl; auto. constructor. exact Hl.
  - rewrite (canon_dict d Hnd), value_eqb_dict.
    rewrite length_map.
    rewrite (Permutation_length (sort_items_perm d)), Nat.eqb_refl. cbn [andb].
    apply forallb_forall. intros [k cv] Hin.
    apply in_map_iff in Hin as ([k' v] & E & Hin). cbn [fst snd] in E.
    injection E as -> <-.
    assert (Hd' : In (k, v) d).
    { apply list_elem_of_In. rewrite <- (sort_items_perm d).
      apply list_elem_of_In, Hin. }
    unfold item_matches. cbn [fst snd]. rewrite (dict_get_in d k v Hnd Hd').
    rewrite !Forall_forall in *. apply list_elem_of_In in Hd'.
    apply (IH _ Hd'), (Hd _ Hd').
Qed.

(** Equal values have the same text. *)
Lemma value_eqb_encode a :
  forall b, json_value a -> json_value b ->
            value_eqb a b = true -> encode a = encode b.
Proof.
  induction a as [n|s|l IH|d IH|o] using value_nested_ind;
    intros b Ha Hb E; inversion Ha as [| |? Hl|? Hnd Hd]; subst;
    destruct b as [n'|s'|l'|d'|o']; try discriminate E.
  - apply Z.eqb_eq in E. subst. reflexivity.
  - apply String.eqb_eq in E. subst. reflexivity.
  - apply value_eqb_list in E. cbn [encode].
    inversion Hb as [| |? Hl'|]; subst. clear Ha Hb.
    enough (map encode l = map encode l') as -> by reflexivity.
    induction E as [|x y l l' Exy E IHE]; [reflexivity|]. cbn [map].
    apply Forall_cons in IH as [IHx IH]. apply Forall_cons in Hl as [Hx Hl].
    apply Forall_cons in Hl' as [Hy Hl']. f_equal; auto.
  - inversion Hb as [| | |? Hnd' Hd']; subst.
    rewrite value_eqb_dict in E. apply andb_prop in E as [Elen Eall].
    apply Nat.eqb_eq in Elen. rewrite forallb_forall in Eall.
    cbn [encode].
    set (F := fun kv : string * value => (fst kv, encode (snd kv))).
    enough (sort_items (map F d) = sort_items (map F d')) as -> by reflexivity.
    assert (Hkeys : forall d0 : dict, map fst (map F d0) = map fst d0)
      by (intros; apply map_fst_item).
    assert (Hnd1 : NoDup (map F d)).
    { apply (NoDup_fmap_1 fst). change (NoDup (map fst (map F d))).
      rewrite Hkeys. exact Hnd. }
    assert (Hincl : forall x, x ∈ map F d -> x ∈ map F d').
    { intros x Hx. apply list_elem_of_In, in_map_iff in Hx as ([k v] & <- & Hin).
      specialize (Eall _ Hin). unfold item_matches in Eall. cbn [fst snd] in Eall.
      destruct (dict_get d' k) as [y|] eqn:Hget; [|discriminate Eall].
      apply dict_get_some in Hget.
      apply list_elem_of_In, in_map_iff. exists (k, y). split; [|exact Hget].
      unfold F. cbn [fst snd]. f_equal. symmetry.
      rewrite !Forall_forall in *.
      apply (IH (k, v)); [apply list_elem_of_In, Hin|
                          apply (Hd (k, v)), list_elem_of_In, Hin|
                          apply (Hd' (k, y)), list_elem_of_In, Hget|exact Eall]. }
    assert (Hperm : map F d ≡ₚ map F d').
    { apply submseteq_length_Permutation.
      - apply NoDup_submseteq; assumption.
      - rewrite !length_map. lia. }
    apply (sorted_items_unique (map F d')).
    + rewrite Hkeys. exact Hnd'.
    + rewrite sort_items_perm. exact Hperm.
    + apply sort_items_perm.
    + apply sort_items_sorted.
    + apply sort_items_sorted.
Qed.

End codec.

(** ** Running the monad *)

Section running.

Lemma run_bind {A B} (m : M A) (f : A -> M B) w :
  (m ≫= f) w
  = match m w with
    | (Return a, w') => f a w'
    | (Raise e, w') => (Raise e, w')
    end.
Proof. reflexivity. Qed.

Lemma run_ret {A} (a : A) w : (mret a : M A) w = (Return a, w).
Proof. reflexivity. Qed.

Lemma choices_run n w :
  choices n w
  = (Return (drawn_chars (entropy w) (drawn w) n), with_drawn (drawn w + n) w).
Proof.
  revert w. induction n as [|n IH]; intros w.
  - cbn. unfold with_drawn. rewrite Nat.add_0_r. destruct w; reflexivity.
  - cbn [choices]. rewrite run_bind. unfold secrets_choice at 1.
    rewrite run_bind, IH. cbn. unfold with_drawn. cbn.
    rewrite Nat.add_succ_r. reflexivity.
Qed.

Lemma generate_api_key_run n w :
  generate_api_key n w
  = (Return (drawn_key (entropy w) (drawn w) n), with_drawn (drawn w + n) w).
Proof. unfold generate_api_key. rewrite run_bind, choices_run. reflexivity. Qed.

Lemma drawn_chars_length rnd start n : length (drawn_chars rnd start n) = n.
Proof. revert start. induction n; intros; cbn; auto. Qed.

Lemma drawn_chars_alphabet rnd start n :
  Forall (fun c => In c (list_ascii_of_string chars)) (drawn_chars rnd start n).
Proof.
  revert start. induction n as [|n IH]; intros start; cbn [drawn_chars];
    constructor; [|apply IH].
  apply nth_In. apply Nat.mod_upper_bound. cbv. discriminate.
Qed.

Lemma string_length_of_list cs : String.length (string_of_list_ascii cs) = length cs.
Proof. induction cs; cbn; auto. Qed.

Lemma drawn_key_length rnd start n : String.length (drawn_key rnd start n) = n.
Proof. unfold drawn_key. rewrite string_length_of_list. apply drawn_chars_length. Qed.

End running.

(** From here on a generated key is only used through
    [generate_api_key_run]. *)
Opaque choices generate_api_key.

(** ** The cache lists *)

Section cache.

Lemma redis_list_insert_eq name l w :
  redis_list name (set_redis (<[name := l]> (redis w)) w) = l.
Proof. unfold redis_list, set_redis. cbn. rewrite lookup_insert_eq. reflexivity. Qed.

Lemma entry_has_id_decoded wanted entry d :
  json_loads entry = Some (VDict d) ->
  entry_has_id wanted entry = opt_eqb (dict_get d "id") wanted.
Proof. intros H. unfold entry_has_id. rewrite H. reflexivity. Qed.

(** The reading loop stops at the first entry of the wanted identifier. *)
Lemma first_entry_run wanted detail entries w :
  Forall decodable entries ->
  first_entry wanted detail entries w
  = (match List.find (entry_has_id wanted) entries with
     | Some e =>
         match json_loads e with
         | Some v => Return v
         | None => Raise JSONDecodeError
         end
     | None => Raise (HTTPException 404 detail)
     end, w).
Proof.
  induction entries as [|entry rest IH]; intros Hall; [reflexivity|].
  apply Forall_cons in Hall as [[d Hd] Hrest].
  cbn [first_entry List.find]. rewrite run_bind. unfold loads. rewrite Hd, run_ret.
  rewrite run_bind. cbn [get]. rewrite run_ret.
  rewrite (entry_has_id_decoded wanted entry d Hd).
  destruct (opt_eqb (dict_get d "id") wanted).
  - rewrite Hd. reflexivity.
  - apply IH, Hrest.
Qed.

(** The removing loop stops at the first entry of [mongo_id] and removes
    every exact copy of it. *)
Lemma remove_old_entry_run mongo_id entries w :
  Forall decodable entries ->
  remove_old_entry mongo_id entries w
  = (Return tt,
     match List.find (entry_has_id (VStr mongo_id)) entries with
     | Some e =>
         set_redis (<["api_keys_list"%string :=
                        lrem_list 0 e (redis_list "api_keys_list" w)]> (redis w)) w
     | None => w
     end).
Proof.
  induction entries as [|entry rest IH]; intros Hall; [reflexivity|].
  apply Forall_cons in Hall as [[d Hd] Hrest].
  cbn [remove_old_entry List.find]. rewrite run_bind. unfold loads.
  rewrite Hd, run_ret. rewrite run_bind. cbn [get]. rewrite run_ret.
  rewrite (entry_has_id_decoded (VStr mongo_id) entry d Hd).
  destruct (opt_eqb (dict_get d "id") (VStr mongo_id)).
  - reflexivity.
  - apply IH, Hrest.
Qed.

Lemma update_api_keys_cache_run mongo_id updated_json w :
  Forall decodable (redis_list "api_keys_list" w) ->
  update_api_keys_cache mongo_id updated_json w
  = (Return tt,
     set_redis (<["api_keys_list"%string :=
                    cache_after mongo_id updated_json
                      (redis_list "api_keys_list" w)]> (redis w)) w).
Proof.
  intros Hall. unfold update_api_keys_cache.
  rewrite run_bind. unfold lrange at 1. rewrite run_bind.
  rewrite (remove_old_entry_run _ _ _ Hall). unfold cache_after, rpush.
  destruct (List.find (entry_has_id (VStr mongo_id))
              (redis_list "api_keys_list" w)) as [e|].
  - rewrite redis_list_insert_eq. unfold set_redis. cbn [redis db_users db_keys oid_counter entropy drawn].
    do 2 f_equal. apply insert_insert_eq.
  - reflexivity.
Qed.

End cache.

(** ** The handlers, step by step *)

Section handlers.

Lemma dumps_run v w :
  serialisable v = true -> dumps v w = (Return (text_of v), w).
Proof. intros H. unfold dumps, json_dumps. rewrite H. reflexivity. Qed.

Lemma loads_text_of v : json_value v -> json_loads (text_of v) = Some (canon v).
Proof.
  intros Hv. unfold json_loads, text_of.
  rewrite list_ascii_of_string_of_list_ascii. apply decode_encode, Hv.
Qed.

Lemma find_matches_truthy field v l :
  truthy (List.find (matches field v) l)
  = match List.find (matches field v) l with Some _ => true | None => false end.
Proof.
  destruct (List.find (matches field v) l) as [d|] eqn:H; [|reflexivity].
  apply find_some in H as [_ H]. destruct d; [discriminate H|reflexivity].
Qed.

Lemma insert_one_run c doc w :
  bson_encodable (VDict doc) = true ->
  insert_one c doc w
  = (Return (ObjectId_of_counter (oid_counter w),
             dict_set doc "_id" (VObjectId (ObjectId_of_counter (oid_counter w)))),
     set_docs c
       (docs c w ++ [("_id"%string, VObjectId (ObjectId_of_counter (oid_counter w)))
                     :: doc])
       (with_counter (N.succ (oid_counter w)) w)).
Proof. intros H. unfold insert_one. rewrite H. reflexivity. Qed.

Lemma user_dict_encodable user :
  int64 (id user) = true -> bson_encodable (VDict (User_dict user)) = true.
Proof. intros H. cbn. rewrite H. reflexivity. Qed.

(** The driver refuses the lookup of an id that BSON cannot hold:
    [create_user] ends there, before any write. *)
Lemma create_user_overflow user w :
  int64 (id user) = false -> create_user user w = (Raise OverflowError, w).
Proof.
  intros Hr. unfold create_user. rewrite run_bind.
  unfold find_one at 1; cbn [bson_encodable]. rewrite Hr. reflexivity.
Qed.

Lemma create_user_conflict user w doc :
  int64 (id user) = true ->
  List.find (matches "id" (VInt (id user))) (db_users w) = Some doc ->
  create_user user w = (Raise (HTTPException 400 "User ID already exists"), w).
Proof.
  intros Hr Hf. unfold create_user. rewrite run_bind.
  unfold find_one at 1; cbn [bson_encodable]. rewrite Hr.
  rewrite find_matches_truthy. cbn [docs]. rewrite Hf. reflexivity.
Qed.

Lemma create_user_new user w :
  int64 (id user) = true ->
  List.find (matches "id" (VInt (id user))) (db_users w) = None ->
  let oid := ObjectId_of_counter (oid_counter w) in
  let mongo_id := str_of_ObjectId oid in
  let api_key := drawn_key (entropy w) (drawn w) 20 in
  let api_doc := [("id"%string, VStr mongo_id);
                  ("keys"%string, VList [key_entry api_key])] in
  let user_dict := User_dict user ++ [("_id"%string, VStr mongo_id)] in
  let user_json := text_of (VDict user_dict) in
  let api_json := text_of (VDict api_doc) in
  create_user user w
  = (Return (VDict [("message"%string, VStr "User created");
                    ("user"%string, VDict user_dict);
                    ("api_key"%string, VStr api_key)]),
     mkWorld
       (db_users w ++ [("_id"%string, VObjectId oid) :: User_dict user])
       (db_keys w ++
          [("_id"%string,
            VObjectId (ObjectId_of_counter (N.succ (oid_counter w)))) :: api_doc])
       (<["api_keys_list"%string :=
            lrem_list 0 api_json (redis_list "api_keys_list" w) ++ [api_json]]>
          (<["users_list"%string :=
               lrem_list 0 user_json (redis_list "users_list" w) ++ [user_json]]>
             (redis w)))
       (N.succ (N.succ (oid_counter w))) (entropy w) (drawn w + 20)).
Proof.
  intros Hr Hf. cbv zeta. unfold create_user. rewrite run_bind.
  unfold find_one at 1; cbn [bson_encodable]. rewrite Hr.
  rewrite find_matches_truthy. cbn [docs]. rewrite Hf.
  rewrite run_bind, (insert_one_run _ _ _ (user_dict_encodable user Hr)).
  cbn [fst snd].
  rewrite run_bind, generate_api_key_run.
  rewrite run_bind, insert_one_run by reflexivity.
  rewrite run_bind, dumps_run by reflexivity.
  rewrite run_bind. unfold lrem at 1. rewrite run_bind. unfold rpush at 1.
  rewrite run_bind, dumps_run by reflexivity.
  rewrite run_bind. unfold lrem at 1. rewrite run_bind. unfold rpush at 1.
  rewrite run_ret. redis_simpl. reflexivity.
Qed.
(** *** The cache update inside the handlers *)

Lemma push_after_remove mongo_id updated_json w :
  Forall decodable (redis_list "api_keys_list" w) ->
  (remove_old_entry mongo_id (redis_list "api_keys_list" w);;
   rpush "api_keys_list" updated_json) w
  = (Return tt,
     set_redis (<["api_keys_list"%string :=
                    cache_after mongo_id updated_json
                      (redis_list "api_keys_list" w)]> (redis w)) w).
Proof.
  intros Hdec. pose proof (update_api_keys_cache_run mongo_id updated_json w Hdec) as H.
  exact H.
Qed.

Lemma cache_tail_run {A} mongo_id updated_json (k : M A) w :
  Forall decodable (redis_list "api_keys_list" w) ->
  (old_entries ← lrange "api_keys_list";
   remove_old_entry mongo_id old_entries;;
   rpush "api_keys_list" updated_json;;
   k) w
  = k (set_redis (<["api_keys_list"%string :=
                      cache_after mongo_id updated_json
                        (redis_list "api_keys_list" w)]> (redis w)) w).
Proof.
  intros Hdec. pose proof (push_after_remove mongo_id updated_json w Hdec) as H.
  rewrite run_bind in H. rewrite run_bind. unfold lrange at 1. rewrite run_bind.
  destruct (remove_old_entry mongo_id (redis_list "api_keys_list" w) w)
    as [[[]|e] w1]; [|discriminate H].
  rewrite run_bind, H. reflexivity.
Qed.

Lemma cache_tail_dumps_run {A} mongo_id v (k : M A) w :
  Forall decodable (redis_list "api_keys_list" w) ->
  serialisable v = true ->
  (old_entries ← lrange "api_keys_list";
   remove_old_entry mongo_id old_entries;;
   updated_json ← dumps v;
   rpush "api_keys_list" updated_json;;
   k) w
  = k (set_redis (<["api_keys_list"%string :=
                      cache_after mongo_id (text_of v)
                        (redis_list "api_keys_list" w)]> (redis w)) w).
Proof.
  intros Hdec Hv. pose proof (push_after_remove mongo_id (text_of v) w Hdec) as H.
  rewrite run_bind in H. rewrite run_bind. unfold lrange at 1. rewrite run_bind.
  destruct (remove_old_entry mongo_id (redis_list "api_keys_list" w) w)
    as [[[]|e] w1]; [|discriminate H].
  rewrite run_bind, (dumps_run _ _ Hv), run_bind, H. reflexivity.
Qed.

(** *** remove_api_key *)

Lemma key_of_dict k x : key_of k = Some x -> exists kd, k = VDict kd.
Proof. destruct k; try discriminate. eauto. Qed.

Lemma filter_keys_run key_to_remove ks w :
  Forall key_entry_ok ks ->
  filter_keys key_to_remove ks w = (Return (without_key key_to_remove ks), w).
Proof.
  induction ks as [|k ks IH]; intros Hall; [reflexivity|].
  apply Forall_cons in Hall as [[_ [x Hx]] Hks].
  destruct (key_of_dict k x Hx) as [kd ->]. cbn [key_of] in Hx.
  cbn [filter_keys]. rewrite run_bind. cbn [getitem]. rewrite Hx, run_ret.
  rewrite run_bind, (IH Hks), run_ret.
  unfold without_key. cbn [List.filter key_of]. rewrite Hx. reflexivity.
Qed.

Lemma filter_length_le {A} (p : A -> bool) l :
  (length (List.filter p l) <= length l)%nat.
Proof. induction l as [|x l IH]; cbn; [lia|]. destruct (p x); cbn; lia. Qed.

Lemma filter_length_all {A} (p : A -> bool) l :
  length (List.filter p l) = length l <-> Forall (fun x => p x = true) l.
Proof.
  induction l as [|x l IH]; cbn [List.filter length].
  - split; [constructor|reflexivity].
  - pose proof (filter_length_le p l) as Hle.
    destruct (p x) eqn:Hp; cbn [length]; split; intros H.
    + constructor; [exact Hp|]. apply IH. lia.
    + apply Forall_cons in H as [_ H]. apply IH in H. lia.
    + lia.
    + apply Forall_cons in H as [H _]. congruence.
Qed.

Lemma remove_api_key_no_doc mongo_id key_to_remove w :
  List.find (matches "id" (VStr mongo_id)) (db_keys w) = None ->
  remove_api_key mongo_id key_to_remove w
  = (Raise (HTTPException 404 "API key document not found"), w).
Proof.
  intros Hf. unfold remove_api_key. rewrite run_bind. unfold find_one at 1; cbn [bson_encodable].
  cbn [docs]. rewrite Hf. reflexivity.
Qed.

Lemma remove_api_key_no_key mongo_id key_to_remove w doc ks :
  List.find (matches "id" (VStr mongo_id)) (db_keys w) = Some doc ->
  dict_get doc "keys" = Some (VList ks) -> Forall key_entry_ok ks ->
  length (without_key key_to_remove ks) = length ks ->
  remove_api_key mongo_id key_to_remove w
  = (Raise (HTTPException 404 "API key not found"), w).
Proof.
  intros Hf Hks Hok Hlen. unfold remove_api_key. rewrite run_bind.
  unfold find_one at 1; cbn [bson_encodable]. rewrite find_matches_truthy. cbn [docs]. rewrite Hf.
  cbn [negb from_option Datatypes.id]. rewrite run_bind. cbn [getitem]. rewrite Hks, run_ret.
  rewrite run_bind. cbn [iter]. rewrite run_ret.
  rewrite run_bind, (filter_keys_run _ _ _ Hok).
  rewrite run_bind. cbn [len]. rewrite run_ret.
  rewrite Hlen, Nat.eqb_refl. reflexivity.
Qed.

Lemma json_value_list_filter p ks :
  Forall key_entry_ok ks -> json_value (VList (List.filter p ks)).
Proof.
  intros H. constructor. apply Forall_forall. intros k Hk.
  apply list_elem_of_In, filter_In in Hk as [Hk _].
  rewrite Forall_forall in H. apply (H k), list_elem_of_In, Hk.
Qed.

Lemma remove_api_key_done mongo_id key_to_remove w doc ks :
  List.find (matches "id" (VStr mongo_id)) (db_keys w) = Some doc ->
  dict_get doc "keys" = Some (VList ks) -> Forall key_entry_ok ks ->
  length (without_key key_to_remove ks) <> length ks ->
  Forall decodable (redis_list "api_keys_list" w) ->
  let filtered_keys := without_key key_to_remove ks in
  let updated_json :=
    text_of (VDict [("id"%string, VStr mongo_id);
                    ("keys"%string, VList filtered_keys)]) in
  remove_api_key mongo_id key_to_remove w
  = (Return (VDict [("message"%string, VStr "API key removed");
                    ("removed_key"%string, VStr key_to_remove)]),
     mkWorld (db_users w)
       (update_first (matches "id" (VStr mongo_id))
          (fun d => dict_set d "keys" (VList filtered_keys)) (db_keys w))
       (<["api_keys_list"%string :=
            cache_after mongo_id updated_json (redis_list "api_keys_list" w)]>
          (redis w))
       (oid_counter w) (entropy w) (drawn w)).
Proof.
  intros Hf Hks Hok Hlen Hdec. cbv zeta. unfold remove_api_key. rewrite run_bind.
  unfold find_one at 1; cbn [bson_encodable]. rewrite find_matches_truthy. cbn [docs]. rewrite Hf.
  cbn [negb from_option Datatypes.id]. rewrite run_bind. cbn [getitem]. rewrite Hks, run_ret.
  rewrite run_bind. cbn [iter]. rewrite run_ret.
  rewrite run_bind, (filter_keys_run _ _ _ Hok).
  rewrite run_bind. cbn [len]. rewrite run_ret.
  apply Nat.eqb_neq in Hlen. rewrite Hlen.
  rewrite run_bind. unfold update_one at 1.
  rewrite run_bind, dumps_run.
  2:{ apply json_value_serialisable. constructor; [distinct_keys|].
      repeat apply List.Forall_cons; try apply List.Forall_nil; cbn [snd].
      - constructor.
      - apply (json_value_list_filter _ _ Hok). }
  rewrite (cache_tail_run _ _ _ (set_docs keys _ w) Hdec). reflexivity.
Qed.
(** *** Dictionaries *)

Lemma dict_get_set_eq d k v : dict_get (dict_set d k v) k = Some v.
Proof.
  induction d as [|[k' v'] d IH]; cbn.
  - rewrite String.eqb_refl. reflexivity.
  - destruct (String.eqb_spec k' k) as [->|Hne]; cbn.
    + rewrite String.eqb_refl. reflexivity.
    + apply String.eqb_neq in Hne. rewrite Hne. exact IH.
Qed.

Lemma dict_get_set_ne d k k' v :
  k <> k' -> dict_get (dict_set d k v) k' = dict_get d k'.
Proof.
  intros Hne. induction d as [|[k0 v0] d IH]; cbn.
  - apply String.eqb_neq in Hne. rewrite Hne. reflexivity.
  - destruct (String.eqb_spec k0 k) as [->|Hne0]; cbn.
    + apply String.eqb_neq in Hne. rewrite Hne. reflexivity.
    + destruct (String.eqb k0 k'); [reflexivity|exact IH].
Qed.

Lemma dict_get_none d k : dict_get d k = None -> ~ In k (dict_keys d).
Proof.
  induction d as [|[k' v'] d IH]; cbn; [tauto|].
  destruct (String.eqb_spec k' k) as [->|Hne]; [discriminate|].
  intros H [E|Hin]; [congruence|]. exact (IH H Hin).
Qed.

Lemma dict_set_keys_present d k v x :
  dict_get d k = Some x -> dict_keys (dict_set d k v) = dict_keys d.
Proof.
  unfold dict_keys.
  induction d as [|[k' v'] d IH]; cbn [dict_get dict_set]; [discriminate|].
  destruct (String.eqb_spec k' k) as [->|Hne]; cbn [map fst]; [reflexivity|].
  intros H. rewrite (IH H). reflexivity.
Qed.

Lemma dict_set_forall (P : string * value -> Prop) d k v :
  (forall k1 k2 x, P (k1, x) -> P (k2, x)) ->
  Forall P d -> P (k, v) -> Forall P (dict_set d k v).
Proof.
  intros Hk Hd Hv. induction d as [|[k' v'] d IH]; cbn.
  - repeat constructor. exact Hv.
  - apply Forall_cons in Hd as [Hx Hd].
    destruct (String.eqb k' k); constructor; auto. apply (Hk k). exact Hv.
Qed.

Lemma dict_set_nodup d k v :
  NoDup (dict_keys d) -> NoDup (dict_keys (dict_set d k v)).
Proof.
  intros Hnd. destruct (dict_get d k) as [x|] eqn:Hg.
  - rewrite (dict_set_keys_present d k v x Hg). exact Hnd.
  - rewrite (dict_set_fresh d k v (dict_get_none d k Hg)).
    unfold dict_keys. rewrite map_app. cbn [map fst].
    apply NoDup_app. split; [exact Hnd|]. split; [|repeat constructor; set_solver].
    intros y Hy Hin. apply list_elem_of_In in Hy.
    apply list_elem_of_singleton in Hin. subst y.
    exact (dict_get_none d k Hg Hy).
Qed.

Lemma storable_set d k v :
  storable d -> json_value v -> storable (dict_set d k v).
Proof.
  intros [Hnd Hall] Hv. split; [apply dict_set_nodup, Hnd|].
  apply dict_set_forall; auto.
Qed.

Lemma convert_object_ids_keys doc :
  dict_keys (convert_object_ids doc) = dict_keys doc.
Proof. unfold dict_keys, convert_object_ids. rewrite map_map. reflexivity. Qed.

Lemma storable_convert doc :
  storable doc -> json_value (VDict (convert_object_ids doc)).
Proof.
  intros [Hnd Hall]. constructor; [rewrite convert_object_ids_keys; exact Hnd|].
  unfold convert_object_ids. apply Forall_forall. intros kv Hkv.
  apply list_elem_of_In, in_map_iff in Hkv as ([k v] & <- & Hin).
  rewrite Forall_forall in Hall. apply list_elem_of_In in Hin.
  destruct (Hall _ Hin) as [Hv|[o Ho]]; cbn [fst snd] in *.
  - destruct Hv; constructor; assumption.
  - rewrite Ho. constructor.
Qed.

Lemma convert_object_ids_get_oid doc k o :
  dict_get doc k = Some (VObjectId o) ->
  dict_get (convert_object_ids doc) k = Some (VStr (str_of_ObjectId o)).
Proof.
  induction doc as [|[k' v'] doc IH]; cbn; [discriminate|].
  destruct (String.eqb k' k); [|exact IH]. intros [= ->]. reflexivity.
Qed.

Lemma convert_object_ids_get doc k v :
  dict_get doc k = Some v -> json_value v ->
  dict_get (convert_object_ids doc) k = Some v.
Proof.
  induction doc as [|[k' v'] doc IH]; cbn; [discriminate|].
  destruct (String.eqb k' k); [|exact IH]. intros [= ->] Hv.
  destruct Hv; reflexivity.
Qed.

Lemma key_entry_is_ok key : key_entry_ok (key_entry key).
Proof.
  split.
  - constructor; [distinct_keys|]. repeat constructor.
  - exists (VStr key). reflexivity.
Qed.

(** *** create_api_key *)

(** The caller's dictionary has [_id] last, the stored document has it
    first: with the keys sorted, the two have the same text. *)
Lemma key_set_text_order mongo_id ks doc_id :
  text_of (VDict (convert_object_ids
                    [("id"%string, VStr mongo_id); ("keys"%string, VList ks);
                     ("_id"%string, VObjectId doc_id)]))
  = text_of (VDict (convert_object_ids
                      [("_id"%string, VObjectId doc_id);
                       ("id"%string, VStr mongo_id); ("keys"%string, VList ks)])).
Proof. reflexivity. Qed.

Lemma create_api_key_invalid mongo_id w :
  ObjectId_of_str mongo_id = None ->
  create_api_key mongo_id w = (Raise InvalidId, w).
Proof. intros H. unfold create_api_key. rewrite H. reflexivity. Qed.

Lemma create_api_key_no_user mongo_id oid w :
  ObjectId_of_str mongo_id = Some oid ->
  List.find (matches "_id" (VObjectId oid)) (db_users w) = None ->
  create_api_key mongo_id w = (Raise (HTTPException 404 "User not found"), w).
Proof.
  intros Ho Hf. unfold create_api_key. rewrite Ho, run_bind.
  unfold find_one at 1; cbn [bson_encodable]. cbn [docs]. rewrite Hf. reflexivity.
Qed.

Lemma create_api_key_first mongo_id oid w u :
  ObjectId_of_str mongo_id = Some oid ->
  List.find (matches "_id" (VObjectId oid)) (db_users w) = Some u ->
  List.find (matches "id" (VStr mongo_id)) (db_keys w) = None ->
  Forall decodable (redis_list "api_keys_list" w) ->
  let new_key := drawn_key (entropy w) (drawn w) 20 in
  let doc_id := ObjectId_of_counter (oid_counter w) in
  let key_doc := stored_key_set mongo_id [new_key] doc_id in
  create_api_key mongo_id w
  = (Return (VDict [("message"%string, VStr "New API key created");
                    ("new_key"%string, VStr new_key)]),
     mkWorld (db_users w) (db_keys w ++ [key_doc])
       (<["api_keys_list"%string :=
            cache_after mongo_id (text_of (VDict (convert_object_ids key_doc)))
              (redis_list "api_keys_list" w)]> (redis w))
       (N.succ (oid_counter w)) (entropy w) (drawn w + 20)).
Proof.
  intros Ho Hu Hk Hdec. cbv zeta. unfold create_api_key. rewrite Ho, run_bind.
  unfold find_one at 1; cbn [bson_encodable]. rewrite find_matches_truthy. cbn [docs]. rewrite Hu.
  cbn [negb]. rewrite run_bind, generate_api_key_run.
  rewrite run_bind. unfold find_one at 1; cbn [bson_encodable]. rewrite find_matches_truthy.
  cbn [docs with_drawn db_keys]. rewrite Hk. cbn [negb].
  rewrite run_bind, run_bind, insert_one_run by reflexivity. rewrite run_ret.
  cbn [fst snd dict_set String.eqb Ascii.eqb Bool.eqb andb].
  rewrite cache_tail_dumps_run; [|exact Hdec|reflexivity].
  rewrite key_set_text_order. reflexivity.
Qed.

Lemma create_api_key_next mongo_id oid w u doc ks :
  ObjectId_of_str mongo_id = Some oid ->
  List.find (matches "_id" (VObjectId oid)) (db_users w) = Some u ->
  List.find (matches "id" (VStr mongo_id)) (db_keys w) = Some doc ->
  storable doc -> dict_get doc "keys" = Some (VList ks) -> Forall key_entry_ok ks ->
  Forall decodable (redis_list "api_keys_list" w) ->
  let new_key := drawn_key (entropy w) (drawn w) 20 in
  let new_keys := VList (ks ++ [key_entry new_key]) in
  create_api_key mongo_id w
  = (Return (VDict [("message"%string, VStr "New API key created");
                    ("new_key"%string, VStr new_key)]),
     mkWorld (db_users w)
       (update_first (matches "id" (VStr mongo_id))
          (fun d => dict_set d "keys" new_keys) (db_keys w))
       (<["api_keys_list"%string :=
            cache_after mongo_id
              (text_of (VDict (convert_object_ids (dict_set doc "keys" new_keys))))
              (redis_list "api_keys_list" w)]> (redis w))
       (oid_counter w) (entropy w) (drawn w + 20)).
Proof.
  intros Ho Hu Hk Hst Hks Hok Hdec. cbv zeta. unfold create_api_key.
  rewrite Ho, run_bind.
  unfold find_one at 1; cbn [bson_encodable]. rewrite find_matches_truthy. cbn [docs]. rewrite Hu.
  cbn [negb]. rewrite run_bind, generate_api_key_run.
  rewrite run_bind. unfold find_one at 1; cbn [bson_encodable]. rewrite find_matches_truthy.
  cbn [docs with_drawn db_keys]. rewrite Hk. cbn [negb from_option Datatypes.id].
  rewrite run_bind, run_bind. cbn [getitem]. rewrite Hks, run_ret.
  rewrite run_bind. cbn [append]. rewrite run_ret.
  rewrite run_bind. unfold update_one at 1. rewrite run_ret.
  rewrite cache_tail_dumps_run; [reflexivity|exact Hdec|].
  apply json_value_serialisable, storable_convert, storable_set; [exact Hst|].
  constructor. apply Forall_app. split.
  - eapply Forall_impl; [exact Hok|]. intros k [Hk' _]. exact Hk'.
  - apply List.Forall_cons; [apply key_entry_is_ok|apply List.Forall_nil].
Qed.

End handlers.

(** ** The properties of the specification *)

Section properties.

(** C6.  Decoding the cache text of a document gives a value equal to the
    document, where equality of dictionaries ignores the order of the
    keys; and two equal documents have character-identical texts, the keys
    being sorted during encoding. *)
Theorem json_round_trip (doc1 doc2 : dict) :
  json_value (VDict doc1) -> json_value (VDict doc2) ->
  (exists text decoded,
      json_dumps (VDict doc1) = Some text /\
      json_loads text = Some decoded /\
      value_eqb decoded (VDict doc1) = true) /\
  (value_eqb (VDict doc1) (VDict doc2) = true ->
   json_dumps (VDict doc1) = json_dumps (VDict doc2)).
Proof.
  intros H1 H2. split.
  - destruct (loads_dumps _ H1) as (text & Hd & Hl).
    exists text, (canon (VDict doc1)). repeat split; auto. apply canon_eqb, H1.
  - intros E. unfold json_dumps.
    rewrite (json_value_serialisable _ H1), (json_value_serialisable _ H2).
    rewrite (value_eqb_encode _ _ H1 H2 E). reflexivity.
Qed.

(** C5.  Over a cache list whose entries decode to dictionaries, both
    reading handlers return the decoded form of the first entry whose
    ["id"] equals the requested value, and fail with 404 when there is
    none; the stores are not touched. *)
Theorem cache_reads_first_match (mongo_id : string) (user_id : Z) (w : world) :
  Forall decodable (redis_list "api_keys_list" w) ->
  Forall decodable (redis_list "users_list" w) ->
  (forall e,
      List.find (entry_has_id (VStr mongo_id)) (redis_list "api_keys_list" w) = Some e ->
      exists d, json_loads e = Some (VDict d) /\
                list_api_keys mongo_id w = (Return (VDict d), w)) /\
  (List.find (entry_has_id (VStr mongo_id)) (redis_list "api_keys_list" w) = None ->
   list_api_keys mongo_id w
   = (Raise (HTTPException 404 "API keys not found in Redis"), w)) /\
  (forall e,
      List.find (entry_has_id (VInt user_id)) (redis_list "users_list" w) = Some e ->
      exists d, json_loads e = Some (VDict d) /\
                get_user user_id w = (Return (VDict d), w)) /\
  (List.find (entry_has_id (VInt user_id)) (redis_list "users_list" w) = None ->
   get_user user_id w = (Raise (HTTPException 404 "User not found in Redis"), w)).
Proof.
  intros Ha Hu. unfold list_api_keys, get_user.
  repeat split.
  - intros e He. rewrite run_bind. unfold lrange at 1.
    rewrite (first_entry_run _ _ _ _ Ha), He.
    apply find_some in He as [Hin _]. rewrite Forall_forall in Ha.
    destruct (Ha e (proj2 (list_elem_of_In _ _) Hin)) as [d Hd].
    exists d. rewrite Hd. split; reflexivity.
  - intros He. rewrite run_bind. unfold lrange at 1.
    rewrite (first_entry_run _ _ _ _ Ha), He. reflexivity.
  - intros e He. rewrite run_bind. unfold lrange at 1.
    rewrite (first_entry_run _ _ _ _ Hu), He.
    apply find_some in He as [Hin _]. rewrite Forall_forall in Hu.
    destruct (Hu e (proj2 (list_elem_of_In _ _) Hin)) as [d Hd].
    exists d. rewrite Hd. split; reflexivity.
  - intros He. rewrite run_bind. unfold lrange at 1.
    rewrite (first_entry_run _ _ _ _ Hu), He. reflexivity.
Qed.

(** C2, amended.  When the id fits in a signed 64-bit integer and no user
    has it yet, [create_user] stores the user document, takes its storage
    id, draws one key of 20 characters of the alphabet, stores a key set
    for that storage id holding that one key with status "valid", and
    returns the user with the storage id attached together with the key.
    The record store writes ["_id"] first in the documents it keeps; the
    dictionary returned to the caller has it last. *)
Theorem create_user_creates (user : User) (w : world) :
  int64 (id user) = true ->
  List.find (matches "id" (VInt (id user))) (db_users w) = None ->
  exists storage_id api_key doc_id w',
    create_user user w
    = (Return (VDict [("message"%string, VStr "User created");
                      ("user"%string,
                       VDict (User_dict user ++ [("_id"%string, VStr storage_id)]));
                      ("api_key"%string, VStr api_key)]), w') /\
    String.length api_key = 20%nat /\
    Forall (fun c => In c (list_ascii_of_string chars))
      (list_ascii_of_string api_key) /\
    drawn w' = (drawn w + 20)%nat /\
    db_users w'
    = db_users w ++ [("_id"%string, VObjectId (mkObjectId storage_id))
                       :: User_dict user] /\
    db_keys w'
    = db_keys w ++ [[("_id"%string, VObjectId doc_id);
                     ("id"%string, VStr storage_id);
                     ("keys"%string,
                      VList [VDict [("key"%string, VStr api_key);
                                    ("status"%string, VStr "valid")]])]].
Proof.
  intros Hr Hf. pose proof (create_user_new user w Hr Hf) as H. cbv zeta in H.
  exists (str_of_ObjectId (ObjectId_of_counter (oid_counter w))),
    (drawn_key (entropy w) (drawn w) 20),
    (ObjectId_of_counter (N.succ (oid_counter w))).
  eexists. split; [exact H|].
  split; [apply drawn_key_length|]. split.
  { unfold drawn_key. rewrite list_ascii_of_string_of_list_ascii.
    apply drawn_chars_alphabet. }
  cbn [drawn db_users db_keys]. split; [reflexivity|].
  split; reflexivity.
Qed.

(** C2 as stated fails: on empty stores no user has the id [2 ^ 63], which
    the request model accepts, yet [create_user] inserts nothing and
    returns nothing; the lookup raises the driver's [OverflowError]. *)
Lemma create_user_wide_id_overflows :
  let w := empty_world sample_entropy in
  List.find (matches "id" (VInt (id wide_user))) (db_users w) = None /\
  fst (create_user wide_user w) = Raise OverflowError /\
  db_users (snd (create_user wide_user w)) = [] /\
  db_keys (snd (create_user wide_user w)) = [].
Proof. vm_compute. repeat split. Qed.

(** C3, amended.  [create_user] fails with 400 exactly when the id fits in
    a signed 64-bit integer and a user with the same id is stored, and then
    writes nothing; so, for such an id, a second creation with the same id
    fails and the store keeps the one user document and the one key set
    the first creation added. *)
Theorem create_user_conflict_iff (user : User) (w : world) :
  ((exists detail, fst (create_user user w) = Raise (HTTPException 400 detail))
   <-> int64 (id user) = true /\
       Exists (fun doc => matches "id" (VInt (id user)) doc = true) (db_users w)) /\
  (forall detail,
      fst (create_user user w) = Raise (HTTPException 400 detail) ->
      snd (create_user user w) = w) /\
  (int64 (id user) = true ->
   List.find (matches "id" (VInt (id user))) (db_users w) = None ->
   let w1 := snd (create_user user w) in
   let w2 := snd (create_user user w1) in
   let storage_id := str_of_ObjectId (ObjectId_of_counter (oid_counter w)) in
   fst (create_user user w1)
   = Raise (HTTPException 400 "User ID already exists") /\
   w2 = w1 /\
   length (db_users w2) = S (length (db_users w)) /\
   length (db_keys w2) = S (length (db_keys w)) /\
   length (List.filter (matches "id" (VInt (id user))) (db_users w2)) = 1%nat /\
   length (List.filter (matches "id" (VStr storage_id)) (db_keys w2))
   = S (length (List.filter (matches "id" (VStr storage_id)) (db_keys w)))).
Proof.
  destruct (int64 (id user)) eqn:Hr; cycle 1.
  { rewrite (create_user_overflow user w Hr). cbn [fst snd].
    split; [|split; [reflexivity|discriminate]].
    split; [intros [? [=]]|intros [[=] _]]. }
  destruct (List.find (matches "id" (VInt (id user))) (db_users w)) as [doc|] eqn:Hf.
  - rewrite (create_user_conflict user w doc Hr Hf). cbn [fst snd].
    split; [|split; [reflexivity|discriminate]].
    split; [intros _; split; [reflexivity|]|eauto].
    apply find_some in Hf as [Hin Hm]. apply Exists_exists.
    exists doc. split; [apply list_elem_of_In, Hin|exact Hm].
  - pose proof (create_user_new user w Hr Hf) as H. cbv zeta in H.
    split; [|split].
    + rewrite H. cbn [fst]. split; [intros [? [=]]|].
      intros [_ Hex]. apply Exists_exists in Hex as (doc & Hin & Hm).
      apply list_elem_of_In in Hin.
      pose proof (find_none _ _ Hf doc Hin). congruence.
    + rewrite H. cbn [fst]. discriminate.
    + intros _ _. cbv zeta. rewrite H. cbn [snd].
      set (w1 := mkWorld _ _ _ _ _ _).
      assert (Hm : matches "id" (VInt (id user))
                     (("_id"%string,
                       VObjectId (ObjectId_of_counter (oid_counter w)))
                        :: User_dict user) = true).
      { unfold matches. cbn. apply Z.eqb_refl. }
      assert (Hnone : List.filter (matches "id" (VInt (id user))) (db_users w) = []).
      { clear -Hf. induction (db_users w) as [|d l IH]; [reflexivity|].
        cbn in Hf |- *. destruct (matches "id" (VInt (id user)) d); [discriminate|].
        apply IH, Hf. }
      assert (Hf1 : exists doc, List.find (matches "id" (VInt (id user))) (db_users w1)
                                = Some doc).
      { destruct (List.find (matches "id" (VInt (id user))) (db_users w1)) eqn:E;
          [eauto|]. exfalso.
        pose proof (find_none _ _ E (("_id"%string,
                          VObjectId (ObjectId_of_counter (oid_counter w)))
                                       :: User_dict user)) as Hn.
        rewrite Hm in Hn. discriminate Hn. unfold w1. cbn [db_users].
        apply in_or_app. right. left. reflexivity. }
      destruct Hf1 as [doc1 Hf1].
      rewrite (create_user_conflict user w1 doc1 Hr Hf1). cbn [fst snd].
      unfold w1. cbn [db_users db_keys]. clear H w1 Hf1.
      match goal with
      | |- context [db_keys w ++ [?kd]] =>
          assert (Hk : matches "id"
                         (VStr (str_of_ObjectId (ObjectId_of_counter (oid_counter w))))
                         kd = true)
            by (generalize (str_of_ObjectId (ObjectId_of_counter (oid_counter w)));
                intros s; unfold matches; cbn; apply String.eqb_refl)
      end.
      rewrite !length_app, !List.filter_app, !length_app, Hnone.
      cbn [List.filter length]. rewrite Hm, Hk. cbn [length].
      repeat split; lia.
Qed.

(** C3 as stated fails: a user with the id [2 ^ 63] created twice on empty
    stores does not fail with 400 the second time, and the store holds no
    user document and no key set afterwards; both creations end in the
    driver's [OverflowError]. *)
Lemma create_user_twice_wide_id :
  let w := empty_world sample_entropy in
  let w1 := snd (create_user wide_user w) in
  let w2 := snd (create_user wide_user w1) in
  fst (create_user wide_user w) = Raise OverflowError /\
  fst (create_user wide_user w1) = Raise OverflowError /\
  (forall detail,
      fst (create_user wide_user w1) <> Raise (HTTPException 400 detail)) /\
  length (db_users w2) = 0%nat /\ length (db_keys w2) = 0%nat.
Proof.
  vm_compute. repeat split. intros detail. discriminate.
Qed.

(** C7, at a storage id that is not the text of an [ObjectId]: no user has
    it, yet the handler does not answer 404; [ObjectId(mongo_id)] raises
    [InvalidId] before the lookup. *)
Theorem create_api_key_malformed_id (w : world) :
  create_api_key "abc" w = (Raise InvalidId, w) /\
  (forall detail,
      fst (create_api_key "abc" w) <> Raise (HTTPException 404 detail)) /\
  fst (remove_api_key "abc" "k" (empty_world (fun _ => O)))
  = Raise (HTTPException 404 "API key document not found").
Proof.
  split; [reflexivity|]. split; [|reflexivity].
  intros detail. cbn. discriminate.
Qed.

(** *** Counting cache entries *)

Lemma decodable_all l : forallb decodableb l = true -> Forall decodable l.
Proof.
  intros H. apply Forall_forall. intros e He.
  rewrite forallb_forall in H. apply list_elem_of_In in He. specialize (H e He).
  unfold decodableb in H. unfold decodable.
  destruct (json_loads e) as [[| | |d|]|]; try discriminate H. eauto.
Qed.

Lemma lrem_all e l :
  lrem_list 0 e l = List.filter (fun x => negb (String.eqb x e)) l.
Proof. reflexivity. Qed.

Lemma count_id_app v l1 l2 :
  count_id v (l1 ++ l2) = (count_id v l1 + count_id v l2)%nat.
Proof. unfold count_id. rewrite List.filter_app, length_app. reflexivity. Qed.

Lemma count_id_single v e :
  count_id v [e] = if entry_has_id v e then 1%nat else 0%nat.
Proof. unfold count_id. cbn. destruct (entry_has_id v e); reflexivity. Qed.

Lemma count_id_lrem v e l :
  entry_has_id v e = true ->
  (count_id v (lrem_list 0 e l) + copies e l = count_id v l)%nat.
Proof.
  intros He. rewrite lrem_all. unfold count_id, copies.
  induction l as [|x l IH]; [reflexivity|]. cbn [List.filter].
  rewrite (String.eqb_sym e x).
  destruct (String.eqb_spec x e) as [->|Hne]; cbn [negb List.filter].
  - rewrite He. cbn [length]. lia.
  - destruct (entry_has_id v x); cbn [length List.filter]; lia.
Qed.

Lemma copies_found v e l :
  List.find (entry_has_id v) l = Some e -> (1 <= copies e l)%nat.
Proof.
  intros H. apply find_some in H as [Hin _]. unfold copies.
  induction l as [|x l IH]; [destruct Hin|]. cbn [List.filter].
  destruct (String.eqb_spec e x) as [->|Hne]; cbn [length]; [lia|].
  destruct Hin as [->|Hin]; [congruence|auto].
Qed.

Lemma count_id_none v l :
  List.find (entry_has_id v) l = None -> count_id v l = 0%nat.
Proof.
  unfold count_id. induction l as [|x l IH]; [reflexivity|]. cbn.
  destruct (entry_has_id v x); [discriminate|exact IH].
Qed.

Lemma update_api_keys_cache_list mongo_id updated_json w :
  Forall decodable (redis_list "api_keys_list" w) ->
  redis_list "api_keys_list" (snd (update_api_keys_cache mongo_id updated_json w))
  = cache_after mongo_id updated_json (redis_list "api_keys_list" w).
Proof.
  intros H. rewrite (update_api_keys_cache_run _ _ _ H). cbn [snd].
  apply redis_list_insert_eq.
Qed.

(** C10, amended.  The cache update maps a list with [n] entries of the
    identifier to a list with [n - m + 1] of them, where [m >= 1] counts
    the exact copies of the first such entry, and to a list with one when
    there was none: the number is kept only when that first entry has no
    duplicate text, and drops otherwise. *)
Theorem cache_update_count (mongo_id updated_json : string) (w : world) :
  Forall decodable (redis_list "api_keys_list" w) ->
  entry_has_id (VStr mongo_id) updated_json = true ->
  let entries := redis_list "api_keys_list" w in
  let entries' :=
    redis_list "api_keys_list"
      (snd (update_api_keys_cache mongo_id updated_json w)) in
  let n := count_id (VStr mongo_id) entries in
  let n' := count_id (VStr mongo_id) entries' in
  match List.find (entry_has_id (VStr mongo_id)) entries with
  | Some e =>
      (1 <= copies e entries <= n)%nat /\ (n' + copies e entries = n + 1)%nat
  | None => n = 0%nat /\ n' = 1%nat
  end.
Proof.
  intros Hdec Hnew. cbv zeta.
  rewrite (update_api_keys_cache_list _ _ _ Hdec). unfold cache_after.
  destruct (List.find (entry_has_id (VStr mongo_id))
              (redis_list "api_keys_list" w)) as [e|] eqn:Hf.
  - pose proof (copies_found _ _ _ Hf) as Hc.
    apply find_some in Hf as [_ He].
    pose proof (count_id_lrem _ _ (redis_list "api_keys_list" w) He) as Hl.
    rewrite count_id_app, count_id_single, Hnew. lia.
  - rewrite count_id_app, count_id_single, Hnew, (count_id_none _ _ Hf). lia.
Qed.

(** C10 as stated fails: with two entries of the identifier that are the
    same text, the update leaves one entry, not two. *)
Lemma cache_update_count_drops :
  let entries := redis_list "api_keys_list" duplicated_cache_world in
  let entries' :=
    redis_list "api_keys_list"
      (snd (update_api_keys_cache "u1" (text_of (VDict sample_key_doc))
              duplicated_cache_world)) in
  count_id (VStr "u1") entries = 2%nat /\
  count_id (VStr "u1") entries' = 1%nat /\
  count_id (VStr "u1") entries' <> count_id (VStr "u1") entries.
Proof. vm_compute. repeat split. discriminate. Qed.

(** *** The cache update as the handlers perform it *)

Lemma find_app_first {A} (p : A -> bool) l1 l2 :
  List.find p (l1 ++ l2)
  = match List.find p l1 with Some x => Some x | None => List.find p l2 end.
Proof.
  induction l1 as [|x l1 IH]; cbn; [reflexivity|]. destruct (p x); auto.
Qed.

Lemma find_update_first (p : dict -> bool) f l d :
  List.find p l = Some d -> p (f d) = true ->
  List.find p (update_first p f l) = Some (f d).
Proof.
  induction l as [|x l IH]; cbn; [discriminate|]. intros Hf Hp.
  destruct (p x) eqn:Hx.
  - injection Hf as ->. cbn. rewrite Hp. reflexivity.
  - cbn. rewrite Hx. apply IH; assumption.
Qed.

Lemma matches_set_other field v d k x :
  k <> field -> matches field v (dict_set d k x) = matches field v d.
Proof. intros H. unfold matches. rewrite dict_get_set_ne by exact H. reflexivity. Qed.

(** The stored key set of an id after [update_one] has set its keys. *)
Lemma find_after_set_keys mongo_id doc new_keys l :
  List.find (matches "id" (VStr mongo_id)) l = Some doc ->
  List.find (matches "id" (VStr mongo_id))
    (update_first (matches "id" (VStr mongo_id))
       (fun d => dict_set d "keys" new_keys) l)
  = Some (dict_set doc "keys" new_keys).
Proof.
  intros Hf.
  apply (find_update_first _ (fun d => dict_set d "keys" new_keys) _ doc Hf).
  rewrite matches_set_other by discriminate.
  apply find_some in Hf as [_ Hm]. exact Hm.
Qed.

Lemma cache_tail_dumps_inv {A} mongo_id v (k : M A) w r w' :
  Forall decodable (redis_list "api_keys_list" w) ->
  (old_entries ← lrange "api_keys_list";
   remove_old_entry mongo_id old_entries;;
   updated_json ← dumps v;
   rpush "api_keys_list" updated_json;;
   k) w = (Return r, w') ->
  serialisable v = true /\
  k (set_redis (<["api_keys_list"%string :=
                    cache_after mongo_id (text_of v)
                      (redis_list "api_keys_list" w)]> (redis w)) w)
  = (Return r, w').
Proof.
  intros Hdec H. destruct (serialisable v) eqn:Hs.
  - rewrite (cache_tail_dumps_run _ _ _ _ Hdec Hs) in H. split; [reflexivity|exact H].
  - exfalso. rewrite run_bind in H. unfold lrange at 1 in H.
    rewrite run_bind, (remove_old_entry_run _ _ _ Hdec), run_bind in H.
    unfold dumps, json_dumps in H. rewrite Hs in H. discriminate H.
Qed.

Lemma cache_list_after mongo_id updated_json r w l l' :
  l = l' ->
  redis_list "api_keys_list"
    (set_redis (<["api_keys_list"%string :=
                    cache_after mongo_id updated_json l]> r) w)
  = cache_after mongo_id updated_json l'.
Proof.
  intros <-. unfold redis_list, set_redis. cbn [redis].
  rewrite lookup_insert_eq. reflexivity.
Qed.

Lemma filter_keys_pure key_to_remove ks w :
  snd (filter_keys key_to_remove ks w) = w.
Proof.
  induction ks as [|k ks IH]; [reflexivity|]. cbn [filter_keys].
  rewrite run_bind. destruct k as [n|s|l|d|o]; cbn [getitem]; try reflexivity.
  destruct (dict_get d "key"); [|reflexivity]. rewrite run_ret, run_bind.
  destruct (filter_keys key_to_remove ks w) as [[kept|e] w1]; cbn [snd] in *;
    subst; reflexivity.
Qed.

(** What [create_api_key] pushes is the text of the key set as the store
    holds it after the write, its [ObjectId] converted. *)
Lemma create_api_key_cache mongo_id w r w' :
  Forall decodable (redis_list "api_keys_list" w) ->
  create_api_key mongo_id w = (Return r, w') ->
  exists stored updated_json,
    List.find (matches "id" (VStr mongo_id)) (db_keys w') = Some stored /\
    json_dumps (VDict (convert_object_ids stored)) = Some updated_json /\
    redis_list "api_keys_list" w'
    = cache_after mongo_id updated_json (redis_list "api_keys_list" w).
Proof.
  intros Hdec H. unfold create_api_key in H.
  destruct (ObjectId_of_str mongo_id) as [oid|]; [|discriminate H].
  rewrite run_bind in H. unfold find_one at 1 in H; cbn [bson_encodable] in H.
  destruct (truthy _); cbn [negb] in H; [|discriminate H].
  rewrite run_bind, generate_api_key_run, run_bind in H.
  unfold find_one at 1 in H; cbn [bson_encodable] in H.
  rewrite find_matches_truthy in H. cbn [docs with_drawn db_keys] in H.
  destruct (List.find (matches "id" (VStr mongo_id)) (db_keys w))
    as [key_doc|] eqn:Hk; cbn [negb from_option Datatypes.id] in H.
  - rewrite run_bind, run_bind in H. cbn [getitem] in H.
    destruct (dict_get key_doc "keys") as [old_keys|]; [|discriminate H].
    rewrite run_ret, run_bind in H.
    destruct old_keys as [n|s|l|d|o]; cbn [append] in H; try discriminate H.
    rewrite run_ret, run_bind in H. unfold update_one at 1 in H.
    rewrite run_ret in H.
    apply cache_tail_dumps_inv in H as [Hs H]; [|exact Hdec].
    injection H as _ <-. eexists _, _. split; [|split].
    + cbn [db_keys set_docs docs with_drawn set_redis].
      apply find_after_set_keys, Hk.
    + unfold json_dumps. rewrite Hs. reflexivity.
    + apply cache_list_after. reflexivity.
  - rewrite run_bind, run_bind, insert_one_run in H by reflexivity.
    rewrite run_ret in H. cbn [snd] in H.
    apply cache_tail_dumps_inv in H as [Hs H]; [|exact Hdec].
    injection H as _ <-.
    set (stored := [("_id"%string, VObjectId (ObjectId_of_counter (oid_counter w)));
                    ("id"%string, VStr mongo_id);
                    ("keys"%string,
                     VList [key_entry (drawn_key (entropy w) (drawn w) 20)])]).
    exists stored, (text_of (VDict (convert_object_ids stored))).
    split; [|split].
    + cbn [db_keys set_docs docs with_drawn with_counter set_redis].
      rewrite find_app_first, Hk. cbn [List.find]. unfold matches at 1, stored.
      cbn [dict_get String.eqb Ascii.eqb Bool.eqb opt_eqb value_eqb].
      rewrite String.eqb_refl. reflexivity.
    + reflexivity.
    + unfold stored. rewrite <- key_set_text_order.
      apply cache_list_after. reflexivity.
Qed.

(** What [remove_api_key] pushes is the text of the storage id with the
    key list the store holds after the write. *)
Lemma remove_api_key_cache mongo_id key_to_remove w r w' :
  Forall decodable (redis_list "api_keys_list" w) ->
  remove_api_key mongo_id key_to_remove w = (Return r, w') ->
  exists stored kept updated_json,
    List.find (matches "id" (VStr mongo_id)) (db_keys w') = Some stored /\
    dict_get stored "keys" = Some (VList kept) /\
    json_dumps (VDict [("id"%string, VStr mongo_id);
                       ("keys"%string, VList kept)]) = Some updated_json /\
    redis_list "api_keys_list" w'
    = cache_after mongo_id updated_json (redis_list "api_keys_list" w).
Proof.
  intros Hdec H. unfold remove_api_key in H. rewrite run_bind in H.
  unfold find_one at 1 in H; cbn [bson_encodable] in H.
  rewrite find_matches_truthy in H. cbn [docs] in H.
  destruct (List.find (matches "id" (VStr mongo_id)) (db_keys w))
    as [key_doc|] eqn:Hk; cbn [negb from_option Datatypes.id] in H;
    [|discriminate H].
  rewrite run_bind in H. cbn [getitem] in H.
  destruct (dict_get key_doc "keys") as [all_keys|]; [|discriminate H].
  rewrite run_ret, run_bind in H.
  destruct (iter all_keys w) as [[visited|e] w1] eqn:Hi; [|discriminate H].
  assert (w1 = w) as ->.
  { destruct all_keys; cbn [iter] in Hi; unfold mret, M_ret, raise in Hi;
      congruence. }
  rewrite run_bind in H.
  pose proof (filter_keys_pure key_to_remove visited w) as Hp.
  destruct (filter_keys key_to_remove visited w) as [[kept|e] w2];
    [|discriminate H].
  cbn [snd] in Hp. subst w2. rewrite run_bind in H.
  destruct (len all_keys w) as [[n|e] w3] eqn:Hl; [|discriminate H].
  assert (w3 = w) as ->.
  { destruct all_keys; cbn [len] in Hl; unfold mret, M_ret, raise in Hl;
      congruence. }
  destruct (Nat.eqb (length kept) n); [discriminate H|].
  rewrite run_bind in H. unfold update_one at 1 in H.
  rewrite run_bind in H. unfold dumps at 1 in H.
  destruct (json_dumps _) as [updated_json|] eqn:Hj in H; [|discriminate H].
  rewrite run_ret in H.
  rewrite (cache_tail_run _ _ _ (set_docs keys _ w) Hdec) in H.
  injection H as _ <-.
  exists (dict_set key_doc "keys" (VList kept)), kept, updated_json.
  split; [|split; [|split]].
  - cbn [db_keys set_docs docs set_redis]. apply find_after_set_keys, Hk.
  - apply dict_get_set_eq.
  - exact Hj.
  - apply cache_list_after. reflexivity.
Qed.

(** C4, amended.  After a key-set mutation the handlers scan the cache
    list once from the head, stop at the first entry whose decoded ["id"]
    is the storage id, remove every entry that is exactly the same text
    as that one (LREM with count 0), and append the new text whether or
    not such an entry was found.  The new text is the serialisation of the
    updated document: in [create_api_key], of the key set the store holds
    after the write, its [ObjectId] converted; in [remove_api_key], of the
    storage id with the key list the store holds after the write. *)
Theorem cache_update_after_mutation
    (mongo_id key_to_remove : string) (w : world) :
  Forall decodable (redis_list "api_keys_list" w) ->
  let entries := redis_list "api_keys_list" w in
  (forall r w',
      create_api_key mongo_id w = (Return r, w') ->
      exists stored updated_json,
        List.find (matches "id" (VStr mongo_id)) (db_keys w') = Some stored /\
        json_dumps (VDict (convert_object_ids stored)) = Some updated_json /\
        redis_list "api_keys_list" w' = cache_after mongo_id updated_json entries) /\
  (forall r w',
      remove_api_key mongo_id key_to_remove w = (Return r, w') ->
      exists stored kept updated_json,
        List.find (matches "id" (VStr mongo_id)) (db_keys w') = Some stored /\
        dict_get stored "keys" = Some (VList kept) /\
        json_dumps (VDict [("id"%string, VStr mongo_id);
                           ("keys"%string, VList kept)]) = Some updated_json /\
        redis_list "api_keys_list" w' = cache_after mongo_id updated_json entries) /\
  (forall updated_json,
      update_api_keys_cache mongo_id updated_json w
      = (Return tt,
         set_redis (<["api_keys_list"%string :=
                        cache_after mongo_id updated_json entries]> (redis w)) w)) /\
  (forall updated_json e,
      List.find (entry_has_id (VStr mongo_id)) entries = Some e ->
      cache_after mongo_id updated_json entries
      = List.filter (fun x => negb (String.eqb x e)) entries ++ [updated_json]) /\
  (forall updated_json,
      List.find (entry_has_id (VStr mongo_id)) entries = None ->
      cache_after mongo_id updated_json entries = entries ++ [updated_json]).
Proof.
  intros Hdec. cbv zeta. repeat split.
  - intros r w'. apply create_api_key_cache, Hdec.
  - intros r w'. apply remove_api_key_cache, Hdec.
  - intros j. apply update_api_keys_cache_run, Hdec.
  - intros j e He. unfold cache_after. rewrite He. reflexivity.
  - intros j He. unfold cache_after. rewrite He. reflexivity.
Qed.

(** C4 as stated fails: [remove_api_key] on a cache holding the text of
    the key set twice removes both copies, where removing the single
    first matching entry would leave the second one. *)
Lemma cache_update_removes_every_copy :
  let w' := snd (remove_api_key "u1" "k1" duplicated_cache_world) in
  let updated_json :=
    text_of (VDict [("id"%string, VStr "u1");
                    ("keys"%string, VList [key_entry "k2"])]) in
  fst (remove_api_key "u1" "k1" duplicated_cache_world)
  = Return (VDict [("message"%string, VStr "API key removed");
                   ("removed_key"%string, VStr "k1")]) /\
  redis_list "api_keys_list" w' = [updated_json] /\
  spec_removeByIdThenAppend "u1" updated_json
    (redis_list "api_keys_list" duplicated_cache_world)
  = [text_of (VDict sample_key_doc); updated_json] /\
  redis_list "api_keys_list" w'
  <> spec_removeByIdThenAppend "u1" updated_json
       (redis_list "api_keys_list" duplicated_cache_world).
Proof. vm_compute. repeat split. discriminate. Qed.

(** *** Reading back what a handler pushed *)

Lemma dict_get_absent d k : ~ In k (dict_keys d) -> dict_get d k = None.
Proof.
  induction d as [|[k' v'] d IH]; cbn; [reflexivity|]. intros H.
  destruct (String.eqb_spec k' k) as [->|_]; [tauto|]. apply IH. tauto.
Qed.

Lemma dict_get_perm d d' k :
  NoDup (dict_keys d) -> d ≡ₚ d' -> dict_get d k = dict_get d' k.
Proof.
  intros Hnd Hp.
  assert (Hnd' : NoDup (dict_keys d')).
  { unfold dict_keys in *. rewrite <- (Permutation_map fst Hp). exact Hnd. }
  destruct (dict_get d k) as [v|] eqn:Hg.
  - symmetry. apply dict_get_in; [exact Hnd'|].
    apply list_elem_of_In. rewrite <- Hp. apply list_elem_of_In, dict_get_some, Hg.
  - symmetry. apply dict_get_absent. intros Hin. apply (dict_get_none d k Hg).
    unfold dict_keys in *. apply list_elem_of_In.
    rewrite (Permutation_map fst Hp). apply list_elem_of_In, Hin.
Qed.

Lemma dict_get_map (g : value -> value) d k :
  dict_get (map (fun kv => (fst kv, g (snd kv))) d) k = option_map g (dict_get d k).
Proof.
  induction d as [|[k' v'] d IH]; cbn; [reflexivity|].
  destruct (String.eqb k' k); [reflexivity|exact IH].
Qed.

Lemma canon_dict_get d k :
  NoDup (dict_keys d) ->
  exists d', canon (VDict d) = VDict d' /\
             dict_get d' k = option_map canon (dict_get d k).
Proof.
  intros Hnd. rewrite (canon_dict d Hnd). eexists. split; [reflexivity|].
  rewrite dict_get_map. f_equal. apply dict_get_perm.
  - apply sort_items_keys, Hnd.
  - apply sort_items_perm.
Qed.

Lemma loads_text_of_dict d :
  json_value (VDict d) ->
  exists d', json_loads (text_of (VDict d)) = Some (VDict d') /\
             canon (VDict d) = VDict d' /\
             forall k, dict_get d' k = option_map canon (dict_get d k).
Proof.
  intros Hv. inversion Hv as [| | |? Hnd Hd]; subst.
  rewrite (loads_text_of _ Hv), (canon_dict d Hnd). eexists. split; [reflexivity|].
  split; [reflexivity|]. intros k.
  rewrite dict_get_map. f_equal. apply dict_get_perm.
  - apply sort_items_keys, Hnd.
  - apply sort_items_perm.
Qed.

Lemma text_of_decodable d : json_value (VDict d) -> decodable (text_of (VDict d)).
Proof. intros Hv. destruct (loads_text_of_dict d Hv) as (d' & H & _). exists d'. exact H. Qed.

Lemma entry_has_id_text wanted d x :
  json_value (VDict d) -> dict_get d "id" = Some x ->
  entry_has_id wanted (text_of (VDict d)) = value_eqb (canon x) wanted.
Proof.
  intros Hv Hx. destruct (loads_text_of_dict d Hv) as (d' & Hl & _ & Hg).
  unfold entry_has_id. rewrite Hl, Hg, Hx. reflexivity.
Qed.

Lemma count_id_zero v l : count_id v l = 0%nat -> List.find (entry_has_id v) l = None.
Proof.
  unfold count_id. induction l as [|x l IH]; cbn; [reflexivity|].
  destruct (entry_has_id v x); cbn; [discriminate|exact IH].
Qed.

(** With at most one entry of the identifier before, the entry the update
    appends is the one a reader finds. *)
Lemma find_cache_after mongo_id updated_json l :
  (count_id (VStr mongo_id) l <= 1)%nat ->
  entry_has_id (VStr mongo_id) updated_json = true ->
  List.find (entry_has_id (VStr mongo_id)) (cache_after mongo_id updated_json l)
  = Some updated_json.
Proof.
  intros Hc Hj. unfold cache_after. rewrite find_app_first.
  destruct (List.find (entry_has_id (VStr mongo_id)) l) as [e|] eqn:Hf.
  - pose proof (copies_found _ _ _ Hf) as Hcp.
    apply find_some in Hf as [_ He].
    pose proof (count_id_lrem _ _ l He) as Hl.
    rewrite (count_id_zero _ (lrem_list 0 e l)) by lia.
    cbn. rewrite Hj. reflexivity.
  - rewrite Hf. cbn. rewrite Hj. reflexivity.
Qed.

Lemma cache_after_decodable mongo_id updated_json l :
  Forall decodable l -> decodable updated_json ->
  Forall decodable (cache_after mongo_id updated_json l).
Proof.
  intros Hl Hj. unfold cache_after. apply Forall_app. split; [|repeat constructor; exact Hj].
  destruct (List.find _ l); [|exact Hl]. rewrite lrem_all.
  apply Forall_forall. intros x Hx. apply list_elem_of_In, filter_In in Hx as [Hx _].
  rewrite Forall_forall in Hl. apply Hl, list_elem_of_In, Hx.
Qed.

Lemma list_api_keys_after mongo_id doc l w' :
  json_value (VDict doc) -> dict_get doc "id" = Some (VStr mongo_id) ->
  redis_list "api_keys_list" w' = cache_after mongo_id (text_of (VDict doc)) l ->
  Forall decodable l -> (count_id (VStr mongo_id) l <= 1)%nat ->
  list_api_keys mongo_id w' = (Return (canon (VDict doc)), w').
Proof.
  intros Hv Hid Hl Hdec Hc. unfold list_api_keys. rewrite run_bind.
  unfold lrange at 1. rewrite Hl.
  assert (Hj : entry_has_id (VStr mongo_id) (text_of (VDict doc)) = true).
  { rewrite (entry_has_id_text _ doc _ Hv Hid). cbn. apply String.eqb_refl. }
  rewrite first_entry_run
    by (apply cache_after_decodable; [exact Hdec|apply text_of_decodable, Hv]).
  rewrite (find_cache_after _ _ _ Hc Hj), (loads_text_of _ Hv). reflexivity.
Qed.

(** *** Key lists *)

Lemma value_eqb_str x s : value_eqb x (VStr s) = true <-> x = VStr s.
Proof.
  destruct x; cbn; split; try discriminate.
  - intros H. apply String.eqb_eq in H. congruence.
  - intros [= ->]. apply String.eqb_refl.
Qed.

Lemma opt_eqb_str x s : opt_eqb x (VStr s) = true <-> x = Some (VStr s).
Proof.
  destruct x as [x|]; cbn; [|split; discriminate].
  rewrite value_eqb_str. split; congruence.
Qed.

Lemma without_key_in key_to_remove ks k :
  In k (without_key key_to_remove ks)
  <-> In k ks /\ key_of k <> Some (VStr key_to_remove).
Proof.
  unfold without_key. rewrite filter_In, negb_true_iff.
  rewrite <- (opt_eqb_str (key_of k) key_to_remove).
  destruct (opt_eqb (key_of k) (VStr key_to_remove)); intuition congruence.
Qed.

Lemma without_key_same_length key_to_remove ks :
  length (without_key key_to_remove ks) = length ks
  <-> (forall k, In k ks -> key_of k <> Some (VStr key_to_remove)).
Proof.
  unfold without_key. rewrite filter_length_all, Forall_forall.
  split; intros H k Hk.
  - apply list_elem_of_In in Hk. specialize (H k Hk).
    apply negb_true_iff in H. intros E. apply opt_eqb_str in E. congruence.
  - apply list_elem_of_In in Hk. apply negb_true_iff.
    destruct (opt_eqb (key_of k) (VStr key_to_remove)) eqn:E; [|reflexivity].
    apply opt_eqb_str in E. exfalso. exact (H k Hk E).
Qed.

(** C1.  Over a store of well-formed key sets and a decodable cache,
    [remove_api_key] answers 404 exactly when no key set is stored for the
    storage id or none of its entries has the key; then nothing is
    written.  Otherwise the entries with that key are filtered out of the
    list by value, the reduced list is stored, and the key is gone from the
    stored key set and, the cache holding at most one entry of the storage
    id, from the document the cache returns. *)
Theorem remove_api_key_spec (mongo_id key_to_remove : string) (w : world) :
  Forall key_doc_ok (db_keys w) ->
  Forall decodable (redis_list "api_keys_list" w) ->
  let found := List.find (matches "id" (VStr mongo_id)) (db_keys w) in
  let holds_key (doc : dict) :=
    exists ks k, dict_get doc "keys" = Some (VList ks) /\ In k ks /\
                 key_of k = Some (VStr key_to_remove) in
  let run := remove_api_key mongo_id key_to_remove w in
  ((exists detail, fst run = Raise (HTTPException 404 detail))
   <-> (found = None \/ exists doc, found = Some doc /\ ~ holds_key doc)) /\
  (forall detail, fst run = Raise (HTTPException 404 detail) -> snd run = w) /\
  (forall doc ks,
      found = Some doc -> dict_get doc "keys" = Some (VList ks) -> holds_key doc ->
      let kept := without_key key_to_remove ks in
      let updated_doc := [("id"%string, VStr mongo_id); ("keys"%string, VList kept)] in
      fst run = Return (VDict [("message"%string, VStr "API key removed");
                               ("removed_key"%string, VStr key_to_remove)]) /\
      db_users (snd run) = db_users w /\
      db_keys (snd run)
      = update_first (matches "id" (VStr mongo_id))
          (fun d => dict_set d "keys" (VList kept)) (db_keys w) /\
      List.find (matches "id" (VStr mongo_id)) (db_keys (snd run))
      = Some (dict_set doc "keys" (VList kept)) /\
      (forall k, In k kept <-> In k ks /\ key_of k <> Some (VStr key_to_remove)) /\
      redis_list "api_keys_list" (snd run)
      = cache_after mongo_id (text_of (VDict updated_doc))
          (redis_list "api_keys_list" w) /\
      ((count_id (VStr mongo_id) (redis_list "api_keys_list" w) <= 1)%nat ->
       exists cached,
         list_api_keys mongo_id (snd run) = (Return cached, snd run) /\
         value_eqb cached (VDict updated_doc) = true)).
Proof.
  intros Hstore Hdec. cbv zeta.
  destruct (List.find (matches "id" (VStr mongo_id)) (db_keys w)) as [doc|] eqn:Hf.
  2:{ rewrite (remove_api_key_no_doc _ _ _ Hf). cbn [fst snd].
      split; [|split; [reflexivity|discriminate]].
      split; [intros _; left; reflexivity|eauto]. }
  assert (Hok : key_doc_ok doc).
  { apply find_some in Hf as [Hin _]. rewrite Forall_forall in Hstore.
    apply Hstore, list_elem_of_In, Hin. }
  destruct Hok as (_ & _ & ks & Hks & Hkeys).
  destruct (Nat.eq_dec (length (without_key key_to_remove ks)) (length ks))
    as [Hlen|Hlen].
  - rewrite (remove_api_key_no_key _ _ _ _ _ Hf Hks Hkeys Hlen). cbn [fst snd].
    assert (Hnone : ~ exists ks0 k, dict_get doc "keys" = Some (VList ks0) /\
                                     In k ks0 /\ key_of k = Some (VStr key_to_remove)).
    { intros (ks0 & k & Hks0 & Hin & Hk). rewrite Hks in Hks0.
      injection Hks0 as <-.
      exact (proj1 (without_key_same_length _ _) Hlen k Hin Hk). }
    split; [|split; [reflexivity|]].
    + split; [intros _; right; exists doc; split; [reflexivity|exact Hnone]|eauto].
    + intros doc0 ks0 [= <-] _ Hh. exfalso. exact (Hnone Hh).
  - pose proof (remove_api_key_done _ _ _ _ _ Hf Hks Hkeys Hlen Hdec) as Hrun.
    cbv zeta in Hrun. rewrite Hrun. cbn [fst snd db_users db_keys].
    assert (Hsome : exists ks0 k, dict_get doc "keys" = Some (VList ks0) /\
                                   In k ks0 /\ key_of k = Some (VStr key_to_remove)).
    { exists ks.
      destruct (List.existsb (fun k => opt_eqb (key_of k) (VStr key_to_remove)) ks)
        eqn:Hex.
      - apply existsb_exists in Hex as (k & Hin & Hk).
        exists k. repeat split; auto. apply opt_eqb_str, Hk.
      - exfalso. apply Hlen. apply without_key_same_length. intros k Hin Hk.
        assert (List.existsb (fun k => opt_eqb (key_of k) (VStr key_to_remove)) ks
                = true) as Ht; [|congruence].
        apply existsb_exists. exists k. split; [exact Hin|]. apply opt_eqb_str, Hk. }
    split; [|split; [discriminate|]].
    + split; [intros [? [=]]|].
      intros [[=]|(doc0 & [= <-] & Hno)]. exfalso. exact (Hno Hsome).
    + intros doc0 ks0 [= <-] Hks0 _. rewrite Hks in Hks0. injection Hks0 as <-.
      split; [reflexivity|]. split; [reflexivity|]. split; [reflexivity|].
      split.
      { apply (find_update_first _
                 (fun d => dict_set d "keys" (VList (without_key key_to_remove ks)))
                 _ doc); [exact Hf|].
        rewrite matches_set_other by discriminate.
        apply find_some in Hf as [_ Hm]. exact Hm. }
      split; [intros k; apply without_key_in|].
      split; [apply redis_list_insert_eq|].
      intros Hcount.
      assert (Hv : json_value
                     (VDict [("id"%string, VStr mongo_id);
                             ("keys"%string, VList (without_key key_to_remove ks))])).
      { constructor; [distinct_keys|].
        repeat apply List.Forall_cons; try apply List.Forall_nil; cbn [snd].
        - constructor.
        - apply (json_value_list_filter _ _ Hkeys). }
      eexists. split.
      * eapply list_api_keys_after; [exact Hv|reflexivity| |exact Hdec|exact Hcount].
        apply redis_list_insert_eq.
      * apply canon_eqb, Hv.
Qed.

(** *** What the cache returns after each handler *)

Lemma find_filter_none {A} (p q : A -> bool) l :
  List.find p l = None -> List.find p (List.filter q l) = None.
Proof.
  induction l as [|x l IH]; cbn; [reflexivity|].
  destruct (p x) eqn:Hp; [discriminate|]. intros H.
  destruct (q x); cbn; [rewrite Hp|]; auto.
Qed.

(** The push of [create_user]: with no entry of the identifier before, the
    pushed text is the first entry of the identifier. *)
Lemma find_after_push wanted text l :
  count_id wanted l = 0%nat -> entry_has_id wanted text = true ->
  List.find (entry_has_id wanted) (lrem_list 0 text l ++ [text]) = Some text.
Proof.
  intros Hc Ht. rewrite find_app_first, lrem_all.
  rewrite (find_filter_none _ _ _ (count_id_zero _ _ Hc)). cbn. rewrite Ht.
  reflexivity.
Qed.

Lemma push_decodable text l :
  Forall decodable l -> decodable text ->
  Forall decodable (lrem_list 0 text l ++ [text]).
Proof.
  intros Hl Ht. apply Forall_app. split; [|repeat constructor; exact Ht].
  rewrite lrem_all. apply Forall_forall. intros x Hx.
  apply list_elem_of_In, filter_In in Hx as [Hx _].
  rewrite Forall_forall in Hl. apply Hl, list_elem_of_In, Hx.
Qed.

Lemma canon_user_dict user s :
  canon (VDict (User_dict user ++ [("_id"%string, VStr s)]))
  = VDict [("_id"%string, VStr s); ("company"%string, VStr (company user));
           ("id"%string, VInt (id user)); ("name"%string, VStr (name user));
           ("status"%string, VStr (StatusEnum_value (status user)))].
Proof. reflexivity. Qed.

Lemma user_dict_json_value user s :
  json_value (VDict (User_dict user ++ [("_id"%string, VStr s)])).
Proof.
  constructor; [distinct_keys|].
  repeat apply List.Forall_cons; try apply List.Forall_nil; constructor.
Qed.

Lemma api_doc_json_value s key :
  json_value (VDict [("id"%string, VStr s); ("keys"%string, VList [key_entry key])]).
Proof.
  constructor; [distinct_keys|].
  repeat apply List.Forall_cons; try apply List.Forall_nil; cbn [snd].
  - constructor.
  - constructor. apply List.Forall_cons; [|apply List.Forall_nil].
    apply key_entry_is_ok.
Qed.

(** What [get_user] returns right after [create_user]. *)
Lemma get_user_after_create user w :
  int64 (id user) = true ->
  List.find (matches "id" (VInt (id user))) (db_users w) = None ->
  Forall decodable (redis_list "users_list" w) ->
  count_id (VInt (id user)) (redis_list "users_list" w) = 0%nat ->
  let w1 := snd (create_user user w) in
  let storage_id := str_of_ObjectId (ObjectId_of_counter (oid_counter w)) in
  get_user (id user) w1
  = (Return (VDict [("_id"%string, VStr storage_id);
                    ("company"%string, VStr (company user));
                    ("id"%string, VInt (id user));
                    ("name"%string, VStr (name user));
                    ("status"%string, VStr (StatusEnum_value (status user)))]),
     w1).
Proof.
  intros Hr Hf Hdec Hc. cbv zeta. rewrite (create_user_new user w Hr Hf). cbn [snd].
  set (w1 := mkWorld _ _ _ _ _ _).
  set (s := str_of_ObjectId (ObjectId_of_counter (oid_counter w))).
  pose proof (user_dict_json_value user s) as Hv.
  assert (Hl : redis_list "users_list" w1
               = lrem_list 0 (text_of (VDict (User_dict user ++ [("_id"%string, VStr s)])))
                   (redis_list "users_list" w)
                 ++ [text_of (VDict (User_dict user ++ [("_id"%string, VStr s)]))]).
  { unfold w1, redis_list. cbn [redis].
    rewrite lookup_insert_ne by discriminate. rewrite lookup_insert_eq. reflexivity. }
  unfold get_user. rewrite run_bind. unfold lrange at 1. rewrite Hl.
  rewrite first_entry_run
    by (apply push_decodable; [exact Hdec|apply text_of_decodable, Hv]).
  rewrite find_after_push; [|exact Hc|].
  - rewrite (loads_text_of _ Hv), canon_user_dict. reflexivity.
  - rewrite (entry_has_id_text _ _ (VInt (id user)) Hv) by reflexivity.
    apply Z.eqb_refl.
Qed.

(** C8, amended.  After user 1 "Ann" of "Acme" is created where no user 1
    is stored or cached, the response carries a key of 20 characters and
    the user with the storage id, and [get_user 1] returns the document
    {id: 1, name: "Ann", company: "Acme", status: "active"} together with
    the field ["_id"] holding that storage id. *)
Theorem scenario_create_then_get (w : world) :
  List.find (matches "id" (VInt 1)) (db_users w) = None ->
  Forall decodable (redis_list "users_list" w) ->
  count_id (VInt 1) (redis_list "users_list" w) = 0%nat ->
  exists storage_id api_key w1 returned,
    create_user ann w
    = (Return (VDict [("message"%string, VStr "User created");
                      ("user"%string,
                       VDict [("id"%string, VInt 1); ("name"%string, VStr "Ann");
                              ("company"%string, VStr "Acme");
                              ("status"%string, VStr "active");
                              ("_id"%string, VStr storage_id)]);
                      ("api_key"%string, VStr api_key)]), w1) /\
    String.length api_key = 20%nat /\
    get_user 1 w1 = (Return returned, w1) /\
    value_eqb returned
      (VDict [("id"%string, VInt 1); ("name"%string, VStr "Ann");
              ("company"%string, VStr "Acme"); ("status"%string, VStr "active");
              ("_id"%string, VStr storage_id)]) = true /\
    value_eqb returned
      (VDict [("id"%string, VInt 1); ("name"%string, VStr "Ann");
              ("company"%string, VStr "Acme"); ("status"%string, VStr "active")])
    = false.
Proof.
  intros Hf Hdec Hc.
  pose proof (get_user_after_create ann w eq_refl Hf Hdec Hc) as Hget.
  cbv zeta in Hget.
  pose proof (create_user_new ann w eq_refl Hf) as Hrun. cbv zeta in Hrun.
  rewrite Hrun in Hget. cbn [snd] in Hget.
  eexists _, _, _, _. split; [exact Hrun|].
  split; [apply drawn_key_length|]. split; [exact Hget|].
  generalize (str_of_ObjectId (ObjectId_of_counter (oid_counter w))). intros s.
  split.
  - cbn. rewrite String.eqb_refl. reflexivity.
  - reflexivity.
Qed.

(** C8 as stated fails: the document [get_user 1] returns after the
    creation is not the four-field document; it has ["_id"] as well. *)
Lemma scenario_get_has_storage_id :
  exists returned,
    fst (get_user 1 world_with_ann) = Return returned /\
    dict_get (match returned with VDict d => d | _ => [] end) "_id"
    = Some (VStr ann_storage_id) /\
    value_eqb returned
      (VDict [("id"%string, VInt 1); ("name"%string, VStr "Ann");
              ("company"%string, VStr "Acme"); ("status"%string, VStr "active")])
    = false.
Proof. eexists. vm_compute. repeat split. Qed.

Lemma matches_id_get mongo_id doc :
  matches "id" (VStr mongo_id) doc = true ->
  dict_get doc "id" = Some (VStr mongo_id).
Proof.
  unfold matches. destruct (dict_get doc "id") as [x|]; [|discriminate].
  intros H. apply value_eqb_str in H. congruence.
Qed.

(** What [list_api_keys] returns right after [create_user]. *)
Lemma list_api_keys_after_create user w :
  int64 (id user) = true ->
  List.find (matches "id" (VInt (id user))) (db_users w) = None ->
  Forall decodable (redis_list "api_keys_list" w) ->
  let storage_id := str_of_ObjectId (ObjectId_of_counter (oid_counter w)) in
  count_id (VStr storage_id) (redis_list "api_keys_list" w) = 0%nat ->
  let w1 := snd (create_user user w) in
  list_api_keys storage_id w1
  = (Return (VDict [("id"%string, VStr storage_id);
                    ("keys"%string,
                     VList [key_entry (drawn_key (entropy w) (drawn w) 20)])]),
     w1).
Proof.
  intros Hr Hf Hdec. cbv zeta. intros Hc. rewrite (create_user_new user w Hr Hf).
  cbn [snd]. set (w1 := mkWorld _ _ _ _ _ _).
  set (s := str_of_ObjectId (ObjectId_of_counter (oid_counter w))) in *.
  set (key := drawn_key (entropy w) (drawn w) 20).
  pose proof (api_doc_json_value s key) as Hv.
  assert (Hl : redis_list "api_keys_list" w1
               = lrem_list 0
                   (text_of (VDict [("id"%string, VStr s);
                                    ("keys"%string, VList [key_entry key])]))
                   (redis_list "api_keys_list" w)
                 ++ [text_of (VDict [("id"%string, VStr s);
                                     ("keys"%string, VList [key_entry key])])]).
  { unfold w1, redis_list. cbn [redis]. rewrite lookup_insert_eq. reflexivity. }
  unfold list_api_keys. rewrite run_bind. unfold lrange at 1. rewrite Hl.
  rewrite first_entry_run
    by (apply push_decodable; [exact Hdec|apply text_of_decodable, Hv]).
  rewrite find_after_push; [|exact Hc|].
  - rewrite (loads_text_of _ Hv). reflexivity.
  - rewrite (entry_has_id_text _ _ (VStr s) Hv) by reflexivity.
    cbn. apply String.eqb_refl.
Qed.

(** What [list_api_keys] returns right after [create_api_key]: the stored
    key set with its [ObjectId] turned into text. *)
Lemma list_api_keys_after_new_key mongo_id oid u w :
  ObjectId_of_str mongo_id = Some oid ->
  List.find (matches "_id" (VObjectId oid)) (db_users w) = Some u ->
  Forall key_doc_ok (db_keys w) ->
  Forall decodable (redis_list "api_keys_list" w) ->
  (count_id (VStr mongo_id) (redis_list "api_keys_list" w) <= 1)%nat ->
  let w1 := snd (create_api_key mongo_id w) in
  exists stored doc_id cached,
    (exists r, fst (create_api_key mongo_id w) = Return r) /\
    List.find (matches "id" (VStr mongo_id)) (db_keys w1) = Some stored /\
    dict_get stored "_id" = Some (VObjectId doc_id) /\
    list_api_keys mongo_id w1 = (Return (VDict cached), w1) /\
    canon (VDict (convert_object_ids stored)) = VDict cached /\
    dict_get cached "_id" = Some (VStr (str_of_ObjectId doc_id)) /\
    dict_get cached "id" = Some (VStr mongo_id).
Proof.
  intros Ho Hu Hstore Hdec Hc. cbv zeta.
  set (key := drawn_key (entropy w) (drawn w) 20).
  assert (Hgoal : forall stored doc_id w1 l,
             json_value (VDict (convert_object_ids stored)) ->
             dict_get stored "_id" = Some (VObjectId doc_id) ->
             dict_get stored "id" = Some (VStr mongo_id) ->
             redis_list "api_keys_list" w1
             = cache_after mongo_id (text_of (VDict (convert_object_ids stored))) l ->
             Forall decodable l -> (count_id (VStr mongo_id) l <= 1)%nat ->
             exists cached,
               list_api_keys mongo_id w1 = (Return (VDict cached), w1) /\
               canon (VDict (convert_object_ids stored)) = VDict cached /\
               dict_get cached "_id" = Some (VStr (str_of_ObjectId doc_id)) /\
               dict_get cached "id" = Some (VStr mongo_id)).
  { intros stored doc_id w1 l Hv Hid Hsid Hl Hdl Hcl.
    assert (Hsid' : dict_get (convert_object_ids stored) "id" = Some (VStr mongo_id))
      by (apply convert_object_ids_get; [exact Hsid|constructor]).
    pose proof (list_api_keys_after _ _ _ _ Hv Hsid' Hl Hdl Hcl) as Hlist.
    inversion Hv as [| | |? Hnd _]; subst.
    destruct (canon_dict_get (convert_object_ids stored) "_id" Hnd)
      as (cached & Hcanon & Hg1).
    exists cached. rewrite <- Hcanon. split; [exact Hlist|]. split; [reflexivity|].
    split.
    - rewrite Hg1, (convert_object_ids_get_oid _ _ _ Hid). reflexivity.
    - destruct (canon_dict_get (convert_object_ids stored) "id" Hnd)
        as (cached' & Hcanon' & Hg2).
      rewrite Hcanon in Hcanon'. injection Hcanon' as <-.
      rewrite Hg2, Hsid'. reflexivity. }
  destruct (List.find (matches "id" (VStr mongo_id)) (db_keys w)) as [doc|] eqn:Hk.
  - assert (Hok : key_doc_ok doc).
    { apply find_some in Hk as [Hin _]. rewrite Forall_forall in Hstore.
      apply Hstore, list_elem_of_In, Hin. }
    destruct Hok as (Hst & [doc_id Hid] & ks & Hks & Hkeys).
    rewrite (create_api_key_next _ _ _ _ _ _ Ho Hu Hk Hst Hks Hkeys Hdec).
    cbn [fst snd]. set (w1 := mkWorld _ _ _ _ _ _).
    set (stored := dict_set doc "keys" (VList (ks ++ [key_entry key]))).
    assert (Hnew : json_value (VList (ks ++ [key_entry key]))).
    { constructor. apply Forall_app. split.
      - eapply Forall_impl; [exact Hkeys|]. intros k [Hk' _]. exact Hk'.
      - apply List.Forall_cons; [apply key_entry_is_ok|apply List.Forall_nil]. }
    assert (P1 : json_value (VDict (convert_object_ids stored)))
      by (apply storable_convert, storable_set; assumption).
    assert (P2 : dict_get stored "_id" = Some (VObjectId doc_id))
      by (unfold stored; rewrite dict_get_set_ne by discriminate; exact Hid).
    assert (P3 : dict_get stored "id" = Some (VStr mongo_id)).
    { unfold stored. rewrite dict_get_set_ne by discriminate.
      apply matches_id_get. apply find_some in Hk as [_ Hm]. exact Hm. }
    assert (P4 : redis_list "api_keys_list" w1
                 = cache_after mongo_id (text_of (VDict (convert_object_ids stored)))
                     (redis_list "api_keys_list" w)).
    { unfold w1, redis_list. cbn [redis]. rewrite lookup_insert_eq. reflexivity. }
    destruct (Hgoal stored doc_id w1 _ P1 P2 P3 P4 Hdec Hc)
      as (cached & H1 & H2 & H3 & H4).
    exists stored, doc_id, cached.
    split; [eexists; reflexivity|]. split; [|repeat split; assumption].
    unfold w1. cbn [db_keys].
    apply (find_update_first _
             (fun d => dict_set d "keys" (VList (ks ++ [key_entry key]))) _ doc);
      [exact Hk|].
    rewrite matches_set_other by discriminate.
    apply find_some in Hk as [_ Hm]. exact Hm.
  - rewrite (create_api_key_first _ _ _ _ Ho Hu Hk Hdec).
    cbn [fst snd]. set (w1 := mkWorld _ _ _ _ _ _).
    set (stored := [("_id"%string, VObjectId (ObjectId_of_counter (oid_counter w)));
                    ("id"%string, VStr mongo_id);
                    ("keys"%string, VList [key_entry key])]).
    assert (P1 : json_value (VDict (convert_object_ids stored))).
    { apply storable_convert. split; [distinct_keys|].
      repeat apply List.Forall_cons; try apply List.Forall_nil; cbn [snd].
      - right. eauto.
      - left. constructor.
      - left. constructor. apply List.Forall_cons; [|apply List.Forall_nil].
        apply key_entry_is_ok. }
    assert (P4 : redis_list "api_keys_list" w1
                 = cache_after mongo_id (text_of (VDict (convert_object_ids stored)))
                     (redis_list "api_keys_list" w)).
    { unfold w1, redis_list. cbn [redis]. rewrite lookup_insert_eq. reflexivity. }
    destruct (Hgoal stored (ObjectId_of_counter (oid_counter w)) w1 _ P1
                eq_refl eq_refl P4 Hdec Hc)
      as (cached & H1 & H2 & H3 & H4).
    exists stored, (ObjectId_of_counter (oid_counter w)), cached.
    split; [eexists; reflexivity|]. split; [|repeat split; assumption].
    unfold w1. cbn [db_keys]. rewrite find_app_first, Hk.
    cbn [List.find]. unfold matches, stored, stored_key_set.
    cbn [dict_get String.eqb Ascii.eqb Bool.eqb andb value_eqb].
    rewrite String.eqb_refl. reflexivity.
Qed.

(** C9.  The cache entry [create_api_key] writes is the text of the stored
    key set with its [ObjectId] as a string under ["_id"], next to ["id"]
    and ["keys"]; the entries [create_user] (which gets as far as the cache
    for an id within the signed 64-bit integers the store accepts) and
    [remove_api_key] write have the two fields ["id"] and ["keys"] only.
    So, the cache holding at most
    one entry of the storage id, [list_api_keys] returns a document with
    ["_id"] after [create_api_key] and without it after the other two. *)
Theorem cached_key_set_id_field
    (mongo_id key_to_remove : string) (user : User) (w : world) :
  Forall key_doc_ok (db_keys w) ->
  Forall decodable (redis_list "api_keys_list" w) ->
  (forall oid u,
      ObjectId_of_str mongo_id = Some oid ->
      List.find (matches "_id" (VObjectId oid)) (db_users w) = Some u ->
      (count_id (VStr mongo_id) (redis_list "api_keys_list" w) <= 1)%nat ->
      let w1 := snd (create_api_key mongo_id w) in
      exists stored doc_id cached,
        (exists r, fst (create_api_key mongo_id w) = Return r) /\
        List.find (matches "id" (VStr mongo_id)) (db_keys w1) = Some stored /\
        dict_get stored "_id" = Some (VObjectId doc_id) /\
        list_api_keys mongo_id w1 = (Return (VDict cached), w1) /\
        canon (VDict (convert_object_ids stored)) = VDict cached /\
        dict_get cached "_id" = Some (VStr (str_of_ObjectId doc_id)) /\
        dict_get cached "id" = Some (VStr mongo_id)) /\
  (int64 (id user) = true ->
   List.find (matches "id" (VInt (id user))) (db_users w) = None ->
   let storage_id := str_of_ObjectId (ObjectId_of_counter (oid_counter w)) in
   count_id (VStr storage_id) (redis_list "api_keys_list" w) = 0%nat ->
   let w1 := snd (create_user user w) in
   exists api_key,
     list_api_keys storage_id w1
     = (Return (VDict [("id"%string, VStr storage_id);
                       ("keys"%string, VList [key_entry api_key])]), w1)) /\
  (forall r w1,
      remove_api_key mongo_id key_to_remove w = (Return r, w1) ->
      (count_id (VStr mongo_id) (redis_list "api_keys_list" w) <= 1)%nat ->
      exists kept,
        list_api_keys mongo_id w1
        = (Return (VDict [("id"%string, VStr mongo_id);
                          ("keys"%string, VList kept)]), w1)).
Proof.
  intros Hstore Hdec. split; [|split].
  - intros oid u Ho Hu Hc.
    apply (list_api_keys_after_new_key _ _ _ _ Ho Hu Hstore Hdec Hc).
  - intros Hr Hf. cbv zeta. intros Hc. eexists.
    apply (list_api_keys_after_create user w Hr Hf Hdec Hc).
  - intros r w1 Hrun Hc.
    destruct (List.find (matches "id" (VStr mongo_id)) (db_keys w)) as [doc|] eqn:Hf.
    2:{ rewrite (remove_api_key_no_doc _ _ _ Hf) in Hrun. discriminate Hrun. }
    assert (Hok : key_doc_ok doc).
    { apply find_some in Hf as [Hin _]. rewrite Forall_forall in Hstore.
      apply Hstore, list_elem_of_In, Hin. }
    destruct Hok as (_ & _ & ks & Hks & Hkeys).
    destruct (Nat.eq_dec (length (without_key key_to_remove ks)) (length ks))
      as [Hlen|Hlen].
    { rewrite (remove_api_key_no_key _ _ _ _ _ Hf Hks Hkeys Hlen) in Hrun.
      discriminate Hrun. }
    pose proof (remove_api_key_done _ _ _ _ _ Hf Hks Hkeys Hlen Hdec) as Hdone.
    cbv zeta in Hdone. rewrite Hdone in Hrun. injection Hrun as _ <-.
    exists (map canon (without_key key_to_remove ks)).
    assert (Hv : json_value
                   (VDict [("id"%string, VStr mongo_id);
                           ("keys"%string, VList (without_key key_to_remove ks))])).
    { constructor; [distinct_keys|].
      repeat apply List.Forall_cons; try apply List.Forall_nil; cbn [snd].
      - constructor.
      - apply (json_value_list_filter _ _ Hkeys). }
    rewrite (list_api_keys_after mongo_id _ (redis_list "api_keys_list" w) _
               Hv eq_refl); [reflexivity| |exact Hdec|exact Hc].
    unfold redis_list. cbn [redis]. rewrite lookup_insert_eq. reflexivity.
Qed.

(** The rest of C7 holds for a storage id that is the text of an
    [ObjectId]: 404 exactly when no user has it; otherwise a key of 20
    characters is drawn and returned, a first key set is inserted with that
    one key, or the key is appended after the keys already stored. *)
Lemma create_api_key_valid_id (mongo_id : string) (oid : ObjectId) (w : world) :
  ObjectId_of_str mongo_id = Some oid ->
  Forall key_doc_ok (db_keys w) ->
  Forall decodable (redis_list "api_keys_list" w) ->
  let run := create_api_key mongo_id w in
  let new_key := drawn_key (entropy w) (drawn w) 20 in
  ((exists detail, fst run = Raise (HTTPException 404 detail))
   <-> List.find (matches "_id" (VObjectId oid)) (db_users w) = None) /\
  (forall u,
      List.find (matches "_id" (VObjectId oid)) (db_users w) = Some u ->
      fst run = Return (VDict [("message"%string, VStr "New API key created");
                               ("new_key"%string, VStr new_key)]) /\
      String.length new_key = 20%nat /\
      (List.find (matches "id" (VStr mongo_id)) (db_keys w) = None ->
       db_keys (snd run)
       = db_keys w ++ [stored_key_set mongo_id [new_key]
                         (ObjectId_of_counter (oid_counter w))]) /\
      (forall doc ks,
          List.find (matches "id" (VStr mongo_id)) (db_keys w) = Some doc ->
          dict_get doc "keys" = Some (VList ks) ->
          List.find (matches "id" (VStr mongo_id)) (db_keys (snd run))
          = Some (dict_set doc "keys" (VList (ks ++ [key_entry new_key]))))).
Proof.
  intros Ho Hstore Hdec. cbv zeta.
  destruct (List.find (matches "_id" (VObjectId oid)) (db_users w)) as [u|] eqn:Hu.
  2:{ rewrite (create_api_key_no_user _ _ _ Ho Hu). cbn [fst].
      split; [split; eauto|discriminate]. }
  destruct (List.find (matches "id" (VStr mongo_id)) (db_keys w)) as [doc|] eqn:Hk.
  - assert (Hok : key_doc_ok doc).
    { apply find_some in Hk as [Hin _]. rewrite Forall_forall in Hstore.
      apply Hstore, list_elem_of_In, Hin. }
    destruct Hok as (Hst & _ & ks & Hks & Hkeys).
    rewrite (create_api_key_next _ _ _ _ _ _ Ho Hu Hk Hst Hks Hkeys Hdec).
    cbn [fst snd db_keys].
    split; [split; [intros [? [=]]|discriminate]|].
    intros u0 _. split; [reflexivity|]. split; [apply drawn_key_length|].
    split; [discriminate|].
    intros doc0 ks0 [= <-] Hks0. rewrite Hks in Hks0. injection Hks0 as <-.
    apply (find_update_first _
             (fun d => dict_set d "keys"
                         (VList (ks ++ [key_entry (drawn_key (entropy w) (drawn w) 20)])))
             _ doc); [exact Hk|].
    rewrite matches_set_other by discriminate.
    apply find_some in Hk as [_ Hm]. exact Hm.
  - rewrite (create_api_key_first _ _ _ _ Ho Hu Hk Hdec). cbn [fst snd db_keys].
    split; [split; [intros [? [=]]|discriminate]|].
    intros u0 _. split; [reflexivity|]. split; [apply drawn_key_length|].
    split; [reflexivity|discriminate].
Qed.

(** *** The properties at sample inputs *)

Lemma stored_key_set_ok mongo_id ks doc_id :
  key_doc_ok (stored_key_set mongo_id ks doc_id).
Proof.
  assert (Hks : Forall key_entry_ok (map key_entry ks)).
  { apply Forall_forall. intros k Hk.
    apply list_elem_of_In, in_map_iff in Hk as (x & <- & _). apply key_entry_is_ok. }
  split; [split; [distinct_keys|]|split; [eexists; reflexivity|]].
  - repeat apply List.Forall_cons; try apply List.Forall_nil; cbn [snd].
    + right. eauto.
    + left. constructor.
    + left. constructor. eapply Forall_impl; [exact Hks|]. intros k [H _]. exact H.
  - eexists. split; [reflexivity|exact Hks].
Defined.

Lemma world_with_ann_keys :
  db_keys world_with_ann
  = [stored_key_set ann_storage_id [ann_key] (ObjectId_of_counter 1)].
Proof. vm_compute. reflexivity. Defined.

Lemma world_with_ann_store_ok : Forall key_doc_ok (db_keys world_with_ann).
Proof.
  rewrite world_with_ann_keys.
  apply List.Forall_cons; [apply stored_key_set_ok|apply List.Forall_nil].
Defined.

Lemma world_with_ann_cache_ok :
  Forall decodable (redis_list "api_keys_list" world_with_ann).
Proof. apply decodable_all. vm_compute. reflexivity. Defined.

Lemma world_with_ann_users_cache_ok :
  Forall decodable (redis_list "users_list" world_with_ann).
Proof. apply decodable_all. vm_compute. reflexivity. Defined.

Lemma duplicated_cache_ok :
  Forall decodable (redis_list "api_keys_list" duplicated_cache_world).
Proof. apply decodable_all. vm_compute. reflexivity. Defined.

Lemma sample_key_doc_json_value : json_value (VDict sample_key_doc).
Proof.
  constructor; [distinct_keys|].
  repeat apply List.Forall_cons; try apply List.Forall_nil; cbn [snd].
  - constructor.
  - constructor.
    repeat apply List.Forall_cons; try apply List.Forall_nil; apply key_entry_is_ok.
Defined.

Lemma sample_key_doc_reordered_json_value :
  json_value (VDict sample_key_doc_reordered).
Proof.
  constructor; [distinct_keys|].
  repeat apply List.Forall_cons; try apply List.Forall_nil; cbn [snd].
  - constructor.
    repeat apply List.Forall_cons; try apply List.Forall_nil.
    + constructor; [distinct_keys|].
      repeat apply List.Forall_cons; try apply List.Forall_nil; constructor.
    + apply key_entry_is_ok.
  - constructor.
Defined.

Lemma json_round_trip_witness :
  json_value (VDict sample_key_doc) /\
  json_value (VDict sample_key_doc_reordered) /\
  value_eqb (VDict sample_key_doc) (VDict sample_key_doc_reordered) = true /\
  (exists text decoded,
      json_dumps (VDict sample_key_doc) = Some text /\
      json_loads text = Some decoded /\
      value_eqb decoded (VDict sample_key_doc) = true) /\
  json_dumps (VDict sample_key_doc) = json_dumps (VDict sample_key_doc_reordered).
Proof.
  pose proof (json_round_trip sample_key_doc sample_key_doc_reordered
                sample_key_doc_json_value sample_key_doc_reordered_json_value)
    as [Hrt Heq].
  split; [exact sample_key_doc_json_value|].
  split; [exact sample_key_doc_reordered_json_value|].
  split; [reflexivity|]. split; [exact Hrt|]. apply Heq. reflexivity.
Defined.

Lemma cache_reads_first_match_witness :
  Forall decodable (redis_list "api_keys_list" world_with_ann) /\
  Forall decodable (redis_list "users_list" world_with_ann) /\
  (exists d, list_api_keys ann_storage_id world_with_ann
             = (Return (VDict d), world_with_ann)) /\
  list_api_keys "other" world_with_ann
  = (Raise (HTTPException 404 "API keys not found in Redis"), world_with_ann) /\
  (exists d, get_user 1 world_with_ann = (Return (VDict d), world_with_ann)) /\
  get_user 2 world_with_ann
  = (Raise (HTTPException 404 "User not found in Redis"), world_with_ann).
Proof.
  pose proof (cache_reads_first_match ann_storage_id 1 world_with_ann
                world_with_ann_cache_ok world_with_ann_users_cache_ok)
    as (Ha & _ & Hu & _).
  pose proof (cache_reads_first_match "other" 2 world_with_ann
                world_with_ann_cache_ok world_with_ann_users_cache_ok)
    as (_ & Ha' & _ & Hu').
  split; [exact world_with_ann_cache_ok|].
  split; [exact world_with_ann_users_cache_ok|].
  split.
  { destruct (Ha _ ltac:(vm_compute; reflexivity)) as (d & _ & H). eauto. }
  split; [apply Ha'; vm_compute; reflexivity|].
  split.
  { destruct (Hu _ ltac:(vm_compute; reflexivity)) as (d & _ & H). eauto. }
  apply Hu'. vm_compute. reflexivity.
Defined.

Lemma create_user_creates_witness :
  int64 (id ann) = true /\
  List.find (matches "id" (VInt (id ann))) (db_users (empty_world sample_entropy))
  = None /\
  exists storage_id api_key w',
    create_user ann (empty_world sample_entropy)
    = (Return (VDict [("message"%string, VStr "User created");
                      ("user"%string,
                       VDict (User_dict ann ++ [("_id"%string, VStr storage_id)]));
                      ("api_key"%string, VStr api_key)]), w') /\
    String.length api_key = 20%nat /\
    length (db_users w') = 1%nat /\ length (db_keys w') = 1%nat.
Proof.
  split; [reflexivity|]. split; [reflexivity|].
  destruct (create_user_creates ann (empty_world sample_entropy) eq_refl eq_refl)
    as (storage_id & api_key & doc_id & w' & Hrun & Hlen & _ & _ & Hu & Hk).
  exists storage_id, api_key, w'. split; [exact Hrun|]. split; [exact Hlen|].
  rewrite Hu, Hk. split; reflexivity.
Defined.

Lemma create_user_conflict_iff_witness :
  int64 (id ann) = true /\
  List.find (matches "id" (VInt (id ann))) (db_users (empty_world sample_entropy))
  = None /\
  fst (create_user ann world_with_ann)
  = Raise (HTTPException 400 "User ID already exists") /\
  snd (create_user ann world_with_ann) = world_with_ann /\
  length (db_users (snd (create_user ann world_with_ann))) = 1%nat /\
  length (db_keys (snd (create_user ann world_with_ann))) = 1%nat.
Proof.
  split; [reflexivity|]. split; [reflexivity|].
  destruct (create_user_conflict_iff ann (empty_world sample_entropy))
    as (_ & _ & Htwice).
  destruct (Htwice eq_refl eq_refl) as (Hfail & Hsame & Hu & Hk & _).
  split; [exact Hfail|]. split; [exact Hsame|]. split; [exact Hu|exact Hk].
Defined.

Lemma remove_api_key_spec_witness :
  Forall key_doc_ok (db_keys world_with_ann) /\
  Forall decodable (redis_list "api_keys_list" world_with_ann) /\
  fst (remove_api_key ann_storage_id ann_key world_with_ann)
  = Return (VDict [("message"%string, VStr "API key removed");
                   ("removed_key"%string, VStr ann_key)]) /\
  (exists cached,
      list_api_keys ann_storage_id
        (snd (remove_api_key ann_storage_id ann_key world_with_ann))
      = (Return cached, snd (remove_api_key ann_storage_id ann_key world_with_ann)) /\
      value_eqb cached
        (VDict [("id"%string, VStr ann_storage_id); ("keys"%string, VList [])])
      = true) /\
  snd (remove_api_key ann_storage_id "no such key" world_with_ann) = world_with_ann.
Proof.
  split; [exact world_with_ann_store_ok|].
  split; [exact world_with_ann_cache_ok|].
  destruct (remove_api_key_spec ann_storage_id ann_key world_with_ann
              world_with_ann_store_ok world_with_ann_cache_ok)
    as (_ & _ & Hok).
  destruct (remove_api_key_spec ann_storage_id "no such key" world_with_ann
              world_with_ann_store_ok world_with_ann_cache_ok)
    as (_ & Hnf & _).
  assert (Hfound : List.find (matches "id" (VStr ann_storage_id))
                     (db_keys world_with_ann)
                   = Some (stored_key_set ann_storage_id [ann_key]
                             (ObjectId_of_counter 1)))
    by (vm_compute; reflexivity).
  destruct (Hok _ [key_entry ann_key] Hfound eq_refl) as (Hr & _ & _ & _ & _ & _ & Hc).
  { exists [key_entry ann_key], (key_entry ann_key).
    split; [reflexivity|]. split; [left; reflexivity|reflexivity]. }
  split; [exact Hr|]. split.
  - apply Hc. vm_compute. lia.
  - apply (Hnf "API key not found"). vm_compute. reflexivity.
Defined.

Lemma cache_update_after_mutation_witness :
  Forall decodable (redis_list "api_keys_list" duplicated_cache_world) /\
  exists stored kept updated_json,
    List.find (matches "id" (VStr "u1"))
      (db_keys (snd (remove_api_key "u1" "k1" duplicated_cache_world)))
    = Some stored /\
    dict_get stored "keys" = Some (VList kept) /\
    json_dumps (VDict [("id"%string, VStr "u1"); ("keys"%string, VList kept)])
    = Some updated_json /\
    redis_list "api_keys_list"
      (snd (remove_api_key "u1" "k1" duplicated_cache_world))
    = cache_after "u1" updated_json
        (redis_list "api_keys_list" duplicated_cache_world).
Proof.
  split; [exact duplicated_cache_ok|].
  destruct (cache_update_after_mutation "u1" "k1" duplicated_cache_world
              duplicated_cache_ok) as (_ & Hr & _).
  apply (Hr (VDict [("message"%string, VStr "API key removed");
                    ("removed_key"%string, VStr "k1")])).
  vm_compute. reflexivity.
Defined.

Lemma cache_update_count_witness :
  Forall decodable (redis_list "api_keys_list" duplicated_cache_world) /\
  entry_has_id (VStr "u1") (text_of (VDict sample_key_doc)) = true /\
  (count_id (VStr "u1")
     (redis_list "api_keys_list"
        (snd (update_api_keys_cache "u1" (text_of (VDict sample_key_doc))
                duplicated_cache_world)))
   + copies (text_of (VDict sample_key_doc))
       (redis_list "api_keys_list" duplicated_cache_world)
   = count_id (VStr "u1") (redis_list "api_keys_list" duplicated_cache_world) + 1)%nat.
Proof.
  assert (Hnew : entry_has_id (VStr "u1") (text_of (VDict sample_key_doc)) = true)
    by (vm_compute; reflexivity).
  split; [exact duplicated_cache_ok|]. split; [exact Hnew|].
  pose proof (cache_update_count "u1" (text_of (VDict sample_key_doc))
                duplicated_cache_world duplicated_cache_ok Hnew) as H.
  cbv zeta in H.
  assert (Hf : List.find (entry_has_id (VStr "u1"))
                 (redis_list "api_keys_list" duplicated_cache_world)
               = Some (text_of (VDict sample_key_doc)))
    by (vm_compute; reflexivity).
  rewrite Hf in H. destruct H as [_ H]. exact H.
Defined.

Lemma scenario_create_then_get_witness :
  List.find (matches "id" (VInt 1)) (db_users (empty_world sample_entropy)) = None /\
  Forall decodable (redis_list "users_list" (empty_world sample_entropy)) /\
  count_id (VInt 1) (redis_list "users_list" (empty_world sample_entropy)) = 0%nat /\
  exists storage_id api_key w1 returned,
    fst (create_user ann (empty_world sample_entropy))
    = Return (VDict [("message"%string, VStr "User created");
                     ("user"%string,
                      VDict [("id"%string, VInt 1); ("name"%string, VStr "Ann");
                             ("company"%string, VStr "Acme");
                             ("status"%string, VStr "active");
                             ("_id"%string, VStr storage_id)]);
                     ("api_key"%string, VStr api_key)]) /\
    String.length api_key = 20%nat /\
    get_user 1 w1 = (Return returned, w1) /\
    value_eqb returned
      (VDict [("id"%string, VInt 1); ("name"%string, VStr "Ann");
              ("company"%string, VStr "Acme"); ("status"%string, VStr "active");
              ("_id"%string, VStr storage_id)]) = true.
Proof.
  split; [reflexivity|]. split; [apply List.Forall_nil|]. split; [reflexivity|].
  destruct (scenario_create_then_get (empty_world sample_entropy) eq_refl
              (List.Forall_nil _) eq_refl)
    as (storage_id & api_key & w1 & returned & Hrun & Hlen & Hget & Heq & _).
  exists storage_id, api_key, w1, returned.
  rewrite Hrun. repeat split; assumption.
Defined.

Lemma cached_key_set_id_field_witness :
  Forall key_doc_ok (db_keys world_with_ann) /\
  Forall decodable (redis_list "api_keys_list" world_with_ann) /\
  (exists cached x,
      list_api_keys ann_storage_id (snd (create_api_key ann_storage_id world_with_ann))
      = (Return (VDict cached), snd (create_api_key ann_storage_id world_with_ann)) /\
      dict_get cached "_id" = Some x) /\
  (exists kept,
      list_api_keys ann_storage_id
        (snd (remove_api_key ann_storage_id ann_key world_with_ann))
      = (Return (VDict [("id"%string, VStr ann_storage_id);
                        ("keys"%string, VList kept)]),
         snd (remove_api_key ann_storage_id ann_key world_with_ann))).
Proof.
  split; [exact world_with_ann_store_ok|].
  split; [exact world_with_ann_cache_ok|].
  destruct (cached_key_set_id_field ann_storage_id ann_key ann world_with_ann
              world_with_ann_store_ok world_with_ann_cache_ok)
    as (Hnew & _ & Hrem).
  split.
  - destruct (Hnew (mkObjectId ann_storage_id)
                (("_id"%string, VObjectId (ObjectId_of_counter 0))
                   :: User_dict ann))
      as (stored & doc_id & cached & _ & _ & _ & Hl & _ & Hid & _).
    + vm_compute. reflexivity.
    + vm_compute. reflexivity.
    + vm_compute. lia.
    + exists cached, (VStr (str_of_ObjectId doc_id)). split; assumption.
  - apply (Hrem (VDict [("message"%string, VStr "API key removed");
                        ("removed_key"%string, VStr ann_key)])).
    + vm_compute. reflexivity.
    + vm_compute. lia.
Defined.

End properties.

(** ** The invariant of the sequential service *)

Section invariant.

(** *** Identifiers *)

Lemma hex_char_cases (n : N) :
  (n < 16)%N ->
  In n [0; 1; 2; 3; 4; 5; 6; 7; 8; 9; 10; 11; 12; 13; 14; 15]%N.
Proof.
  intros H. cbn [In].
  destruct n as [|[[[[?|?|]|[?|?|]|]|[[?|?|]|[?|?|]|]|]|[[[?|?|]|[?|?|]|]|[[?|?|]|[?|?|]|]|]|]];
    try lia; tauto.
Qed.

Lemma hex_char_hex n : (n < 16)%N -> is_hex (hex_char n) = true.
Proof.
  intros H. apply hex_char_cases in H. cbn [In] in H.
  repeat (destruct H as [<-|H]; [reflexivity|]). destruct H.
Qed.

Lemma hex_char_lower n : (n < 16)%N -> lower (hex_char n) = hex_char n.
Proof.
  intros H. apply hex_char_cases in H. cbn [In] in H.
  repeat (destruct H as [<-|H]; [reflexivity|]). destruct H.
Qed.

Lemma hex_char_inj n m :
  (n < 16)%N -> (m < 16)%N -> hex_char n = hex_char m -> n = m.
Proof.
  intros Hn Hm. apply hex_char_cases in Hn, Hm. cbn [In] in Hn, Hm.
  repeat (destruct Hn as [<-|Hn];
          [repeat (destruct Hm as [<-|Hm];
                   [first [reflexivity | (intros E; discriminate E)]|]);
           destruct Hm|]).
  destruct Hn.
Qed.

Lemma hex_digits_length k n : length (hex_digits k n) = k.
Proof.
  revert n. induction k as [|k IH]; intros n; cbn [hex_digits]; [reflexivity|].
  rewrite length_app, IH. cbn. lia.
Qed.

Lemma mod_16_lt n : (n mod 16 < 16)%N.
Proof. apply N.mod_lt. discriminate. Qed.

Lemma hex_digits_hex k n : forallb is_hex (hex_digits k n) = true.
Proof.
  revert n. induction k as [|k IH]; intros n; cbn [hex_digits]; [reflexivity|].
  rewrite forallb_app, IH. cbn [forallb]. rewrite hex_char_hex by apply mod_16_lt.
  reflexivity.
Qed.

Lemma hex_digits_lower k n : map lower (hex_digits k n) = hex_digits k n.
Proof.
  revert n. induction k as [|k IH]; intros n; cbn [hex_digits]; [reflexivity|].
  rewrite map_app, IH. cbn [map]. rewrite hex_char_lower by apply mod_16_lt.
  reflexivity.
Qed.

Lemma hex_digits_inj k n m :
  (n < 16 ^ N.of_nat k)%N -> (m < 16 ^ N.of_nat k)%N ->
  hex_digits k n = hex_digits k m -> n = m.
Proof.
  revert n m. induction k as [|k IH]; intros n m Hn Hm E.
  - cbn in Hn, Hm. lia.
  - cbn [hex_digits] in E. apply app_inj_tail in E as [E1 E2].
    rewrite Nat2N.inj_succ, N.pow_succ_r' in Hn, Hm.
    apply hex_char_inj in E2; try apply mod_16_lt.
    apply IH in E1.
    + rewrite (N.div_mod' n 16), (N.div_mod' m 16). congruence.
    + apply N.Div0.div_lt_upper_bound. lia.
    + apply N.Div0.div_lt_upper_bound. lia.
Qed.

Lemma ObjectId_of_str_counter n :
  ObjectId_of_str (str_of_ObjectId (ObjectId_of_counter n))
  = Some (ObjectId_of_counter n).
Proof.
  unfold ObjectId_of_str, str_of_ObjectId, ObjectId_of_counter. cbn [oid_hex].
  rewrite list_ascii_of_string_of_list_ascii, hex_digits_length, hex_digits_hex,
    hex_digits_lower.
  reflexivity.
Qed.

Lemma ObjectId_of_counter_inj n m :
  (n < 16 ^ 24)%N -> (m < 16 ^ 24)%N ->
  ObjectId_of_counter n = ObjectId_of_counter m -> n = m.
Proof.
  intros Hn Hm E. unfold ObjectId_of_counter in E.
  apply (f_equal oid_hex) in E. cbn [oid_hex] in E.
  apply (f_equal list_ascii_of_string) in E.
  rewrite !list_ascii_of_string_of_list_ascii in E.
  apply (hex_digits_inj 24); assumption.
Qed.

(** *** Helper facts on the lists *)

Lemma issued_later w w' s :
  (oid_counter w <= oid_counter w')%N -> issued w s -> issued w' s.
Proof. intros Hle (n & Hn & Hs). exists n. split; [lia|exact Hs]. Qed.

Lemma Forall_lrem (P : string -> Prop) e l :
  Forall P l -> Forall P (lrem_list 0 e l).
Proof.
  intros Hl. rewrite lrem_all. apply Forall_forall. intros x Hx.
  apply list_elem_of_In, filter_In in Hx as [Hx _].
  rewrite Forall_forall in Hl. apply Hl, list_elem_of_In, Hx.
Qed.

Lemma Forall_push (P : string -> Prop) text l :
  Forall P l -> P text -> Forall P (lrem_list 0 text l ++ [text]).
Proof.
  intros Hl Ht. apply Forall_app. split; [apply Forall_lrem, Hl|].
  apply List.Forall_cons; [exact Ht|apply List.Forall_nil].
Qed.

Lemma Forall_cache_after (P : string -> Prop) mongo_id updated_json l :
  Forall P l -> P updated_json -> Forall P (cache_after mongo_id updated_json l).
Proof.
  intros Hl Hj. unfold cache_after. apply Forall_app. split.
  - destruct (List.find _ l); [apply Forall_lrem, Hl|exact Hl].
  - apply List.Forall_cons; [exact Hj|apply List.Forall_nil].
Qed.

Lemma Forall_update_first (P : dict -> Prop) p f l :
  Forall P l -> (forall d, P d -> P (f d)) -> Forall P (update_first p f l).
Proof.
  intros Hl Hf. induction l as [|d l IH]; cbn; [constructor|].
  apply Forall_cons in Hl as [Hd Hl].
  destruct (p d); constructor; auto.
Qed.

Lemma count_id_lrem_le v e l :
  (count_id v (lrem_list 0 e l) <= count_id v l)%nat.
Proof.
  rewrite lrem_all. unfold count_id.
  induction l as [|x l IH]; cbn [List.filter]; [lia|].
  destruct (negb (String.eqb x e)); cbn [List.filter];
    destruct (entry_has_id v x); cbn [length]; lia.
Qed.

Lemma count_push v text l :
  count_id v (lrem_list 0 text l ++ [text])
  = (count_id v (lrem_list 0 text l) + (if entry_has_id v text then 1 else 0))%nat.
Proof. rewrite count_id_app, count_id_single. reflexivity. Qed.

Lemma count_cache_after_same mongo_id updated_json l :
  (count_id (VStr mongo_id) l <= 1)%nat ->
  entry_has_id (VStr mongo_id) updated_json = true ->
  count_id (VStr mongo_id) (cache_after mongo_id updated_json l) = 1%nat.
Proof.
  intros Hc Hj. unfold cache_after. rewrite count_id_app, count_id_single, Hj.
  destruct (List.find (entry_has_id (VStr mongo_id)) l) as [e|] eqn:Hf.
  - pose proof (copies_found _ _ _ Hf) as Hcp.
    apply find_some in Hf as [_ He].
    pose proof (count_id_lrem _ _ l He). lia.
  - rewrite (count_id_none _ _ Hf). reflexivity.
Qed.

Lemma count_cache_after_other s mongo_id updated_json l :
  entry_has_id (VStr s) updated_json = false ->
  (count_id (VStr s) (cache_after mongo_id updated_json l)
   <= count_id (VStr s) l)%nat.
Proof.
  intros Hj. unfold cache_after. rewrite count_id_app, count_id_single, Hj.
  destruct (List.find _ l) as [e|]; [|lia].
  pose proof (count_id_lrem_le (VStr s) e l). lia.
Qed.

Lemma text_of_has_id doc mongo_id s :
  json_value (VDict doc) -> dict_get doc "id" = Some (VStr mongo_id) ->
  entry_has_id (VStr s) (text_of (VDict doc)) = String.eqb mongo_id s.
Proof. intros Hv Hid. rewrite (entry_has_id_text _ doc _ Hv Hid). reflexivity. Qed.

Lemma text_of_cached doc mongo_id :
  json_value (VDict doc) -> dict_get doc "id" = Some (VStr mongo_id) ->
  exists d, json_loads (text_of (VDict doc)) = Some (VDict d) /\
            dict_get d "id" = Some (VStr mongo_id).
Proof.
  intros Hv Hid. destruct (loads_text_of_dict doc Hv) as (d & Hl & _ & Hg).
  exists d. split; [exact Hl|]. rewrite Hg, Hid. reflexivity.
Qed.

Lemma oid_eqb_eq (a b : ObjectId) :
  String.eqb (oid_hex a) (oid_hex b) = true -> a = b.
Proof. destruct a, b. cbn. intros H. apply String.eqb_eq in H. congruence. Qed.

Lemma matches_oid_get oid doc :
  matches "_id" (VObjectId oid) doc = true ->
  dict_get doc "_id" = Some (VObjectId oid).
Proof.
  unfold matches. destruct (dict_get doc "_id") as [x|]; [|discriminate].
  destruct x; cbn; try discriminate. intros H. apply oid_eqb_eq in H. congruence.
Qed.

Lemma first_entry_pure wanted detail entries w :
  snd (first_entry wanted detail entries w) = w.
Proof.
  induction entries as [|entry rest IH]; [reflexivity|]. cbn [first_entry].
  rewrite run_bind. unfold loads.
  destruct (json_loads entry) as [v|]; [|reflexivity]. rewrite run_ret, run_bind.
  destruct v as [n|s|l|d|o]; cbn [get]; try reflexivity.
  rewrite run_ret. destruct (opt_eqb (dict_get d "id") wanted); [reflexivity|exact IH].
Qed.

(** With the invariant on the key-set cache, the storage id about to be
    handed out has no entry yet. *)
Lemma fresh_id_not_cached w :
  Forall (fun e => exists d s,
              json_loads e = Some (VDict d) /\
              dict_get d "id" = Some (VStr s) /\ issued w s)
    (redis_list "api_keys_list" w) ->
  (oid_counter w < 16 ^ 24)%N ->
  count_id (VStr (str_of_ObjectId (ObjectId_of_counter (oid_counter w))))
    (redis_list "api_keys_list" w) = 0%nat.
Proof.
  intros Hca Hsp. apply count_id_none.
  destruct (List.find _ _) as [e|] eqn:Hf; [exfalso|reflexivity].
  apply find_some in Hf as [Hin He]. rewrite Forall_forall in Hca.
  destruct (Hca e (proj2 (list_elem_of_In _ _) Hin)) as (d & s & Hl & Hid & n & Hn & Hs).
  rewrite (entry_has_id_decoded _ _ _ Hl), Hid in He. cbn in He.
  apply String.eqb_eq in He. subst s.
  rewrite ObjectId_of_str_counter in Hs.
  assert (E : ObjectId_of_counter (oid_counter w) = ObjectId_of_counter n)
    by congruence.
  apply ObjectId_of_counter_inj in E; lia.
Qed.

Lemma decodable_of_cached (P : dict -> Prop) l :
  Forall (fun e => exists d, json_loads e = Some (VDict d) /\ P d) l ->
  Forall decodable l.
Proof.
  intros H. eapply Forall_impl; [exact H|]. intros e (d & Hd & _). exists d. exact Hd.
Qed.

(** *** Each handler keeps the invariant *)

Lemma consistent_create_user user w :
  consistent w -> (oid_counter w + 2 <= 16 ^ 24)%N ->
  consistent (snd (create_user user w)).
Proof.
  intros [K KI U UC CA CB SP] Hroom.
  destruct (int64 (id user)) eqn:Hr; cycle 1.
  { rewrite (create_user_overflow user w Hr). constructor; assumption. }
  destruct (List.find (matches "id" (VInt (id user))) (db_users w)) as [doc|] eqn:Hf.
  { rewrite (create_user_conflict user w doc Hr Hf). constructor; assumption. }
  rewrite (create_user_new user w Hr Hf). cbn [snd].
  set (c := oid_counter w) in *.
  set (sid := str_of_ObjectId (ObjectId_of_counter c)).
  set (key := drawn_key (entropy w) (drawn w) 20).
  set (api_doc := [("id"%string, VStr sid); ("keys"%string, VList [key_entry key])]).
  set (user_dict := User_dict user ++ [("_id"%string, VStr sid)]).
  set (w1 := mkWorld _ _ _ _ _ _).
  assert (Hc1 : (oid_counter w <= oid_counter w1)%N) by (cbn; lia).
  assert (Hsid : issued w1 sid).
  { exists c. split; [cbn; lia|apply ObjectId_of_str_counter]. }
  assert (Hla : redis_list "api_keys_list" w1
                = lrem_list 0 (text_of (VDict api_doc)) (redis_list "api_keys_list" w)
                  ++ [text_of (VDict api_doc)]).
  { unfold w1, redis_list. cbn [redis]. rewrite lookup_insert_eq. reflexivity. }
  assert (Hlu : redis_list "users_list" w1
                = lrem_list 0 (text_of (VDict user_dict)) (redis_list "users_list" w)
                  ++ [text_of (VDict user_dict)]).
  { unfold w1, redis_list. cbn [redis].
    rewrite lookup_insert_ne by discriminate. rewrite lookup_insert_eq. reflexivity. }
  pose proof (api_doc_json_value sid key) as Hva.
  pose proof (user_dict_json_value user sid) as Hvu.
  constructor.
  - cbn [db_keys w1]. apply Forall_app. split; [exact K|].
    apply List.Forall_cons; [|apply List.Forall_nil].
    apply (stored_key_set_ok sid [key]).
  - cbn [db_keys w1]. apply Forall_app. split.
    + eapply Forall_impl; [exact KI|]. intros d (s & Hs & Hi).
      exists s. split; [exact Hs|]. apply (issued_later w); assumption.
    + apply List.Forall_cons; [|apply List.Forall_nil].
      exists sid. split; [reflexivity|exact Hsid].
  - cbn [db_users w1]. apply Forall_app. split.
    + eapply Forall_impl; [exact U|]. intros d (n & Hn & Hd).
      exists n. split; [cbn; lia|exact Hd].
    + apply List.Forall_cons; [|apply List.Forall_nil].
      exists c. split; [cbn; lia|reflexivity].
  - rewrite Hlu. apply Forall_push.
    + eapply Forall_impl; [exact UC|]. intros e (d & i & Hl & Hi & Hex).
      exists d, i. split; [exact Hl|]. split; [exact Hi|].
      cbn [db_users w1]. apply Exists_app. left. exact Hex.
    + destruct (loads_text_of_dict user_dict Hvu) as (d & Hl & _ & Hg).
      exists d, (id user). split; [exact Hl|]. split; [rewrite Hg; reflexivity|].
      cbn [db_users w1]. apply Exists_app. right. apply Exists_cons_hd.
      unfold matches. cbn. apply Z.eqb_refl.
  - rewrite Hla. apply Forall_push.
    + eapply Forall_impl; [exact CA|]. intros e (d & s & Hl & Hs & Hi).
      exists d, s. split; [exact Hl|]. split; [exact Hs|].
      apply (issued_later w); assumption.
    + destruct (text_of_cached api_doc sid Hva eq_refl) as (d & Hl & Hd).
      exists d, sid. auto.
  - intros s. rewrite Hla, count_push.
    rewrite (text_of_has_id api_doc sid s Hva eq_refl).
    pose proof (count_id_lrem_le (VStr s) (text_of (VDict api_doc))
                  (redis_list "api_keys_list" w)) as Hle.
    destruct (String.eqb_spec sid s) as [<-|Hne].
    + pose proof (fresh_id_not_cached w CA ltac:(fold c; lia)) as Hfresh.
      fold c in Hfresh. fold sid in Hfresh. lia.
    + specialize (CB s). lia.
  - cbn [oid_counter w1]. fold c. lia.
Qed.

Lemma key_doc_ok_set_keys doc new_keys :
  key_doc_ok doc -> Forall key_entry_ok new_keys ->
  key_doc_ok (dict_set doc "keys" (VList new_keys)).
Proof.
  intros (Hst & [o Ho] & _) Hnew. split; [|split].
  - apply storable_set; [exact Hst|]. constructor.
    eapply Forall_impl; [exact Hnew|]. intros k [Hk _]. exact Hk.
  - exists o. rewrite dict_get_set_ne by discriminate. exact Ho.
  - exists new_keys. split; [apply dict_get_set_eq|exact Hnew].
Qed.

(** The cache half of the invariant after the update of the key-set
    cache. *)
Lemma consistent_cache_after w w1 mongo_id doc :
  json_value (VDict doc) -> dict_get doc "id" = Some (VStr mongo_id) ->
  issued w1 mongo_id -> (oid_counter w <= oid_counter w1)%N ->
  redis_list "api_keys_list" w1
  = cache_after mongo_id (text_of (VDict doc)) (redis_list "api_keys_list" w) ->
  Forall (fun e => exists d s,
              json_loads e = Some (VDict d) /\
              dict_get d "id" = Some (VStr s) /\ issued w s)
    (redis_list "api_keys_list" w) ->
  (forall s, (count_id (VStr s) (redis_list "api_keys_list" w) <= 1)%nat) ->
  Forall (fun e => exists d s,
              json_loads e = Some (VDict d) /\
              dict_get d "id" = Some (VStr s) /\ issued w1 s)
    (redis_list "api_keys_list" w1) /\
  (forall s, (count_id (VStr s) (redis_list "api_keys_list" w1) <= 1)%nat).
Proof.
  intros Hv Hid Hiss Hle Hl CA CB. rewrite Hl. split.
  - apply Forall_cache_after.
    + eapply Forall_impl; [exact CA|]. intros e (d & s & Hd & Hs & Hi).
      exists d, s. split; [exact Hd|]. split; [exact Hs|].
      apply (issued_later w); assumption.
    + destruct (text_of_cached doc mongo_id Hv Hid) as (d & Hd & Hg).
      exists d, mongo_id. auto.
  - intros s. destruct (String.eqb_spec mongo_id s) as [<-|Hne].
    + rewrite count_cache_after_same; [lia|apply CB|].
      rewrite (text_of_has_id doc mongo_id mongo_id Hv Hid). apply String.eqb_refl.
    + etransitivity; [apply count_cache_after_other|apply CB].
      rewrite (text_of_has_id doc mongo_id s Hv Hid). apply String.eqb_neq, Hne.
Qed.

Lemma users_cache_kept w w1 :
  redis_list "users_list" w1 = redis_list "users_list" w ->
  db_users w1 = db_users w ->
  Forall (fun e => exists d i,
              json_loads e = Some (VDict d) /\
              dict_get d "id" = Some (VInt i) /\
              Exists (fun doc => matches "id" (VInt i) doc = true) (db_users w))
    (redis_list "users_list" w) ->
  Forall (fun e => exists d i,
              json_loads e = Some (VDict d) /\
              dict_get d "id" = Some (VInt i) /\
              Exists (fun doc => matches "id" (VInt i) doc = true) (db_users w1))
    (redis_list "users_list" w1).
Proof. intros -> ->. auto. Qed.

Lemma consistent_create_api_key mongo_id w :
  consistent w -> (oid_counter w + 2 <= 16 ^ 24)%N ->
  consistent (snd (create_api_key mongo_id w)).
Proof.
  intros Hcons Hroom. pose proof Hcons as [K KI U UC CA CB SP].
  destruct (ObjectId_of_str mongo_id) as [oid|] eqn:Ho.
  2:{ rewrite (create_api_key_invalid _ _ Ho). exact Hcons. }
  destruct (List.find (matches "_id" (VObjectId oid)) (db_users w)) as [u|] eqn:Hu.
  2:{ rewrite (create_api_key_no_user _ _ _ Ho Hu). exact Hcons. }
  assert (Hiss : issued w mongo_id).
  { apply find_some in Hu as [Hin Hm]. apply matches_oid_get in Hm.
    rewrite Forall_forall in U.
    destruct (U u (proj2 (list_elem_of_In _ _) Hin)) as (n & Hn & Hd).
    exists n. split; [exact Hn|]. congruence. }
  pose proof (decodable_of_cached _ _
                (Forall_impl _ _ _ CA
                   (fun e '(ex_intro _ d (ex_intro _ s (conj Hd Hr))) =>
                      ex_intro _ d (conj Hd (ex_intro _ s Hr))))) as Hdec.
  set (key := drawn_key (entropy w) (drawn w) 20).
  destruct (List.find (matches "id" (VStr mongo_id)) (db_keys w)) as [doc|] eqn:Hk.
  - assert (Hok : key_doc_ok doc).
    { apply find_some in Hk as [Hin _]. rewrite Forall_forall in K.
      apply K, list_elem_of_In, Hin. }
    pose proof Hok as (Hst & _ & ks & Hks & Hkeys).
    rewrite (create_api_key_next _ _ _ _ _ _ Ho Hu Hk Hst Hks Hkeys Hdec).
    cbn [snd]. fold key. set (w1 := mkWorld _ _ _ _ _ _).
    assert (Hnew : Forall key_entry_ok (ks ++ [key_entry key])).
    { apply Forall_app. split; [exact Hkeys|].
      apply List.Forall_cons; [apply key_entry_is_ok|apply List.Forall_nil]. }
    set (stored := dict_set doc "keys" (VList (ks ++ [key_entry key]))).
    assert (Hstored : key_doc_ok stored) by (apply key_doc_ok_set_keys; assumption).
    assert (Hid : dict_get (convert_object_ids stored) "id" = Some (VStr mongo_id)).
    { apply convert_object_ids_get; [|constructor]. unfold stored.
      rewrite dict_get_set_ne by discriminate. apply matches_id_get.
      apply find_some in Hk as [_ Hm]. exact Hm. }
    assert (Hl1 : redis_list "api_keys_list" w1
                  = cache_after mongo_id (text_of (VDict (convert_object_ids stored)))
                      (redis_list "api_keys_list" w)).
    { unfold w1, redis_list. cbn [redis]. rewrite lookup_insert_eq. reflexivity. }
    destruct (consistent_cache_after w w1 mongo_id (convert_object_ids stored)
                (storable_convert _ (proj1 Hstored)) Hid Hiss (N.le_refl _) Hl1 CA CB)
      as [CA1 CB1].
    constructor; auto.
    + cbn [db_keys w1]. apply Forall_update_first; [exact K|].
      intros d Hd. apply key_doc_ok_set_keys; assumption.
    + cbn [db_keys w1]. apply Forall_update_first; [exact KI|].
      intros d (s & Hs & Hi). exists s. split; [|exact Hi].
      rewrite dict_get_set_ne by discriminate. exact Hs.
    + apply (users_cache_kept w w1); [|reflexivity|exact UC].
      unfold w1, redis_list. cbn [redis].
      rewrite lookup_insert_ne by discriminate. reflexivity.
  - rewrite (create_api_key_first _ _ _ _ Ho Hu Hk Hdec).
    cbn [snd]. fold key. set (w1 := mkWorld _ _ _ _ _ _).
    set (stored := stored_key_set mongo_id [key] (ObjectId_of_counter (oid_counter w))).
    assert (Hc1 : (oid_counter w <= oid_counter w1)%N) by (cbn; lia).
    assert (Hstored : key_doc_ok stored) by apply stored_key_set_ok.
    assert (Hl1 : redis_list "api_keys_list" w1
                  = cache_after mongo_id (text_of (VDict (convert_object_ids stored)))
                      (redis_list "api_keys_list" w)).
    { unfold w1, redis_list. cbn [redis]. rewrite lookup_insert_eq. reflexivity. }
    destruct (consistent_cache_after w w1 mongo_id (convert_object_ids stored)
                (storable_convert _ (proj1 Hstored)) eq_refl
                (issued_later w w1 _ Hc1 Hiss) Hc1 Hl1 CA CB)
      as [CA1 CB1].
    constructor; auto.
    + cbn [db_keys w1]. apply Forall_app. split; [exact K|].
      apply List.Forall_cons; [exact Hstored|apply List.Forall_nil].
    + cbn [db_keys w1]. apply Forall_app. split.
      * eapply Forall_impl; [exact KI|]. intros d (s & Hs & Hi).
        exists s. split; [exact Hs|]. apply (issued_later w); assumption.
      * apply List.Forall_cons; [|apply List.Forall_nil].
        exists mongo_id. split; [reflexivity|]. apply (issued_later w); assumption.
    + cbn [db_users w1]. eapply Forall_impl; [exact U|]. intros d (n & Hn & Hd).
      exists n. split; [cbn; lia|exact Hd].
    + apply (users_cache_kept w w1); [|reflexivity|exact UC].
      unfold w1, redis_list. cbn [redis].
      rewrite lookup_insert_ne by discriminate. reflexivity.
    + cbn [oid_counter w1]. lia.
Qed.

Lemma consistent_remove_api_key mongo_id key_to_remove w :
  consistent w -> consistent (snd (remove_api_key mongo_id key_to_remove w)).
Proof.
  intros Hcons. pose proof Hcons as [K KI U UC CA CB SP].
  destruct (List.find (matches "id" (VStr mongo_id)) (db_keys w)) as [doc|] eqn:Hk.
  2:{ rewrite (remove_api_key_no_doc _ _ _ Hk). exact Hcons. }
  assert (Hin : doc ∈ db_keys w)
    by (apply find_some in Hk as [Hin _]; apply list_elem_of_In, Hin).
  assert (Hmid : dict_get doc "id" = Some (VStr mongo_id))
    by (apply matches_id_get; apply find_some in Hk as [_ Hm]; exact Hm).
  assert (Hok : key_doc_ok doc) by (rewrite Forall_forall in K; apply K, Hin).
  assert (Hiss : issued w mongo_id).
  { rewrite Forall_forall in KI. destruct (KI doc Hin) as (s & Hs & Hi). congruence. }
  pose proof Hok as (Hst & _ & ks & Hks & Hkeys).
  destruct (Nat.eq_dec (length (without_key key_to_remove ks)) (length ks))
    as [Hlen|Hlen].
  { rewrite (remove_api_key_no_key _ _ _ _ _ Hk Hks Hkeys Hlen). exact Hcons. }
  pose proof (decodable_of_cached _ _
                (Forall_impl _ _ _ CA
                   (fun e '(ex_intro _ d (ex_intro _ s (conj Hd Hr))) =>
                      ex_intro _ d (conj Hd (ex_intro _ s Hr))))) as Hdec.
  pose proof (remove_api_key_done _ _ _ _ _ Hk Hks Hkeys Hlen Hdec) as Hrun.
  cbv zeta in Hrun. rewrite Hrun. cbn [snd]. set (w1 := mkWorld _ _ _ _ _ _).
  assert (Hkept : Forall key_entry_ok (without_key key_to_remove ks)).
  { apply Forall_forall. intros k Hk'.
    apply list_elem_of_In, without_key_in in Hk' as [Hk' _].
    rewrite Forall_forall in Hkeys. apply Hkeys, list_elem_of_In, Hk'. }
  assert (Hv : json_value
                 (VDict [("id"%string, VStr mongo_id);
                         ("keys"%string, VList (without_key key_to_remove ks))])).
  { constructor; [distinct_keys|].
    repeat apply List.Forall_cons; try apply List.Forall_nil; cbn [snd].
    - constructor.
    - apply (json_value_list_filter _ _ Hkeys). }
  assert (Hl1 : redis_list "api_keys_list" w1
                = cache_after mongo_id
                    (text_of (VDict [("id"%string, VStr mongo_id);
                                     ("keys"%string,
                                      VList (without_key key_to_remove ks))]))
                    (redis_list "api_keys_list" w)).
  { unfold w1, redis_list. cbn [redis]. rewrite lookup_insert_eq. reflexivity. }
  destruct (consistent_cache_after w w1 mongo_id _ Hv eq_refl Hiss (N.le_refl _)
              Hl1 CA CB) as [CA1 CB1].
  constructor; auto.
  - cbn [db_keys w1]. apply Forall_update_first; [exact K|].
    intros d Hd. apply key_doc_ok_set_keys; assumption.
  - cbn [db_keys w1]. apply Forall_update_first; [exact KI|].
    intros d (s & Hs & Hi). exists s. split; [|exact Hi].
    rewrite dict_get_set_ne by discriminate. exact Hs.
  - apply (users_cache_kept w w1); [|reflexivity|exact UC].
    unfold w1, redis_list. cbn [redis].
    rewrite lookup_insert_ne by discriminate. reflexivity.
Qed.

Lemma consistent_empty rnd : consistent (empty_world rnd).
Proof.
  assert (Hl : forall name, redis_list name (empty_world rnd) = [])
    by (intros name; unfold redis_list; cbn [redis empty_world];
        rewrite lookup_empty; reflexivity).
  constructor; rewrite ?Hl; cbn [db_keys db_users oid_counter empty_world];
    try apply List.Forall_nil.
  - intros s. cbn. lia.
  - discriminate.
Qed.

(** Every world the sequential service reaches is consistent: the
    hypotheses of the properties above are invariants of the service. *)
Theorem reachable_consistent w : reachable w -> consistent w.
Proof.
  induction 1 as [rnd|w r Hr IH Hroom]; [apply consistent_empty|].
  destruct r as [user|mongo_id|mongo_id key_to_remove|mongo_id|user_id]; cbn [serve].
  - apply consistent_create_user; assumption.
  - apply consistent_create_api_key; assumption.
  - apply consistent_remove_api_key; assumption.
  - unfold list_api_keys. rewrite run_bind. unfold lrange at 1.
    rewrite first_entry_pure. exact IH.
  - unfold get_user. rewrite run_bind. unfold lrange at 1.
    rewrite first_entry_pure. exact IH.
Qed.

(** What the invariant gives the properties: their hypotheses. *)
Lemma consistent_hypotheses w :
  consistent w ->
  Forall key_doc_ok (db_keys w) /\
  Forall decodable (redis_list "api_keys_list" w) /\
  Forall decodable (redis_list "users_list" w) /\
  (forall s, (count_id (VStr s) (redis_list "api_keys_list" w) <= 1)%nat) /\
  (forall i, List.find (matches "id" (VInt i)) (db_users w) = None ->
             count_id (VInt i) (redis_list "users_list" w) = 0%nat) /\
  ((oid_counter w < 16 ^ 24)%N ->
   count_id (VStr (str_of_ObjectId (ObjectId_of_counter (oid_counter w))))
     (redis_list "api_keys_list" w) = 0%nat).
Proof.
  intros [K KI U UC CA CB SP]. split; [exact K|]. split; [|split; [|split; [exact CB|split]]].
  - eapply Forall_impl; [exact CA|]. intros e (d & _ & Hd & _). exists d. exact Hd.
  - eapply Forall_impl; [exact UC|]. intros e (d & _ & Hd & _). exists d. exact Hd.
  - intros i Hf. apply count_id_none.
    destruct (List.find (entry_has_id (VInt i)) _) as [e|] eqn:He; [exfalso|reflexivity].
    apply find_some in He as [Hin He]. rewrite Forall_forall in UC.
    destruct (UC e (proj2 (list_elem_of_In _ _) Hin)) as (d & j & Hl & Hj & Hex).
    rewrite (entry_has_id_decoded _ _ _ Hl), Hj in He. cbn in He.
    apply Z.eqb_eq in He. subst j.
    apply Exists_exists in Hex as (doc & Hdoc & Hm).
    apply list_elem_of_In in Hdoc.
    pose proof (find_none _ _ Hf doc Hdoc). congruence.
  - apply fresh_id_not_cached, CA.
Qed.

End invariant.

(** ** Further properties of the handlers *)

Section utilities.

(** *** [convert_object_ids] *)

Lemma convert_object_ids_map doc :
  convert_object_ids doc = map (fun kv => (fst kv, convert_value (snd kv))) doc.
Proof.
  unfold convert_object_ids. apply map_ext. intros [k v]. cbn [fst snd].
  destruct v; reflexivity.
Qed.

Lemma convert_value_idem v : convert_value (convert_value v) = convert_value v.
Proof. destruct v; reflexivity. Qed.

Lemma convert_value_fixed v : is_object_id v = false -> convert_value v = v.
Proof. destruct v; try reflexivity; discriminate. Qed.

Lemma convert_value_plain v : is_object_id (convert_value v) = false.
Proof. destruct v; reflexivity. Qed.

(** X1.  [convert_object_ids] keeps the field names in their order, leaves
    no [ObjectId] at the top level of the document, changes nothing in a
    document that has none there, and applying it twice is applying it
    once. *)
Theorem convert_object_ids_top_level (doc : dict) :
  dict_keys (convert_object_ids doc) = dict_keys doc /\
  Forall (fun kv => is_object_id (snd kv) = false) (convert_object_ids doc) /\
  (Forall (fun kv => is_object_id (snd kv) = false) doc ->
   convert_object_ids doc = doc) /\
  convert_object_ids (convert_object_ids doc) = convert_object_ids doc.
Proof.
  rewrite !convert_object_ids_map. repeat split.
  - unfold dict_keys. rewrite map_map. reflexivity.
  - apply Forall_forall. intros kv Hin. apply list_elem_of_In, in_map_iff in Hin.
    destruct Hin as (x & <- & _). apply convert_value_plain.
  - intros H. induction doc as [|[k v] doc IH]; [reflexivity|].
    apply Forall_cons in H as [Hv Hd]. cbn [map fst snd] in *.
    rewrite (convert_value_fixed _ Hv), (IH Hd). reflexivity.
  - rewrite map_map. apply map_ext. intros [k v]. cbn [fst snd].
    rewrite convert_value_idem. reflexivity.
Qed.

Lemma serialisable_convert_value v :
  serialisable (convert_value v) = (is_object_id v || serialisable v)%bool.
Proof. destruct v; reflexivity. Qed.

Lemma dumps_type_error v w :
  serialisable v = false -> dumps v w = (Raise TypeError, w).
Proof. intros H. unfold dumps, json_dumps. rewrite H. reflexivity. Qed.

(** X2.  [convert_object_ids] converts the top level only: serialising the
    converted document raises [TypeError] exactly when some field holds an
    [ObjectId] below its top level, inside a list or a dictionary; the
    failed call changes nothing. *)
Theorem convert_object_ids_nested (doc : dict) (w : world) :
  (dumps (VDict (convert_object_ids doc)) w = (Raise TypeError, w)
   <-> Exists (fun kv => is_object_id (snd kv) = false /\
                         serialisable (snd kv) = false) doc) /\
  (Forall (fun kv => is_object_id (snd kv) = true \/ serialisable (snd kv) = true) doc ->
   exists text, dumps (VDict (convert_object_ids doc)) w = (Return text, w)).
Proof.
  assert (E : serialisable (VDict (convert_object_ids doc))
              = forallb (fun kv => (is_object_id (snd kv) || serialisable (snd kv))%bool) doc).
  { cbn [serialisable]. rewrite convert_object_ids_map.
    induction doc as [|[k v] doc IH]; [reflexivity|].
    cbn [map forallb fst snd]. rewrite serialisable_convert_value, IH. reflexivity. }
  split; [split|].
  - intros H. unfold dumps, json_dumps in H. rewrite E in H.
    destruct (forallb _ doc) eqn:Hall; [discriminate|].
    clear H E. induction doc as [|[k v] doc IH]; [discriminate|].
    cbn [forallb snd] in Hall. apply andb_false_iff in Hall as [Hv|Hd].
    + apply Exists_cons_hd. cbn [snd]. apply orb_false_iff in Hv. exact Hv.
    + apply Exists_cons_tl, IH, Hd.
  - intros H. apply dumps_type_error. rewrite E. clear E.
    induction H as [[k v] doc [Hv Hs]|[k v] doc H IH]; cbn [forallb snd] in *.
    + rewrite Hv, Hs. reflexivity.
    + rewrite IH. apply andb_false_r.
  - intros H. exists (text_of (VDict (convert_object_ids doc))).
    apply dumps_run. rewrite E. apply forallb_forall. intros kv Hin.
    rewrite Forall_forall in H. apply orb_true_iff, H, list_elem_of_In, Hin.
Qed.


Lemma convert_object_ids_lookup doc k :
  dict_get (convert_object_ids doc) k = option_map convert_value (dict_get doc k).
Proof. rewrite convert_object_ids_map. apply dict_get_map. Qed.

(** X3.  A stored document, put through [convert_object_ids] and
    [json.dumps] as the handlers do before a push, always serialises, and
    the text decodes to a dictionary equal to the converted document: under
    each field name the stored value, an [ObjectId] as its text. *)
Theorem stored_document_cache_text (doc : dict) (w : world) :
  storable doc ->
  exists text d,
    dumps (VDict (convert_object_ids doc)) w = (Return text, w) /\
    json_loads text = Some (VDict d) /\
    value_eqb (VDict d) (VDict (convert_object_ids doc)) = true /\
    forall k, dict_get d k
              = option_map (fun v => canon (convert_value v)) (dict_get doc k).
Proof.
  intros Hs. pose proof (storable_convert doc Hs) as Hv.
  destruct (loads_text_of_dict _ Hv) as (d & Hl & Hc & Hget).
  exists (text_of (VDict (convert_object_ids doc))), d. repeat split.
  - apply dumps_run, json_value_serialisable, Hv.
  - exact Hl.
  - rewrite <- Hc. apply canon_eqb, Hv.
  - intros k. rewrite Hget, convert_object_ids_lookup.
    destruct (dict_get doc k); reflexivity.
Qed.

Lemma stored_document_cache_text_witness :
  let doc := stored_key_set "u1" ["k1"%string] (ObjectId_of_counter 7) in
  storable doc /\
  exists text d,
    dumps (VDict (convert_object_ids doc)) (empty_world sample_entropy)
    = (Return text, empty_world sample_entropy) /\
    json_loads text = Some (VDict d) /\
    value_eqb (VDict d) (VDict (convert_object_ids doc)) = true /\
    forall k, dict_get d k
              = option_map (fun v => canon (convert_value v)) (dict_get doc k).
Proof.
  cbv zeta.
  pose proof (stored_key_set_ok "u1" ["k1"%string] (ObjectId_of_counter 7)) as [Hs _].
  split; [exact Hs|].
  exact (stored_document_cache_text _ (empty_world sample_entropy) Hs).
Defined.

(** *** [generate_api_key] *)

Lemma list_of_drawn_key rnd start n :
  list_ascii_of_string (drawn_key rnd start n) = drawn_chars rnd start n.
Proof. unfold drawn_key. apply list_ascii_of_string_of_list_ascii. Qed.

Lemma drawn_chars_split rnd start n m :
  drawn_chars rnd start (n + m)
  = drawn_chars rnd start n ++ drawn_chars rnd (start + n) m.
Proof.
  revert start. induction n as [|n IH]; intros start.
  - cbn [Nat.add drawn_chars app]. rewrite Nat.add_0_r. reflexivity.
  - cbn [Nat.add drawn_chars app]. rewrite IH. do 3 f_equal. lia.
Qed.

Lemma string_of_list_app a b :
  string_of_list_ascii (a ++ b)
  = String.append (string_of_list_ascii a) (string_of_list_ascii b).
Proof. induction a as [|c a IH]; cbn; [reflexivity|]. rewrite IH. reflexivity. Qed.

(** X4.  [generate_api_key(length)], for every length: the key has exactly
    [length] characters, each of the alphabet; the call consumes exactly
    [length] draws of the random source and touches neither store; and the
    next call continues where this one stopped, so that two calls of
    lengths [n] and [m] spell what one call of length [n + m] would. *)
Theorem generate_api_key_any_length (n m : nat) (w : world) :
  exists key w1 key' w2,
    generate_api_key n w = (Return key, w1) /\
    String.length key = n /\
    Forall (fun c => In c (list_ascii_of_string chars)) (list_ascii_of_string key) /\
    w1 = mkWorld (db_users w) (db_keys w) (redis w) (oid_counter w) (entropy w)
           (drawn w + n) /\
    generate_api_key m w1 = (Return key', w2) /\
    drawn w2 = (drawn w + n + m)%nat /\
    generate_api_key (n + m) w = (Return (String.append key key'), w2).
Proof.
  exists (drawn_key (entropy w) (drawn w) n), (with_drawn (drawn w + n) w),
    (drawn_key (entropy w) (drawn w + n) m),
    (with_drawn (drawn w + n + m) w).
  rewrite !generate_api_key_run. cbn [with_drawn drawn entropy].
  repeat split.
  - apply drawn_key_length.
  - rewrite list_of_drawn_key. apply drawn_chars_alphabet.
  - unfold with_drawn. cbn [db_users db_keys redis oid_counter entropy drawn].
    f_equal; [f_equal|f_equal; lia]. unfold drawn_key.
    rewrite drawn_chars_split. apply string_of_list_app.
Qed.


Lemma alphabet_plain :
  Forall (fun c => escape_char c = [c]) (list_ascii_of_string chars).
Proof.
  assert (H : forallb (fun c => match escape_char c with
                                | [x] => Ascii.eqb x c
                                | _ => false
                                end) (list_ascii_of_string chars) = true)
    by (vm_compute; reflexivity).
  rewrite forallb_forall in H. apply Forall_forall. intros c Hc.
  specialize (H c (proj1 (list_elem_of_In _ _) Hc)).
  destruct (escape_char c) as [|x [|y r]]; try discriminate.
  apply Ascii.eqb_eq in H. congruence.
Qed.

Lemma flat_map_plain cs :
  Forall (fun c => escape_char c = [c]) cs -> flat_map escape_char cs = cs.
Proof.
  induction 1 as [|c cs Hc _ IH]; [reflexivity|].
  cbn [flat_map]. rewrite Hc, IH. reflexivity.
Qed.

(** X5.  The alphabet of [generate_api_key] has 76 distinct characters, and
    none of them is one [json.dumps] escapes: whatever the length, the JSON
    text of a generated key is the key itself between two quotes, so a key
    reads in a cache entry exactly as it was returned to the caller. *)
Theorem generated_key_plain_in_json (n : nat) (w : world) :
  length (list_ascii_of_string chars) = 76%nat /\
  NoDup (list_ascii_of_string chars) /\
  exists key,
    fst (generate_api_key n w) = Return key /\
    encode (VStr key) = dquote :: list_ascii_of_string key ++ [dquote].
Proof.
  split; [reflexivity|]. split; [apply (bool_decide_unpack _); vm_compute; exact I|].
  exists (drawn_key (entropy w) (drawn w) n). rewrite generate_api_key_run.
  split; [reflexivity|]. cbn [encode]. unfold encode_string.
  rewrite list_of_drawn_key, flat_map_plain; [reflexivity|].
  pose proof (drawn_chars_alphabet (entropy w) (drawn w) n) as Hin.
  pose proof alphabet_plain as Hp. rewrite Forall_forall in Hin, Hp.
  apply Forall_forall. intros c Hc. apply Hp, list_elem_of_In, Hin, Hc.
Qed.

(** *** The readers *)

(** X6.  [list_api_keys] and [get_user] write nothing, in any state of the
    stores and whatever their outcome: a failed read, on a cache entry
    that does not decode included, leaves the world as it was. *)
Theorem readers_never_write (mongo_id : string) (user_id : Z) (w : world) :
  snd (list_api_keys mongo_id w) = w /\ snd (get_user user_id w) = w.
Proof.
  unfold list_api_keys, get_user. rewrite !run_bind. unfold lrange.
  split; apply first_entry_pure.
Qed.

Lemma first_entry_skip wanted detail pre rest w :
  Forall decodable pre -> List.find (entry_has_id wanted) pre = None ->
  first_entry wanted detail (pre ++ rest) w = first_entry wanted detail rest w.
Proof.
  induction pre as [|e pre IH]; intros Hdec Hf; [reflexivity|].
  apply Forall_cons in Hdec as [[d Hd] Hdec]. cbn [List.find] in Hf.
  rewrite (entry_has_id_decoded _ _ _ Hd) in Hf.
  cbn [app first_entry]. rewrite run_bind. unfold loads. rewrite Hd, run_ret.
  rewrite run_bind. cbn [get]. rewrite run_ret.
  destruct (opt_eqb (dict_get d "id") wanted); [discriminate|]. apply IH; assumption.
Qed.

Lemma first_entry_not_dict wanted detail bad v post w :
  json_loads bad = Some v -> (forall d, v <> VDict d) ->
  first_entry wanted detail (bad :: post) w = (Raise AttributeError, w).
Proof.
  intros Hl Hv. cbn [first_entry]. rewrite run_bind. unfold loads. rewrite Hl, run_ret.
  rewrite run_bind. destruct v as [n|s|l|d|o]; try reflexivity.
  exfalso. apply (Hv d). reflexivity.
Qed.

(** X7.  A cache entry that is JSON but not an object (a list, a number, a
    string) stops both readers with [AttributeError] when it stands before
    the first entry of the requested id: the entries after it are never
    looked at, a matching one among them included. *)
Theorem readers_stop_at_non_object
    (mongo_id : string) (user_id : Z) (w : world)
    (pre post : list string) (bad : string) (v : value) :
  json_loads bad = Some v -> (forall d, v <> VDict d) ->
  Forall decodable pre ->
  (redis_list "api_keys_list" w = pre ++ bad :: post ->
   List.find (entry_has_id (VStr mongo_id)) pre = None ->
   list_api_keys mongo_id w = (Raise AttributeError, w)) /\
  (redis_list "users_list" w = pre ++ bad :: post ->
   List.find (entry_has_id (VInt user_id)) pre = None ->
   get_user user_id w = (Raise AttributeError, w)).
Proof.
  intros Hl Hv Hdec. split; intros Hc Hf.
  - unfold list_api_keys. rewrite run_bind. unfold lrange. rewrite Hc.
    rewrite (first_entry_skip _ _ _ _ _ Hdec Hf).
    apply (first_entry_not_dict _ _ _ _ _ _ Hl Hv).
  - unfold get_user. rewrite run_bind. unfold lrange. rewrite Hc.
    rewrite (first_entry_skip _ _ _ _ _ Hdec Hf).
    apply (first_entry_not_dict _ _ _ _ _ _ Hl Hv).
Qed.


(** *** What the key-set handlers leave alone *)

Lemma preserves_ret {B A} (f : world -> B) (a : A) : preserves f (mret a : M A).
Proof. intros w. reflexivity. Qed.

Lemma preserves_raise {B A} (f : world -> B) e : preserves f (raise e : M A).
Proof. intros w. reflexivity. Qed.

Lemma preserves_bind {B A C} (f : world -> B) (m : M A) (k : A -> M C) :
  preserves f m -> (forall a, preserves f (k a)) -> preserves f (m ≫= k).
Proof.
  intros Hm Hk w. rewrite run_bind. specialize (Hm w).
  destruct (m w) as [[a|e] w1]; cbn [snd] in *.
  - rewrite (Hk a w1). exact Hm.
  - exact Hm.
Qed.

Lemma preserves_find_one {B} (f : world -> B) c field v :
  preserves f (find_one c field v).
Proof. intros w. unfold find_one. destruct (bson_encodable v); reflexivity. Qed.

Lemma preserves_lrange {B} (f : world -> B) name : preserves f (lrange name).
Proof. intros w. reflexivity. Qed.

Lemma preserves_dumps {B} (f : world -> B) v : preserves f (dumps v).
Proof. intros w. unfold dumps. destruct (json_dumps v); reflexivity. Qed.

Lemma preserves_loads {B} (f : world -> B) text : preserves f (loads text).
Proof. intros w. unfold loads. destruct (json_loads text); reflexivity. Qed.

Lemma preserves_getitem {B} (f : world -> B) v k : preserves f (getitem v k).
Proof.
  intros w. destruct v as [n|s|l|d|o]; try reflexivity.
  cbn [getitem]. destruct (dict_get d k); reflexivity.
Qed.

Lemma preserves_get {B} (f : world -> B) v k : preserves f (get v k).
Proof. intros w. destruct v; reflexivity. Qed.

Lemma preserves_iter {B} (f : world -> B) v : preserves f (iter v).
Proof. intros w. destruct v; reflexivity. Qed.

Lemma preserves_len {B} (f : world -> B) v : preserves f (len v).
Proof. intros w. destruct v; reflexivity. Qed.

Lemma preserves_append {B} (f : world -> B) v x : preserves f (append v x).
Proof. intros w. destruct v; reflexivity. Qed.

Lemma preserves_filter_keys {B} (f : world -> B) key_to_remove ks :
  preserves f (filter_keys key_to_remove ks).
Proof. intros w. rewrite filter_keys_pure. reflexivity. Qed.

Lemma users_part_keys_cache l w :
  users_part (set_redis (<["api_keys_list"%string := l]> (redis w)) w) = users_part w.
Proof.
  unfold users_part, redis_list. cbn [set_redis db_users redis].
  rewrite lookup_insert_ne by discriminate. reflexivity.
Qed.

Lemma users_part_rpush text : preserves users_part (rpush "api_keys_list" text).
Proof. intros w. apply users_part_keys_cache. Qed.

Lemma users_part_lrem count text :
  preserves users_part (lrem "api_keys_list" count text).
Proof. intros w. apply users_part_keys_cache. Qed.

Lemma users_part_insert_keys doc : preserves users_part (insert_one keys doc).
Proof.
  intros w. unfold insert_one. destruct (bson_encodable (VDict doc)); reflexivity.
Qed.

Lemma users_part_update_keys field v k x :
  preserves users_part (update_one keys field v k x).
Proof. intros w. reflexivity. Qed.

Lemma users_part_generate n : preserves users_part (generate_api_key n).
Proof. intros w. rewrite generate_api_key_run. reflexivity. Qed.

Lemma users_part_remove_old_entry mongo_id entries :
  preserves users_part (remove_old_entry mongo_id entries).
Proof.
  induction entries as [|e entries IH]; [apply preserves_ret|].
  cbn [remove_old_entry].
  apply preserves_bind; [apply preserves_loads|intros entry_dict].
  apply preserves_bind; [apply preserves_get|intros entry_id].
  destruct (opt_eqb entry_id (VStr mongo_id)); [apply users_part_lrem|exact IH].
Qed.

Lemma users_part_create_api_key mongo_id :
  preserves users_part (create_api_key mongo_id).
Proof.
  unfold create_api_key.
  destruct (ObjectId_of_str mongo_id) as [oid|]; [|apply preserves_raise].
  apply preserves_bind; [apply preserves_find_one|intros mongo_user].
  destruct (negb (truthy mongo_user)); [apply preserves_raise|].
  apply preserves_bind; [apply users_part_generate|intros new_key].
  apply preserves_bind; [apply preserves_find_one|intros found].
  apply preserves_bind.
  { destruct (negb (truthy found)).
    - apply preserves_bind; [apply users_part_insert_keys|intros inserted].
      apply preserves_ret.
    - apply preserves_bind; [apply preserves_getitem|intros old_keys].
      apply preserves_bind; [apply preserves_append|intros new_keys].
      apply preserves_bind; [apply users_part_update_keys|intros _].
      apply preserves_ret. }
  intros key_doc.
  apply preserves_bind; [apply preserves_lrange|intros old_entries].
  apply preserves_bind; [apply users_part_remove_old_entry|intros _].
  apply preserves_bind; [apply preserves_dumps|intros updated_json].
  apply preserves_bind; [apply users_part_rpush|intros _].
  apply preserves_ret.
Qed.

Lemma users_part_remove_api_key mongo_id key_to_remove :
  preserves users_part (remove_api_key mongo_id key_to_remove).
Proof.
  unfold remove_api_key.
  apply preserves_bind; [apply preserves_find_one|intros found].
  destruct (negb (truthy found)); [apply preserves_raise|].
  apply preserves_bind; [apply preserves_getitem|intros all_keys].
  apply preserves_bind; [apply preserves_iter|intros visited].
  apply preserves_bind; [apply preserves_filter_keys|intros filtered_keys].
  apply preserves_bind; [apply preserves_len|intros n].
  destruct (Nat.eqb (length filtered_keys) n); [apply preserves_raise|].
  apply preserves_bind; [apply users_part_update_keys|intros _].
  apply preserves_bind; [apply preserves_dumps|intros updated_json].
  apply preserves_bind; [apply preserves_lrange|intros old_entries].
  apply preserves_bind; [apply users_part_remove_old_entry|intros _].
  apply preserves_bind; [apply users_part_rpush|intros _].
  apply preserves_ret.
Qed.

Lemma sources_remove_old_entry mongo_id entries :
  preserves sources (remove_old_entry mongo_id entries).
Proof.
  induction entries as [|e entries IH]; [apply preserves_ret|].
  cbn [remove_old_entry].
  apply preserves_bind; [apply preserves_loads|intros entry_dict].
  apply preserves_bind; [apply preserves_get|intros entry_id].
  destruct (opt_eqb entry_id (VStr mongo_id)); [|exact IH].
  intros w. reflexivity.
Qed.

Lemma sources_remove_api_key mongo_id key_to_remove :
  preserves sources (remove_api_key mongo_id key_to_remove).
Proof.
  unfold remove_api_key.
  apply preserves_bind; [apply preserves_find_one|intros found].
  destruct (negb (truthy found)); [apply preserves_raise|].
  apply preserves_bind; [apply preserves_getitem|intros all_keys].
  apply preserves_bind; [apply preserves_iter|intros visited].
  apply preserves_bind; [apply preserves_filter_keys|intros filtered_keys].
  apply preserves_bind; [apply preserves_len|intros n].
  destruct (Nat.eqb (length filtered_keys) n); [apply preserves_raise|].
  apply preserves_bind; [intros w; destruct w; reflexivity|intros _].
  apply preserves_bind; [apply preserves_dumps|intros updated_json].
  apply preserves_bind; [apply preserves_lrange|intros old_entries].
  apply preserves_bind; [apply sources_remove_old_entry|intros _].
  apply preserves_bind; [intros w; reflexivity|intros _].
  apply preserves_ret.
Qed.

(** X8.  [create_api_key] and [remove_api_key] never touch the users: in
    any state of the stores and whatever their outcome, failures half way
    included, the users collection and the users cache list are left as
    they were; [remove_api_key] moreover draws no randomness and takes no
    new identifier. *)
Theorem key_handlers_leave_users (mongo_id key_to_remove : string) (w : world) :
  let w1 := snd (create_api_key mongo_id w) in
  let w2 := snd (remove_api_key mongo_id key_to_remove w) in
  db_users w1 = db_users w /\
  redis_list "users_list" w1 = redis_list "users_list" w /\
  db_users w2 = db_users w /\
  redis_list "users_list" w2 = redis_list "users_list" w /\
  oid_counter w2 = oid_counter w /\ drawn w2 = drawn w.
Proof.
  cbv zeta.
  pose proof (users_part_create_api_key mongo_id w) as H1.
  pose proof (users_part_remove_api_key mongo_id key_to_remove w) as H2.
  pose proof (sources_remove_api_key mongo_id key_to_remove w) as H3.
  unfold users_part, sources in *.
  injection H1 as -> ->. injection H2 as -> ->. injection H3 as -> ->.
  repeat split.
Qed.

End utilities.

Section partial_failures.

(** *** Failures between the store and the cache *)

Lemma remove_old_entry_skip mongo_id pre rest w :
  Forall decodable pre -> List.find (entry_has_id (VStr mongo_id)) pre = None ->
  remove_old_entry mongo_id (pre ++ rest) w = remove_old_entry mongo_id rest w.
Proof.
  induction pre as [|e pre IH]; intros Hdec Hf; [reflexivity|].
  apply Forall_cons in Hdec as [[d Hd] Hdec]. cbn [List.find] in Hf.
  rewrite (entry_has_id_decoded _ _ _ Hd) in Hf.
  cbn [app remove_old_entry]. rewrite run_bind. unfold loads. rewrite Hd, run_ret.
  rewrite run_bind. cbn [get]. rewrite run_ret.
  destruct (opt_eqb (dict_get d "id") (VStr mongo_id)); [discriminate|].
  apply IH; assumption.
Qed.

Lemma remove_old_entry_not_dict mongo_id bad v post w :
  json_loads bad = Some v -> (forall d, v <> VDict d) ->
  remove_old_entry mongo_id (bad :: post) w = (Raise AttributeError, w).
Proof.
  intros Hl Hv. cbn [remove_old_entry]. rewrite run_bind. unfold loads.
  rewrite Hl, run_ret. rewrite run_bind.
  destruct v as [n|s|l|d|o]; try reflexivity. exfalso. apply (Hv d). reflexivity.
Qed.

Lemma cache_loop_stops {A} mongo_id (k : M A) w pre bad v post :
  redis_list "api_keys_list" w = pre ++ bad :: post ->
  Forall decodable pre -> List.find (entry_has_id (VStr mongo_id)) pre = None ->
  json_loads bad = Some v -> (forall d, v <> VDict d) ->
  (old_entries ← lrange "api_keys_list";
   remove_old_entry mongo_id old_entries;; k) w = (Raise AttributeError, w).
Proof.
  intros Hc Hdec Hf Hl Hv. rewrite run_bind. unfold lrange at 1. rewrite run_bind, Hc.
  rewrite (remove_old_entry_skip _ _ _ _ Hdec Hf).
  rewrite (remove_old_entry_not_dict _ _ _ _ _ Hl Hv). reflexivity.
Qed.

Lemma without_key_twice key_to_remove ks :
  without_key key_to_remove (without_key key_to_remove ks)
  = without_key key_to_remove ks.
Proof.
  unfold without_key. induction ks as [|k ks IH]; [reflexivity|].
  cbn [List.filter].
  destruct (negb (opt_eqb (key_of k) (VStr key_to_remove))) eqn:E; [|exact IH].
  cbn [List.filter]. rewrite E, IH. reflexivity.
Qed.

Lemma without_key_ok key_to_remove ks :
  Forall key_entry_ok ks -> Forall key_entry_ok (without_key key_to_remove ks).
Proof.
  intros H. apply Forall_forall. intros k Hk.
  apply list_elem_of_In, filter_In in Hk as [Hk _].
  rewrite Forall_forall in H. apply (H k), list_elem_of_In, Hk.
Qed.

(** X9.  [remove_api_key] writes the store before it refreshes the cache,
    and nothing undoes the write: when the cache loop meets an entry that is
    not an object before the entry of the id, the handler raises
    [AttributeError] with the key already removed from the stored key set
    and the cache untouched; asking again answers 404 (the key is gone from
    the store), so the stale cache entry is not repaired by a retry. *)
Theorem remove_api_key_not_atomic
    (mongo_id key_to_remove : string) (w : world) (doc : dict) (ks : list value)
    (pre post : list string) (bad : string) (v : value) :
  List.find (matches "id" (VStr mongo_id)) (db_keys w) = Some doc ->
  dict_get doc "keys" = Some (VList ks) -> Forall key_entry_ok ks ->
  length (without_key key_to_remove ks) <> length ks ->
  redis_list "api_keys_list" w = pre ++ bad :: post ->
  Forall decodable pre -> List.find (entry_has_id (VStr mongo_id)) pre = None ->
  json_loads bad = Some v -> (forall d, v <> VDict d) ->
  let kept := without_key key_to_remove ks in
  let w1 := snd (remove_api_key mongo_id key_to_remove w) in
  fst (remove_api_key mongo_id key_to_remove w) = Raise AttributeError /\
  List.find (matches "id" (VStr mongo_id)) (db_keys w1)
  = Some (dict_set doc "keys" (VList kept)) /\
  redis w1 = redis w /\ db_users w1 = db_users w /\
  remove_api_key mongo_id key_to_remove w1
  = (Raise (HTTPException 404 "API key not found"), w1).
Proof.
  intros Hf Hks Hok Hlen Hc Hdec Hnone Hl Hv. cbv zeta.
  assert (Hrun : remove_api_key mongo_id key_to_remove w
                 = (Raise AttributeError,
                    set_docs keys
                      (update_first (matches "id" (VStr mongo_id))
                         (fun d => dict_set d "keys"
                                     (VList (without_key key_to_remove ks)))
                         (db_keys w)) w)).
  { unfold remove_api_key. rewrite run_bind.
    unfold find_one at 1; cbn [bson_encodable]. rewrite find_matches_truthy. cbn [docs]. rewrite Hf.
    cbn [negb from_option Datatypes.id]. rewrite run_bind. cbn [getitem].
    rewrite Hks, run_ret.
    rewrite run_bind. cbn [iter]. rewrite run_ret.
    rewrite run_bind, (filter_keys_run _ _ _ Hok).
    rewrite run_bind. cbn [len]. rewrite run_ret.
    apply Nat.eqb_neq in Hlen. rewrite Hlen.
    rewrite run_bind. unfold update_one at 1.
    rewrite run_bind, dumps_run.
    2:{ apply json_value_serialisable. constructor; [distinct_keys|].
        repeat apply List.Forall_cons; try apply List.Forall_nil; cbn [snd].
        - constructor.
        - apply (json_value_list_filter _ _ Hok). }
    cbn [docs].
    apply (cache_loop_stops mongo_id _ (set_docs keys _ w) pre bad v post);
      assumption. }
  rewrite Hrun. cbn [fst snd set_docs db_keys db_users redis].
  pose proof (find_after_set_keys mongo_id doc
                (VList (without_key key_to_remove ks)) _ Hf) as Hf1.
  repeat split; try exact Hf1.
  apply (remove_api_key_no_key mongo_id key_to_remove _
           (dict_set doc "keys" (VList (without_key key_to_remove ks)))
           (without_key key_to_remove ks)).
  - exact Hf1.
  - apply dict_get_set_eq.
  - apply without_key_ok, Hok.
  - rewrite without_key_twice. reflexivity.
Qed.


(** X10.  [create_api_key] has the same gap: the new key is drawn and
    appended to the stored key set before the cache loop runs, so when the
    loop stops on an entry that is not an object the request fails with
    [AttributeError], the caller never receives the key, and the store
    nevertheless holds it; the cache is untouched. *)
Theorem create_api_key_not_atomic
    (mongo_id : string) (oid : ObjectId) (w : world) (u doc : dict)
    (ks : list value) (pre post : list string) (bad : string) (v : value) :
  ObjectId_of_str mongo_id = Some oid ->
  List.find (matches "_id" (VObjectId oid)) (db_users w) = Some u ->
  List.find (matches "id" (VStr mongo_id)) (db_keys w) = Some doc ->
  dict_get doc "keys" = Some (VList ks) ->
  redis_list "api_keys_list" w = pre ++ bad :: post ->
  Forall decodable pre -> List.find (entry_has_id (VStr mongo_id)) pre = None ->
  json_loads bad = Some v -> (forall d, v <> VDict d) ->
  let new_key := drawn_key (entropy w) (drawn w) 20 in
  let w1 := snd (create_api_key mongo_id w) in
  fst (create_api_key mongo_id w) = Raise AttributeError /\
  List.find (matches "id" (VStr mongo_id)) (db_keys w1)
  = Some (dict_set doc "keys" (VList (ks ++ [key_entry new_key]))) /\
  drawn w1 = (drawn w + 20)%nat /\
  redis w1 = redis w /\ db_users w1 = db_users w.
Proof.
  intros Ho Hu Hk Hks Hc Hdec Hnone Hl Hv. cbv zeta.
  assert (Hrun : create_api_key mongo_id w
                 = (Raise AttributeError,
                    set_docs keys
                      (update_first (matches "id" (VStr mongo_id))
                         (fun d => dict_set d "keys"
                            (VList (ks ++ [key_entry
                                             (drawn_key (entropy w) (drawn w) 20)])))
                         (db_keys w))
                      (with_drawn (drawn w + 20) w))).
  { unfold create_api_key. rewrite Ho, run_bind.
    unfold find_one at 1; cbn [bson_encodable]. rewrite find_matches_truthy. cbn [docs]. rewrite Hu.
    cbn [negb]. rewrite run_bind, generate_api_key_run.
    rewrite run_bind. unfold find_one at 1; cbn [bson_encodable]. rewrite find_matches_truthy.
    cbn [docs with_drawn db_keys]. rewrite Hk. cbn [negb from_option Datatypes.id].
    rewrite run_bind, run_bind. cbn [getitem]. rewrite Hks, run_ret.
    rewrite run_bind. cbn [append]. rewrite run_ret.
    rewrite run_bind. unfold update_one at 1. rewrite run_ret.
    cbn [docs db_keys].
    apply (cache_loop_stops mongo_id _ _ pre bad v post); assumption. }
  rewrite Hrun. cbn [fst snd set_docs with_drawn db_keys db_users redis drawn].
  repeat split. apply find_after_set_keys, Hk.
Qed.

(** *** Removing a key *)

Lemma remove_api_key_inv mongo_id key_to_remove w r w1 :
  Forall key_doc_ok (db_keys w) ->
  remove_api_key mongo_id key_to_remove w = (Return r, w1) ->
  exists doc ks,
    List.find (matches "id" (VStr mongo_id)) (db_keys w) = Some doc /\
    dict_get doc "keys" = Some (VList ks) /\ Forall key_entry_ok ks /\
    length (without_key key_to_remove ks) <> length ks.
Proof.
  intros Hok Hrun.
  destruct (List.find (matches "id" (VStr mongo_id)) (db_keys w)) as [doc|] eqn:Hf.
  2:{ rewrite (remove_api_key_no_doc _ _ _ Hf) in Hrun. discriminate. }
  pose proof Hf as Hin. apply find_some in Hin as [Hin _].
  rewrite Forall_forall in Hok.
  destruct (Hok doc (proj2 (list_elem_of_In _ _) Hin)) as (_ & _ & ks & Hks & Hkok).
  exists doc, ks. repeat split; try assumption.
  intros Hlen.
  rewrite (remove_api_key_no_key _ _ _ _ _ Hf Hks Hkok Hlen) in Hrun. discriminate.
Qed.

(** X11.  Removing a key is not repeatable: after a [remove_api_key] that
    succeeded, the same request answers 404 with the detail [API key not
    found] (the key set is still there, the key is not) and changes
    nothing. *)
Theorem remove_api_key_twice
    (mongo_id key_to_remove : string) (w w1 : world) (r : value) :
  Forall key_doc_ok (db_keys w) ->
  Forall decodable (redis_list "api_keys_list" w) ->
  remove_api_key mongo_id key_to_remove w = (Return r, w1) ->
  remove_api_key mongo_id key_to_remove w1
  = (Raise (HTTPException 404 "API key not found"), w1).
Proof.
  intros Hok Hdec Hrun.
  destruct (remove_api_key_inv _ _ _ _ _ Hok Hrun) as (doc & ks & Hf & Hks & Hkok & Hlen).
  pose proof (remove_api_key_done _ _ _ _ _ Hf Hks Hkok Hlen Hdec) as Hdone.
  cbv zeta in Hdone. rewrite Hdone in Hrun. injection Hrun as _ <-.
  apply (remove_api_key_no_key mongo_id key_to_remove _
           (dict_set doc "keys" (VList (without_key key_to_remove ks)))
           (without_key key_to_remove ks)).
  - cbn [db_keys]. apply find_after_set_keys, Hf.
  - apply dict_get_set_eq.
  - apply without_key_ok, Hkok.
  - rewrite without_key_twice. reflexivity.
Qed.

Lemma without_key_all key_to_remove ks :
  Forall (fun k => key_of k = Some (VStr key_to_remove)) ks ->
  without_key key_to_remove ks = [].
Proof.
  induction 1 as [|k ks Hk _ IH]; [reflexivity|].
  unfold without_key in *. cbn [List.filter]. rewrite Hk. cbn [opt_eqb value_eqb].
  rewrite String.eqb_refl. exact IH.
Qed.

(** X12.  Removing the last key keeps the key set: when every entry of the
    stored list carries the key to remove, [remove_api_key] succeeds, leaves
    the document in [db.keys] with an empty list, and [list_api_keys]
    afterwards returns the id with an empty list of keys instead of 404. *)
Theorem remove_last_api_key
    (mongo_id key_to_remove : string) (w : world) (doc : dict) (ks : list value) :
  Forall decodable (redis_list "api_keys_list" w) ->
  (count_id (VStr mongo_id) (redis_list "api_keys_list" w) <= 1)%nat ->
  List.find (matches "id" (VStr mongo_id)) (db_keys w) = Some doc ->
  dict_get doc "keys" = Some (VList ks) -> ks <> [] ->
  Forall key_entry_ok ks ->
  Forall (fun k => key_of k = Some (VStr key_to_remove)) ks ->
  let w1 := snd (remove_api_key mongo_id key_to_remove w) in
  fst (remove_api_key mongo_id key_to_remove w)
  = Return (VDict [("message"%string, VStr "API key removed");
                   ("removed_key"%string, VStr key_to_remove)]) /\
  List.find (matches "id" (VStr mongo_id)) (db_keys w1)
  = Some (dict_set doc "keys" (VList [])) /\
  length (db_keys w1) = length (db_keys w) /\
  list_api_keys mongo_id w1
  = (Return (VDict [("id"%string, VStr mongo_id); ("keys"%string, VList [])]), w1).
Proof.
  intros Hdec Hone Hf Hks Hne Hkok Hall. cbv zeta.
  pose proof (without_key_all _ _ Hall) as Hnil.
  assert (Hlen : length (without_key key_to_remove ks) <> length ks).
  { rewrite Hnil. destruct ks; [contradiction|discriminate]. }
  pose proof (remove_api_key_done _ _ _ _ _ Hf Hks Hkok Hlen Hdec) as Hdone.
  cbv zeta in Hdone. rewrite Hnil in Hdone. rewrite Hdone. cbn [fst snd db_keys].
  split; [reflexivity|]. split; [apply find_after_set_keys, Hf|]. split.
  - clear. induction (db_keys w) as [|d l IH]; [reflexivity|].
    cbn [update_first]. destruct (matches "id" (VStr mongo_id) d); cbn [length]; auto.
  - apply (list_api_keys_after mongo_id
             [("id"%string, VStr mongo_id); ("keys"%string, VList [])]
             (redis_list "api_keys_list" w)).
    + constructor; [distinct_keys|].
      repeat apply List.Forall_cons; try apply List.Forall_nil; cbn [snd];
        repeat constructor.
    + reflexivity.
    + unfold redis_list at 1. cbn [redis]. rewrite lookup_insert_eq. reflexivity.
    + exact Hdec.
    + exact Hone.
Qed.

End partial_failures.

Section safety.

Lemma world_with_ann_reachable : reachable world_with_ann.
Proof.
  apply (reach_step (empty_world sample_entropy) (CreateUser ann)).
  - apply reach_start.
  - vm_compute. discriminate.
Defined.

(** X13.  In every state the service reaches by serving requests one after
    the other, a request (for [create_api_key], one whose path text has no
    ASCII whitespace) does not end in an error of the handler's own
    making: each of the five handlers either returns its response or
    raises its own [HTTPException] (400 for [create_user], 404 for the
    others); the exceptions that escape are the [InvalidId] of
    [create_api_key], only on a path text that is not the text of an
    [ObjectId], and the [OverflowError] of [create_user], only on an id
    beyond the signed 64-bit integers.  No [KeyError], [TypeError],
    [AttributeError] or [JSONDecodeError] is raised. *)
Theorem reachable_requests_answered (w : world) (r : request) :
  reachable w -> modelled r -> answered r (fst (serve r w)).
Proof.
  intros Hr _. apply reachable_consistent in Hr.
  destruct (consistent_hypotheses w Hr) as (K & CA & UC & _).
  destruct r as [user|mongo_id|mongo_id key_to_remove|mongo_id|user_id]; cbn [serve].
  - destruct (int64 (id user)) eqn:Hi.
    2:{ rewrite (create_user_overflow user w Hi). exact Hi. }
    destruct (List.find (matches "id" (VInt (id user))) (db_users w)) as [doc|] eqn:Hf.
    + rewrite (create_user_conflict user w doc Hi Hf). reflexivity.
    + rewrite (create_user_new user w Hi Hf). exact I.
  - destruct (ObjectId_of_str mongo_id) as [oid|] eqn:Ho.
    2:{ rewrite (create_api_key_invalid _ _ Ho). exact Ho. }
    destruct (List.find (matches "_id" (VObjectId oid)) (db_users w)) as [u|] eqn:Hu.
    2:{ rewrite (create_api_key_no_user _ _ _ Ho Hu). reflexivity. }
    destruct (List.find (matches "id" (VStr mongo_id)) (db_keys w)) as [doc|] eqn:Hk.
    + pose proof Hk as Hin. apply find_some in Hin as [Hin _].
      rewrite Forall_forall in K.
      destruct (K doc (proj2 (list_elem_of_In _ _) Hin)) as (Hst & _ & ks & Hks & Hkok).
      rewrite (create_api_key_next _ _ _ _ _ _ Ho Hu Hk Hst Hks Hkok CA). exact I.
    + rewrite (create_api_key_first _ _ _ _ Ho Hu Hk CA). exact I.
  - destruct (List.find (matches "id" (VStr mongo_id)) (db_keys w)) as [doc|] eqn:Hf.
    2:{ rewrite (remove_api_key_no_doc _ _ _ Hf). reflexivity. }
    pose proof Hf as Hin. apply find_some in Hin as [Hin _].
    rewrite Forall_forall in K.
    destruct (K doc (proj2 (list_elem_of_In _ _) Hin)) as (_ & _ & ks & Hks & Hkok).
    destruct (Nat.eq_dec (length (without_key key_to_remove ks)) (length ks)) as [E|E].
    + rewrite (remove_api_key_no_key _ _ _ _ _ Hf Hks Hkok E). reflexivity.
    + rewrite (remove_api_key_done _ _ _ _ _ Hf Hks Hkok E CA). exact I.
  - unfold list_api_keys. rewrite run_bind. unfold lrange at 1.
    rewrite (first_entry_run _ _ _ _ CA). cbn [fst].
    destruct (List.find _ _) as [e|] eqn:Hf; [|reflexivity].
    apply find_some in Hf as [Hin _]. rewrite Forall_forall in CA.
    destruct (CA e (proj2 (list_elem_of_In _ _) Hin)) as [d Hd]. rewrite Hd. exact I.
  - unfold get_user. rewrite run_bind. unfold lrange at 1.
    rewrite (first_entry_run _ _ _ _ UC). cbn [fst].
    destruct (List.find _ _) as [e|] eqn:Hf; [|reflexivity].
    apply find_some in Hf as [Hin _]. rewrite Forall_forall in UC.
    destruct (UC e (proj2 (list_elem_of_In _ _) Hin)) as [d Hd]. rewrite Hd. exact I.
Qed.

Lemma reachable_requests_answered_witness :
  reachable world_with_ann /\
  modelled (CreateApiKey "abc") /\
  modelled (CreateUser wide_user) /\
  answered (CreateApiKey "abc") (fst (serve (CreateApiKey "abc") world_with_ann)) /\
  answered (CreateUser ann) (fst (serve (CreateUser ann) world_with_ann)) /\
  answered (CreateUser wide_user)
    (fst (serve (CreateUser wide_user) world_with_ann)).
Proof.
  split; [exact world_with_ann_reachable|].
  split; [reflexivity|]. split; [exact I|]. split; [|split].
  - exact (reachable_requests_answered _ (CreateApiKey "abc")
             world_with_ann_reachable eq_refl).
  - exact (reachable_requests_answered _ (CreateUser ann)
             world_with_ann_reachable I).
  - exact (reachable_requests_answered _ (CreateUser wide_user)
             world_with_ann_reachable I).
Defined.

End safety.

Section coherence.

(** *** Lists *)

Lemma update_first_unique {K} (g : dict -> K) (p : dict -> bool) f l c :
  NoDup (map g l) -> (forall x, p x = true -> g x = c) ->
  update_first p f l = map (fun x => if p x then f x else x) l.
Proof.
  intros Hnd Hp. induction l as [|x l IH]; [reflexivity|].
  cbn [map] in Hnd. apply NoDup_cons in Hnd as [Hx Hnd].
  cbn [update_first map]. destruct (p x) eqn:Hpx.
  - f_equal. symmetry. rewrite <- (map_id l) at 2. apply map_ext_in.
    intros y Hy. destruct (p y) eqn:Hpy; [exfalso|reflexivity].
    apply Hx. rewrite (Hp x Hpx), <- (Hp y Hpy).
    apply list_elem_of_In, in_map, Hy.
  - f_equal. apply IH, Hnd.
Qed.

Lemma find_map {A B} (p : B -> bool) (f : A -> B) l :
  List.find p (map f l) = option_map f (List.find (fun x => p (f x)) l).
Proof.
  induction l as [|x l IH]; [reflexivity|]. cbn [map List.find].
  destruct (p (f x)); [reflexivity|exact IH].
Qed.

Lemma lrem_absent text l : ~ In text l -> lrem_list 0 text l = l.
Proof.
  intros Hn. rewrite lrem_all. induction l as [|x l IH]; [reflexivity|].
  cbn [List.filter]. destruct (String.eqb_spec x text) as [->|Hne].
  - exfalso. apply Hn. left. reflexivity.
  - cbn [negb]. f_equal. apply IH. intros H. apply Hn. right. exact H.
Qed.

Lemma in_lrem e text l : In e (lrem_list 0 text l) <-> In e l /\ e <> text.
Proof.
  rewrite lrem_all, filter_In. split; intros [H1 H2]; split; auto.
  - intros ->. rewrite String.eqb_refl in H2. discriminate.
  - destruct (String.eqb_spec e text); [contradiction|reflexivity].
Qed.

Lemma in_cache_after_old mongo_id text e l :
  In e l -> entry_has_id (VStr mongo_id) e = false ->
  In e (cache_after mongo_id text l).
Proof.
  intros Hin He. unfold cache_after. apply in_or_app. left.
  destruct (List.find _ l) as [e0|] eqn:Hf; [|exact Hin].
  apply in_lrem. split; [exact Hin|]. intros ->.
  apply find_some in Hf as [_ Hf]. congruence.
Qed.

Lemma in_cache_after_new mongo_id text l : In text (cache_after mongo_id text l).
Proof. unfold cache_after. apply in_or_app. right. left. reflexivity. Qed.

Lemma in_cache_after_inv mongo_id text e l :
  In e (cache_after mongo_id text l) -> In e l \/ e = text.
Proof.
  unfold cache_after. intros H. apply in_app_or in H as [H|[H|[]]]; [left|right; auto].
  destruct (List.find _ l); [apply in_lrem in H as [H _]|]; exact H.
Qed.

Lemma count_one_find v e l :
  (count_id v l <= 1)%nat -> In e l -> entry_has_id v e = true ->
  List.find (entry_has_id v) l = Some e.
Proof.
  unfold count_id. induction l as [|x l IH]; intros Hc Hin He; [destruct Hin|].
  cbn [List.filter List.find] in *. destruct (entry_has_id v x) eqn:Hx.
  - destruct Hin as [->|Hin]; [reflexivity|]. exfalso. cbn [length] in Hc.
    assert (Hz : length (List.filter (entry_has_id v) l) = 0%nat) by lia.
    apply length_zero_iff_nil in Hz.
    assert (Hin' : In e (List.filter (entry_has_id v) l))
      by (apply filter_In; split; assumption).
    rewrite Hz in Hin'. destruct Hin'.
  - destruct Hin as [->|Hin]; [congruence|]. apply IH; assumption.
Qed.

(** *** The texts the handlers push *)

Lemma canon_key_entries ks : map canon (map key_entry ks) = map key_entry ks.
Proof. rewrite map_map. apply map_ext. intros k. reflexivity. Qed.

Lemma key_entries_ok ks : Forall key_entry_ok (map key_entry ks).
Proof.
  apply Forall_forall. intros k Hk.
  apply list_elem_of_In, in_map_iff in Hk as (x & <- & _). apply key_entry_is_ok.
Qed.

Lemma key_set_json_value s ks :
  json_value (VDict [("id"%string, VStr s);
                     ("keys"%string, VList (map key_entry ks))]).
Proof.
  constructor; [distinct_keys|].
  repeat apply List.Forall_cons; try apply List.Forall_nil; cbn [snd].
  - constructor.
  - constructor. eapply Forall_impl; [apply key_entries_ok|]. intros k [H _]. exact H.
Qed.

Lemma key_set_text_loads doc s ks :
  json_value (VDict doc) -> dict_get doc "id" = Some (VStr s) ->
  dict_get doc "keys" = Some (VList (map key_entry ks)) ->
  exists d, json_loads (text_of (VDict doc)) = Some (VDict d) /\
            dict_get d "id" = Some (VStr s) /\
            dict_get d "keys" = Some (VList (map key_entry ks)).
Proof.
  intros Hv Hid Hks. destruct (loads_text_of_dict doc Hv) as (d & Hl & _ & Hg).
  exists d. split; [exact Hl|]. rewrite !Hg, Hid, Hks. cbn [option_map canon].
  rewrite canon_key_entries. split; reflexivity.
Qed.

Lemma stored_key_set_text_loads s ks oid :
  exists d, json_loads (user_text (stored_key_set s ks oid)) = Some (VDict d) /\
            dict_get d "id" = Some (VStr s) /\
            dict_get d "keys" = Some (VList (map key_entry ks)).
Proof.
  unfold user_text. apply key_set_text_loads.
  - apply storable_convert, stored_key_set_ok.
  - reflexivity.
  - reflexivity.
Qed.

Lemma stored_user_text user oid :
  user_text (stored_user user oid)
  = text_of (VDict (User_dict user ++ [("_id"%string, VStr (str_of_ObjectId oid))])).
Proof. reflexivity. Qed.

Lemma stored_user_has_id user oid i :
  entry_has_id (VInt i) (user_text (stored_user user oid)) = Z.eqb (id user) i.
Proof.
  rewrite stored_user_text.
  rewrite (entry_has_id_text _ _ (VInt (id user)) (user_dict_json_value user _) eq_refl).
  reflexivity.
Qed.

Lemma stored_user_matches user oid i :
  matches "id" (VInt i) (stored_user user oid) = Z.eqb (id user) i.
Proof. reflexivity. Qed.


(** *** The users half *)

Lemma users_coherent_kept w w1 :
  db_users w1 = db_users w ->
  redis_list "users_list" w1 = redis_list "users_list" w ->
  (oid_counter w <= oid_counter w1)%N ->
  users_coherent w -> users_coherent w1.
Proof.
  intros Hu Hl Hc [C S I O]. constructor; rewrite ?Hu, ?Hl; try assumption.
  eapply Forall_impl; [exact S|]. intros doc (user & n & Hn & Hd).
  exists user, n. split; [lia|exact Hd].
Qed.

Lemma users_coherent_added w w1 user :
  users_coherent w -> (oid_counter w < 16 ^ 24)%N ->
  List.find (matches "id" (VInt (id user))) (db_users w) = None ->
  let doc := stored_user user (ObjectId_of_counter (oid_counter w)) in
  db_users w1 = db_users w ++ [doc] ->
  redis_list "users_list" w1
  = lrem_list 0 (user_text doc) (redis_list "users_list" w) ++ [user_text doc] ->
  (oid_counter w < oid_counter w1)%N ->
  users_coherent w1.
Proof.
  intros [C S I O] Hroom Hf doc Hu Hl Hc.
  assert (Hother : forall d, In d (db_users w) ->
            exists user' n, (n < oid_counter w)%N /\
              d = stored_user user' (ObjectId_of_counter n) /\ id user' <> id user).
  { intros d Hd. rewrite Forall_forall in S.
    destruct (S d (proj2 (list_elem_of_In _ _) Hd)) as (user' & n & Hn & ->).
    exists user', n. split; [exact Hn|]. split; [reflexivity|].
    pose proof (find_none _ _ Hf _ Hd) as Hm. rewrite stored_user_matches in Hm.
    apply Z.eqb_neq in Hm. exact Hm. }
  constructor.
  - rewrite Hl, Hu, map_app. cbn [map]. f_equal. rewrite C. apply lrem_absent.
    intros Hin. apply in_map_iff in Hin as (d & Ht & Hd).
    destruct (Hother d Hd) as (user' & n & _ & -> & Hne).
    pose proof (stored_user_has_id user' (ObjectId_of_counter n) (id user')) as H1.
    rewrite Ht in H1. unfold doc in H1. rewrite stored_user_has_id in H1.
    rewrite Z.eqb_refl in H1. apply Z.eqb_eq in H1. congruence.
  - rewrite Hu. apply Forall_app. split.
    + eapply Forall_impl; [exact S|]. intros d (user' & n & Hn & Hd).
      exists user', n. split; [lia|exact Hd].
    + apply List.Forall_cons; [|apply List.Forall_nil].
      exists user, (oid_counter w). split; [exact Hc|reflexivity].
  - rewrite Hu, map_app. apply NoDup_app. split; [exact I|]. split.
    + intros x Hx [Hin|Hin]%elem_of_cons; [|inversion Hin].
      apply list_elem_of_In, in_map_iff in Hx as (d & Hd & Hind).
      destruct (Hother d Hind) as (user' & n & _ & -> & Hne).
      subst x. cbn in Hin. congruence.
    + cbn [map]. apply NoDup_singleton.
  - rewrite Hu, map_app. apply NoDup_app. split; [exact O|]. split.
    + intros x Hx [Hin|Hin]%elem_of_cons; [|inversion Hin].
      apply list_elem_of_In, in_map_iff in Hx as (d & Hd & Hind).
      destruct (Hother d Hind) as (user' & n & Hn & -> & _).
      subst x. cbn in Hin.
      assert (E : ObjectId_of_counter n = ObjectId_of_counter (oid_counter w))
        by congruence.
      apply ObjectId_of_counter_inj in E; lia.
    + cbn [map]. apply NoDup_singleton.
Qed.


(** *** The key-set half *)

Lemma matches_doc_id field v doc :
  matches field v doc = opt_eqb (dict_get doc field) v.
Proof. reflexivity. Qed.

Lemma doc_id_matches s doc :
  doc_id doc = Some (VStr s) -> matches "id" (VStr s) doc = true.
Proof.
  unfold doc_id, matches. intros ->. cbn. apply String.eqb_refl.
Qed.

Lemma cached_entry_other s e d doc :
  json_loads e = Some (VDict d) -> dict_get d "id" = dict_get doc "id" ->
  matches "id" (VStr s) doc = false -> entry_has_id (VStr s) e = false.
Proof.
  intros Hl Hid Hm. rewrite (entry_has_id_decoded _ _ _ Hl), Hid.
  rewrite <- matches_doc_id. exact Hm.
Qed.

Lemma keys_coherent_added w w1 s k oid text :
  keys_coherent w ->
  List.find (matches "id" (VStr s)) (db_keys w) = None ->
  key_text_ok k ->
  db_keys w1 = db_keys w ++ [stored_key_set s [k] oid] ->
  redis_list "api_keys_list" w1
  = cache_after s text (redis_list "api_keys_list" w) ->
  (exists d, json_loads text = Some (VDict d) /\
             dict_get d "id" = Some (VStr s) /\
             dict_get d "keys" = Some (VList (map key_entry [k]))) ->
  keys_coherent w1.
Proof.
  intros [I S C T] Hf Hk Hd Hl (d & Hld & Hid & Hks).
  constructor.
  - rewrite Hd, map_app. apply NoDup_app. split; [exact I|]. split.
    + intros x Hx [Hin|Hin]%elem_of_cons; [|inversion Hin].
      apply list_elem_of_In, in_map_iff in Hx as (doc & Hdoc & Hind).
      subst x. cbn in Hin.
      pose proof (find_none _ _ Hf _ Hind) as Hm.
      rewrite (doc_id_matches _ _ Hin) in Hm. discriminate.
    + cbn [map]. apply NoDup_singleton.
  - rewrite Hd. apply Forall_app. split; [exact S|].
    apply List.Forall_cons; [|apply List.Forall_nil].
    exists s, [k], oid. split; [reflexivity|].
    apply List.Forall_cons; [exact Hk|apply List.Forall_nil].
  - rewrite Hd, Hl. apply Forall_app. split.
    + apply Forall_forall. intros doc Hdoc. rewrite Forall_forall in C.
      destruct (C doc Hdoc) as (e & d0 & Hin & Hl0 & Hid0 & Hks0).
      exists e, d0. split; [|auto]. apply in_cache_after_old; [exact Hin|].
      apply (cached_entry_other s e d0 doc Hl0 Hid0).
      apply (find_none _ _ Hf), list_elem_of_In, Hdoc.
    + apply List.Forall_cons; [|apply List.Forall_nil].
      exists text, d. split; [apply in_cache_after_new|]. auto.
  - rewrite Hl, Hd. apply Forall_forall. intros e He.
    apply list_elem_of_In, in_cache_after_inv in He as [He| ->].
    + rewrite Forall_forall in T.
      destruct (T e (proj2 (list_elem_of_In _ _) He)) as (d0 & doc & Hl0 & Hin & Hid0).
      exists d0, doc. split; [exact Hl0|]. split; [|exact Hid0].
      apply in_or_app. left. exact Hin.
    + exists d, (stored_key_set s [k] oid). split; [exact Hld|].
      split; [apply in_or_app; right; left; reflexivity|exact Hid].
Qed.

Lemma set_keys_stored s ks oid ks' :
  dict_set (stored_key_set s ks oid) "keys" (VList (map key_entry ks'))
  = stored_key_set s ks' oid.
Proof. reflexivity. Qed.

Lemma keys_coherent_updated w w1 s doc ks' text :
  keys_coherent w ->
  List.find (matches "id" (VStr s)) (db_keys w) = Some doc ->
  Forall key_text_ok ks' ->
  db_keys w1
  = update_first (matches "id" (VStr s))
      (fun d => dict_set d "keys" (VList (map key_entry ks'))) (db_keys w) ->
  redis_list "api_keys_list" w1
  = cache_after s text (redis_list "api_keys_list" w) ->
  (exists d, json_loads text = Some (VDict d) /\
             dict_get d "id" = Some (VStr s) /\
             dict_get d "keys" = Some (VList (map key_entry ks'))) ->
  keys_coherent w1.
Proof.
  intros [I S C T] Hf Hk Hd Hl (d & Hld & Hid & Hks).
  set (F := fun x : dict =>
              if matches "id" (VStr s) x
              then dict_set x "keys" (VList (map key_entry ks')) else x).
  assert (Hmap : db_keys w1 = map F (db_keys w)).
  { rewrite Hd. apply (update_first_unique doc_id _ _ _ (Some (VStr s)) I).
    intros x Hx. apply matches_id_get, Hx. }
  assert (HidF : forall x, dict_get (F x) "id" = dict_get x "id").
  { intros x. unfold F. destruct (matches "id" (VStr s) x); [|reflexivity].
    apply dict_get_set_ne. discriminate. }
  constructor.
  - rewrite Hmap, map_map. erewrite map_ext; [exact I|]. intros x. apply HidF.
  - rewrite Hmap. apply Forall_forall. intros x Hx.
    apply list_elem_of_In, in_map_iff in Hx as (x0 & <- & Hx0).
    rewrite Forall_forall in S.
    destruct (S x0 (proj2 (list_elem_of_In _ _) Hx0)) as (s0 & ks0 & oid & -> & Hok).
    unfold F. destruct (matches "id" (VStr s) _).
    + exists s0, ks', oid. split; [apply set_keys_stored|exact Hk].
    + exists s0, ks0, oid. split; [reflexivity|exact Hok].
  - rewrite Hmap, Hl. apply Forall_forall. intros x Hx.
    apply list_elem_of_In, in_map_iff in Hx as (x0 & <- & Hx0).
    rewrite HidF. unfold F. destruct (matches "id" (VStr s) x0) eqn:Hm.
    + exists text, d. split; [apply in_cache_after_new|]. split; [exact Hld|].
      split.
      * rewrite Hid. symmetry. apply matches_id_get, Hm.
      * rewrite Hks, dict_get_set_eq. reflexivity.
    + rewrite Forall_forall in C.
      destruct (C x0 (proj2 (list_elem_of_In _ _) Hx0)) as (e & d0 & Hin & Hl0 & Hid0 & Hks0).
      exists e, d0. split; [|auto]. apply in_cache_after_old; [exact Hin|].
      apply (cached_entry_other s e d0 x0 Hl0 Hid0 Hm).
  - rewrite Hl, Hmap. apply Forall_forall. intros e He.
    apply list_elem_of_In, in_cache_after_inv in He as [He| ->].
    + rewrite Forall_forall in T.
      destruct (T e (proj2 (list_elem_of_In _ _) He)) as (d0 & doc0 & Hl0 & Hin & Hid0).
      exists d0, (F doc0). split; [exact Hl0|]. split; [apply in_map, Hin|].
      rewrite HidF. exact Hid0.
    + apply find_some in Hf as [Hin Hm].
      exists d, (F doc). split; [exact Hld|]. split; [apply in_map, Hin|].
      rewrite HidF, Hid. symmetry. apply matches_id_get, Hm.
Qed.

Lemma users_have_keys_kept w w1 :
  db_users w1 = db_users w ->
  (forall s, Exists (fun kd => matches "id" (VStr s) kd = true) (db_keys w) ->
             Exists (fun kd => matches "id" (VStr s) kd = true) (db_keys w1)) ->
  users_have_keys w -> users_have_keys w1.
Proof.
  intros Hu Hk H. unfold users_have_keys in *. rewrite Hu.
  eapply Forall_impl; [exact H|]. intros doc (o & Ho & Hex).
  exists o. split; [exact Ho|]. apply Hk, Hex.
Qed.

Lemma exists_update_first s s' f l :
  (forall d, matches "id" (VStr s) (f d) = matches "id" (VStr s) d) ->
  Exists (fun kd => matches "id" (VStr s) kd = true) l ->
  Exists (fun kd => matches "id" (VStr s) kd = true)
    (update_first (matches "id" (VStr s')) f l).
Proof.
  intros Hf. induction 1 as [x l Hx|x l Hl IH]; cbn [update_first].
  - destruct (matches "id" (VStr s') x).
    + apply Exists_cons_hd. rewrite Hf. exact Hx.
    + apply Exists_cons_hd. exact Hx.
  - destruct (matches "id" (VStr s') x).
    + apply Exists_cons_tl. assumption.
    + apply Exists_cons_tl, IH.
Qed.


Lemma keys_have_users_updated w p new_keys r c e n :
  keys_have_users w ->
  keys_have_users
    (mkWorld (db_users w)
       (update_first p (fun d => dict_set d "keys" new_keys) (db_keys w)) r c e n).
Proof.
  intros H. unfold keys_have_users in *. cbn [db_users db_keys].
  apply Forall_update_first; [exact H|].
  intros d (s & o & Hs & Hp & Hex). exists s, o.
  rewrite dict_get_set_ne by discriminate. auto.
Qed.

(** *** Each handler keeps the mirror *)

Lemma reads_are_pure mongo_id user_id w :
  snd (list_api_keys mongo_id w) = w /\ snd (get_user user_id w) = w.
Proof.
  unfold list_api_keys, get_user. rewrite !run_bind. unfold lrange.
  split; apply first_entry_pure.
Qed.


Lemma drawn_key_ok rnd start : key_text_ok (drawn_key rnd start 20).
Proof.
  split; [apply drawn_key_length|].
  rewrite list_of_drawn_key. apply drawn_chars_alphabet.
Qed.

Lemma fresh_id_no_key_set w :
  consistent w -> (oid_counter w < 16 ^ 24)%N ->
  List.find (matches "id"
               (VStr (str_of_ObjectId (ObjectId_of_counter (oid_counter w)))))
    (db_keys w) = None.
Proof.
  intros [_ KI _ _ _ _ _] Hroom.
  destruct (List.find _ _) as [doc|] eqn:Hf; [exfalso|reflexivity].
  apply find_some in Hf as [Hin Hm]. apply matches_id_get in Hm.
  rewrite Forall_forall in KI.
  destruct (KI doc (proj2 (list_elem_of_In _ _) Hin)) as (s & Hs & n & Hn & Ho).
  assert (s = str_of_ObjectId (ObjectId_of_counter (oid_counter w))) by congruence.
  subst s. rewrite ObjectId_of_str_counter in Ho.
  assert (E : ObjectId_of_counter (oid_counter w) = ObjectId_of_counter n)
    by congruence.
  apply ObjectId_of_counter_inj in E; lia.
Qed.

Lemma push_fresh s text l :
  count_id (VStr s) l = 0%nat -> entry_has_id (VStr s) text = true ->
  lrem_list 0 text l ++ [text] = cache_after s text l.
Proof.
  intros Hc Ht. apply count_id_zero in Hc. unfold cache_after. rewrite Hc.
  f_equal. apply lrem_absent. intros Hin.
  pose proof (find_none _ _ Hc _ Hin). congruence.
Qed.

Lemma coherent_create_user user w :
  consistent w -> coherent w -> (oid_counter w + 2 <= 16 ^ 24)%N ->
  coherent (snd (create_user user w)).
Proof.
  intros Hcons (HU & HK & HL & HO) Hroom.
  destruct (int64 (id user)) eqn:Hr; cycle 1.
  { rewrite (create_user_overflow user w Hr). exact (conj HU (conj HK (conj HL HO))). }
  destruct (List.find (matches "id" (VInt (id user))) (db_users w)) as [doc|] eqn:Hf.
  { rewrite (create_user_conflict user w doc Hr Hf).
    exact (conj HU (conj HK (conj HL HO))). }
  rewrite (create_user_new user w Hr Hf). cbn [snd].
  set (c := oid_counter w) in *.
  set (sid := str_of_ObjectId (ObjectId_of_counter c)).
  set (key := drawn_key (entropy w) (drawn w) 20).
  set (api_doc := [("id"%string, VStr sid); ("keys"%string, VList [key_entry key])]).
  set (w1 := mkWorld _ _ _ _ _ _).
  assert (Hla : redis_list "api_keys_list" w1
                = lrem_list 0 (text_of (VDict api_doc)) (redis_list "api_keys_list" w)
                  ++ [text_of (VDict api_doc)]).
  { unfold w1, redis_list. cbn [redis]. rewrite lookup_insert_eq. reflexivity. }
  assert (Hlu : redis_list "users_list" w1
                = lrem_list 0 (user_text (stored_user user (ObjectId_of_counter c)))
                    (redis_list "users_list" w)
                  ++ [user_text (stored_user user (ObjectId_of_counter c))]).
  { unfold w1, redis_list. cbn [redis].
    rewrite lookup_insert_ne by discriminate. rewrite lookup_insert_eq. reflexivity. }
  pose proof (api_doc_json_value sid key) as Hva.
  destruct (consistent_hypotheses w Hcons) as (_ & _ & _ & _ & _ & Hfresh).
  specialize (Hfresh ltac:(fold c; lia)). fold c in Hfresh. fold sid in Hfresh.
  pose proof (fresh_id_no_key_set w Hcons ltac:(fold c; lia)) as Hnk.
  fold c in Hnk. fold sid in Hnk.
  split; [|split; [|split]].
  - apply (users_coherent_added w w1 user HU); try assumption.
    + fold c. lia.
    + reflexivity.
    + cbn [oid_counter w1]. fold c. lia.
  - apply (keys_coherent_added w w1 sid key
             (ObjectId_of_counter (N.succ c)) (text_of (VDict api_doc)) HK Hnk).
    + apply drawn_key_ok.
    + reflexivity.
    + rewrite Hla. apply push_fresh; [exact Hfresh|].
      rewrite (text_of_has_id api_doc sid sid Hva eq_refl). apply String.eqb_refl.
    + apply (key_set_text_loads api_doc sid [key] Hva); reflexivity.
  - unfold users_have_keys. cbn [db_users db_keys w1]. apply Forall_app. split.
    + eapply Forall_impl; [exact HL|]. intros d (o & Ho & Hex).
      exists o. split; [exact Ho|]. apply Exists_app. left. exact Hex.
    + apply List.Forall_cons; [|apply List.Forall_nil].
      exists (ObjectId_of_counter c). split; [reflexivity|].
      apply Exists_app. right. apply Exists_cons_hd.
      apply doc_id_matches. reflexivity.
  - unfold keys_have_users. cbn [db_users db_keys w1]. apply Forall_app. split.
    + eapply Forall_impl; [exact HO|]. intros kd (s & o & Hs & Hp & Hex).
      exists s, o. split; [exact Hs|]. split; [exact Hp|].
      apply Exists_app. left. exact Hex.
    + apply List.Forall_cons; [|apply List.Forall_nil].
      exists sid, (ObjectId_of_counter c). split; [reflexivity|].
      split; [apply ObjectId_of_str_counter|].
      apply Exists_app. right. apply Exists_cons_hd.
      unfold matches. cbn. apply String.eqb_refl.
Qed.

Lemma stored_key_set_found s doc :
  (exists s0 ks oid, doc = stored_key_set s0 ks oid /\ Forall key_text_ok ks) ->
  matches "id" (VStr s) doc = true ->
  exists ks oid, doc = stored_key_set s ks oid /\ Forall key_text_ok ks.
Proof.
  intros (s0 & ks & oid & -> & Hok) Hm. apply matches_id_get in Hm.
  cbn in Hm. injection Hm as ->. eauto.
Qed.

Lemma coherent_create_api_key mongo_id w :
  consistent w -> coherent w -> coherent (snd (create_api_key mongo_id w)).
Proof.
  intros Hcons (HU & HK & HL & HO).
  destruct (consistent_hypotheses w Hcons) as (K & CA & _).
  destruct (ObjectId_of_str mongo_id) as [oid|] eqn:Ho.
  2:{ rewrite (create_api_key_invalid _ _ Ho). exact (conj HU (conj HK (conj HL HO))). }
  destruct (List.find (matches "_id" (VObjectId oid)) (db_users w)) as [u|] eqn:Hu.
  2:{ rewrite (create_api_key_no_user _ _ _ Ho Hu). exact (conj HU (conj HK (conj HL HO))). }
  set (new_key := drawn_key (entropy w) (drawn w) 20).
  destruct (List.find (matches "id" (VStr mongo_id)) (db_keys w)) as [doc|] eqn:Hk.
  - pose proof Hk as Hin. apply find_some in Hin as [Hin Hm].
    pose proof (kc_shape w HK) as Hshape. rewrite Forall_forall in Hshape.
    destruct (stored_key_set_found mongo_id doc
                (Hshape doc (proj2 (list_elem_of_In _ _) Hin)) Hm)
      as (ks & doc_oid & -> & Hok).
    pose proof (create_api_key_next mongo_id oid w u _ (map key_entry ks)
                  Ho Hu Hk (proj1 (stored_key_set_ok _ _ _)) eq_refl
                  (key_entries_ok ks) CA) as Hrun.
    cbv zeta in Hrun. fold new_key in Hrun.
    assert (E : map key_entry ks ++ [key_entry new_key]
                = map key_entry (ks ++ [new_key]))
      by (rewrite map_app; reflexivity).
    rewrite E, set_keys_stored in Hrun. rewrite Hrun. cbn [snd].
    set (w1 := mkWorld _ _ _ _ _ _).
    split; [|split; [|split]].
    + apply (users_coherent_kept w w1); try assumption; try reflexivity.
      unfold w1, redis_list. cbn [redis].
      rewrite lookup_insert_ne by discriminate. reflexivity.
    + apply (keys_coherent_updated w w1 mongo_id _ (ks ++ [new_key])
               (user_text (stored_key_set mongo_id (ks ++ [new_key]) doc_oid))
               HK Hk).
      * apply Forall_app. split; [exact Hok|].
        apply List.Forall_cons; [apply drawn_key_ok|apply List.Forall_nil].
      * reflexivity.
      * unfold w1, redis_list at 1. cbn [redis]. rewrite lookup_insert_eq. reflexivity.
      * apply stored_key_set_text_loads.
    + apply (users_have_keys_kept w w1); [reflexivity| |exact HL].
      intros s. cbn [db_keys w1]. apply exists_update_first.
      intros d. apply matches_set_other. discriminate.
    + apply keys_have_users_updated, HO.
  - pose proof (create_api_key_first mongo_id oid w u Ho Hu Hk CA) as Hrun.
    cbv zeta in Hrun. fold new_key in Hrun. rewrite Hrun. cbn [snd].
    set (w1 := mkWorld _ _ _ _ _ _).
    split; [|split; [|split]].
    + apply (users_coherent_kept w w1); try assumption; try reflexivity.
      * unfold w1, redis_list. cbn [redis].
        rewrite lookup_insert_ne by discriminate. reflexivity.
      * cbn [oid_counter w1]. lia.
    + apply (keys_coherent_added w w1 mongo_id new_key
               (ObjectId_of_counter (oid_counter w))
               (user_text (stored_key_set mongo_id [new_key]
                             (ObjectId_of_counter (oid_counter w)))) HK Hk).
      * apply drawn_key_ok.
      * reflexivity.
      * unfold w1, redis_list at 1. cbn [redis]. rewrite lookup_insert_eq. reflexivity.
      * apply stored_key_set_text_loads.
    + apply (users_have_keys_kept w w1); [reflexivity| |exact HL].
      intros s Hex. cbn [db_keys w1]. apply Exists_app. left. exact Hex.
    + unfold keys_have_users. cbn [db_users db_keys w1]. apply Forall_app.
      split; [exact HO|]. apply List.Forall_cons; [|apply List.Forall_nil].
      exists mongo_id, oid. split; [reflexivity|]. split; [exact Ho|].
      apply find_some in Hu as [Hin Hm]. apply Exists_exists.
      exists u. split; [apply list_elem_of_In, Hin|exact Hm].
Qed.

Lemma without_key_entries key_to_remove ks :
  without_key key_to_remove (map key_entry ks)
  = map key_entry (List.filter (fun k => negb (String.eqb k key_to_remove)) ks).
Proof.
  unfold without_key. induction ks as [|k ks IH]; [reflexivity|].
  cbn [map List.filter key_of key_entry dict_get String.eqb Ascii.eqb Bool.eqb
         andb opt_eqb value_eqb].
  destruct (String.eqb k key_to_remove); cbn [negb map]; rewrite IH; reflexivity.
Qed.

Lemma coherent_remove_api_key mongo_id key_to_remove w :
  consistent w -> coherent w ->
  coherent (snd (remove_api_key mongo_id key_to_remove w)).
Proof.
  intros Hcons (HU & HK & HL & HO).
  destruct (consistent_hypotheses w Hcons) as (K & CA & _).
  destruct (List.find (matches "id" (VStr mongo_id)) (db_keys w)) as [doc|] eqn:Hf.
  2:{ rewrite (remove_api_key_no_doc _ _ _ Hf). exact (conj HU (conj HK (conj HL HO))). }
  pose proof Hf as Hin. apply find_some in Hin as [Hin Hm].
  pose proof (kc_shape w HK) as Hshape. rewrite Forall_forall in Hshape.
  destruct (stored_key_set_found mongo_id doc
              (Hshape doc (proj2 (list_elem_of_In _ _) Hin)) Hm)
    as (ks & doc_oid & -> & Hok).
  destruct (Nat.eq_dec (length (without_key key_to_remove (map key_entry ks)))
              (length (map key_entry ks))) as [E|E].
  { rewrite (remove_api_key_no_key _ _ _ _ _ Hf eq_refl (key_entries_ok ks) E).
    exact (conj HU (conj HK (conj HL HO))). }
  pose proof (remove_api_key_done _ _ _ _ _ Hf eq_refl (key_entries_ok ks) E CA)
    as Hrun.
  cbv zeta in Hrun. rewrite without_key_entries in Hrun. rewrite Hrun. cbn [snd].
  set (kept := List.filter (fun k => negb (String.eqb k key_to_remove)) ks) in *.
  set (w1 := mkWorld _ _ _ _ _ _).
  split; [|split; [|split]].
  - apply (users_coherent_kept w w1); try assumption; try reflexivity.
    unfold w1, redis_list. cbn [redis].
    rewrite lookup_insert_ne by discriminate. reflexivity.
  - apply (keys_coherent_updated w w1 mongo_id _ kept
             (text_of (VDict [("id"%string, VStr mongo_id);
                              ("keys"%string, VList (map key_entry kept))]))
             HK Hf).
    + apply Forall_forall. intros k Hk.
      apply list_elem_of_In, filter_In in Hk as [Hk _].
      rewrite Forall_forall in Hok. apply Hok, list_elem_of_In, Hk.
    + reflexivity.
    + unfold w1, redis_list at 1. cbn [redis]. rewrite lookup_insert_eq. reflexivity.
    + apply key_set_text_loads; [apply key_set_json_value|reflexivity|reflexivity].
  - apply (users_have_keys_kept w w1); [reflexivity| |exact HL].
    intros s. cbn [db_keys w1]. apply exists_update_first.
    intros d. apply matches_set_other. discriminate.
  - apply keys_have_users_updated, HO.
Qed.

Lemma coherent_empty rnd : coherent (empty_world rnd).
Proof.
  assert (Hl : forall name, redis_list name (empty_world rnd) = [])
    by (intros name; unfold redis_list; cbn [redis empty_world];
        rewrite lookup_empty; reflexivity).
  split; [|split; [|split]].
  - constructor; rewrite ?Hl; cbn [db_users empty_world map];
      try apply List.Forall_nil; try apply NoDup_nil_2. reflexivity.
  - constructor; rewrite ?Hl; cbn [db_keys empty_world map];
      try apply List.Forall_nil; apply NoDup_nil_2.
  - apply List.Forall_nil.
  - apply List.Forall_nil.
Qed.

(** The caches mirror the stores in every world the sequential service
    reaches. *)
Lemma reachable_coherent w : reachable w -> coherent w.
Proof.
  induction 1 as [rnd|w r Hr IH Hroom]; [apply coherent_empty|].
  pose proof (reachable_consistent w Hr) as Hcons.
  destruct r as [user|mongo_id|mongo_id key_to_remove|mongo_id|user_id]; cbn [serve].
  - apply coherent_create_user; assumption.
  - apply coherent_create_api_key; assumption.
  - apply coherent_remove_api_key; assumption.
  - rewrite (proj1 (reads_are_pure mongo_id 0 w)). exact IH.
  - rewrite (proj2 (reads_are_pure EmptyString user_id w)). exact IH.
Qed.

End coherence.

Section mirror.

(** *** Reading the mirrors *)

Lemma find_ext_in {A} (p q : A -> bool) l :
  (forall x, In x l -> p x = q x) -> List.find p l = List.find q l.
Proof.
  induction l as [|x l IH]; intros H; [reflexivity|]. cbn [List.find].
  rewrite (H x (or_introl eq_refl)). destruct (q x); [reflexivity|].
  apply IH. intros y Hy. apply H. right. exact Hy.
Qed.

Lemma stored_user_loads user oid :
  json_loads (user_text (stored_user user oid))
  = Some (VDict [("_id"%string, VStr (str_of_ObjectId oid));
                 ("company"%string, VStr (company user));
                 ("id"%string, VInt (id user));
                 ("name"%string, VStr (name user));
                 ("status"%string, VStr (StatusEnum_value (status user)))]).
Proof.
  rewrite stored_user_text, (loads_text_of _ (user_dict_json_value user _)).
  rewrite canon_user_dict. reflexivity.
Qed.

Lemma get_user_coherent w user_id :
  consistent w -> coherent w ->
  match List.find (matches "id" (VInt user_id)) (db_users w) with
  | Some doc =>
      exists user oid,
        doc = stored_user user oid /\ id user = user_id /\
        get_user user_id w
        = (Return (VDict [("_id"%string, VStr (str_of_ObjectId oid));
                          ("company"%string, VStr (company user));
                          ("id"%string, VInt user_id);
                          ("name"%string, VStr (name user));
                          ("status"%string, VStr (StatusEnum_value (status user)))]),
           w)
  | None =>
      get_user user_id w = (Raise (HTTPException 404 "User not found in Redis"), w)
  end.
Proof.
  intros Hcons ([C S _ _] & _ & _).
  destruct (consistent_hypotheses w Hcons) as (_ & _ & UC & _).
  assert (Hrun : get_user user_id w
                 = (match List.find (matches "id" (VInt user_id)) (db_users w) with
                    | Some doc =>
                        match json_loads (user_text doc) with
                        | Some v => Return v
                        | None => Raise JSONDecodeError
                        end
                    | None => Raise (HTTPException 404 "User not found in Redis")
                    end, w)).
  { unfold get_user. rewrite run_bind. unfold lrange at 1.
    rewrite (first_entry_run _ _ _ _ UC), C, find_map.
    rewrite (find_ext_in (fun x => entry_has_id (VInt user_id) (user_text x))
               (matches "id" (VInt user_id))).
    2:{ intros x Hx. rewrite Forall_forall in S.
        destruct (S x (proj2 (list_elem_of_In _ _) Hx)) as (user & n & _ & ->).
        rewrite stored_user_has_id, stored_user_matches. reflexivity. }
    destruct (List.find (matches "id" (VInt user_id)) (db_users w)); reflexivity. }
  rewrite Hrun.
  destruct (List.find (matches "id" (VInt user_id)) (db_users w)) as [doc|] eqn:Hf;
    [|reflexivity].
  apply find_some in Hf as [Hin Hm]. rewrite Forall_forall in S.
  destruct (S doc (proj2 (list_elem_of_In _ _) Hin)) as (user & n & _ & ->).
  rewrite stored_user_matches in Hm. apply Z.eqb_eq in Hm.
  exists user, (ObjectId_of_counter n). split; [reflexivity|]. split; [exact Hm|].
  rewrite stored_user_loads, Hm. reflexivity.
Qed.

Lemma list_api_keys_found w mongo_id doc :
  consistent w -> coherent w ->
  List.find (matches "id" (VStr mongo_id)) (db_keys w) = Some doc ->
  exists d ks oid,
    doc = stored_key_set mongo_id ks oid /\ Forall key_text_ok ks /\
    list_api_keys mongo_id w = (Return (VDict d), w) /\
    dict_get d "id" = Some (VStr mongo_id) /\
    dict_get d "keys" = Some (VList (map key_entry ks)).
Proof.
  intros Hcons (_ & [_ S C _] & _) Hf.
  destruct (consistent_hypotheses w Hcons) as (_ & CA & _ & CB & _).
  apply find_some in Hf as [Hin Hm]. apply list_elem_of_In in Hin.
  rewrite Forall_forall in S, C.
  destruct (stored_key_set_found mongo_id doc (S doc Hin) Hm) as (ks & oid & -> & Hok).
  destruct (C _ Hin) as (e & d & He & Hl & Hid & Hks).
  exists d, ks, oid. split; [reflexivity|]. split; [exact Hok|].
  assert (Hhas : entry_has_id (VStr mongo_id) e = true).
  { rewrite (entry_has_id_decoded _ _ _ Hl), Hid. cbn. apply String.eqb_refl. }
  unfold list_api_keys. rewrite run_bind. unfold lrange at 1.
  rewrite (first_entry_run _ _ _ _ CA).
  rewrite (count_one_find _ e _ (CB mongo_id) He Hhas), Hl.
  split; [reflexivity|]. split; [exact Hid|exact Hks].
Qed.

Lemma list_api_keys_not_found w mongo_id :
  consistent w -> coherent w ->
  List.find (matches "id" (VStr mongo_id)) (db_keys w) = None ->
  list_api_keys mongo_id w
  = (Raise (HTTPException 404 "API keys not found in Redis"), w).
Proof.
  intros Hcons (_ & [_ _ _ T] & _) Hf.
  destruct (consistent_hypotheses w Hcons) as (_ & CA & _).
  unfold list_api_keys. rewrite run_bind. unfold lrange at 1.
  rewrite (first_entry_run _ _ _ _ CA).
  destruct (List.find (entry_has_id (VStr mongo_id)) _) as [e|] eqn:He;
    [exfalso|reflexivity].
  apply find_some in He as [Hin He]. rewrite Forall_forall in T.
  destruct (T e (proj2 (list_elem_of_In _ _) Hin)) as (d & doc & Hl & Hdoc & Hid).
  rewrite (entry_has_id_decoded _ _ _ Hl), Hid, <- matches_doc_id in He.
  pose proof (find_none _ _ Hf _ Hdoc). congruence.
Qed.

(** X14.  The users cache mirrors the users collection.  In every state
    the service reaches by serving requests one after the other,
    [get_user(user_id)] returns the stored user of that id, its five fields
    with the storage id as text, and answers 404 exactly when the
    collection holds no user of that id. *)
Theorem get_user_mirrors_store (w : world) (user_id : Z) :
  reachable w ->
  match List.find (matches "id" (VInt user_id)) (db_users w) with
  | Some doc =>
      exists user oid,
        doc = ("_id"%string, VObjectId oid) :: User_dict user /\
        id user = user_id /\
        get_user user_id w
        = (Return (VDict [("_id"%string, VStr (str_of_ObjectId oid));
                          ("company"%string, VStr (company user));
                          ("id"%string, VInt user_id);
                          ("name"%string, VStr (name user));
                          ("status"%string, VStr (StatusEnum_value (status user)))]),
           w)
  | None =>
      get_user user_id w = (Raise (HTTPException 404 "User not found in Redis"), w)
  end.
Proof.
  intros Hr.
  exact (get_user_coherent w user_id (reachable_consistent w Hr)
           (reachable_coherent w Hr)).
Qed.

Lemma get_user_mirrors_store_witness :
  reachable world_with_ann /\
  match List.find (matches "id" (VInt 1)) (db_users world_with_ann) with
  | Some doc =>
      exists user oid,
        doc = ("_id"%string, VObjectId oid) :: User_dict user /\
        id user = 1 /\
        get_user 1 world_with_ann
        = (Return (VDict [("_id"%string, VStr (str_of_ObjectId oid));
                          ("company"%string, VStr (company user));
                          ("id"%string, VInt 1);
                          ("name"%string, VStr (name user));
                          ("status"%string, VStr (StatusEnum_value (status user)))]),
           world_with_ann)
  | None =>
      get_user 1 world_with_ann
      = (Raise (HTTPException 404 "User not found in Redis"), world_with_ann)
  end.
Proof.
  split; [exact world_with_ann_reachable|].
  exact (get_user_mirrors_store world_with_ann 1 world_with_ann_reachable).
Defined.

(** X15.  The key-set cache mirrors the key-set collection.  In every
    state the service reaches by serving requests one after the other,
    [list_api_keys(mongo_id)] returns a document with that id and exactly
    the keys [db.keys] holds for it, in the stored order, and answers 404
    exactly when [db.keys] holds no key set of that id. *)
Theorem list_api_keys_mirrors_store (w : world) (mongo_id : string) :
  reachable w ->
  match List.find (matches "id" (VStr mongo_id)) (db_keys w) with
  | Some doc =>
      exists d stored_keys,
        dict_get doc "keys" = Some (VList stored_keys) /\
        list_api_keys mongo_id w = (Return (VDict d), w) /\
        dict_get d "id" = Some (VStr mongo_id) /\
        dict_get d "keys" = Some (VList stored_keys)
  | None =>
      list_api_keys mongo_id w
      = (Raise (HTTPException 404 "API keys not found in Redis"), w)
  end.
Proof.
  intros Hr. pose proof (reachable_consistent w Hr) as Hcons.
  pose proof (reachable_coherent w Hr) as Hcoh.
  destruct (List.find (matches "id" (VStr mongo_id)) (db_keys w)) as [doc|] eqn:Hf.
  - destruct (list_api_keys_found w mongo_id doc Hcons Hcoh Hf)
      as (d & ks & oid & -> & _ & Hrun & Hid & Hks).
    exists d, (map key_entry ks). repeat split; assumption.
  - apply list_api_keys_not_found; assumption.
Qed.

Lemma list_api_keys_mirrors_store_witness :
  reachable world_with_ann /\
  match List.find (matches "id" (VStr ann_storage_id)) (db_keys world_with_ann) with
  | Some doc =>
      exists d stored_keys,
        dict_get doc "keys" = Some (VList stored_keys) /\
        list_api_keys ann_storage_id world_with_ann
        = (Return (VDict d), world_with_ann) /\
        dict_get d "id" = Some (VStr ann_storage_id) /\
        dict_get d "keys" = Some (VList stored_keys)
  | None =>
      list_api_keys ann_storage_id world_with_ann
      = (Raise (HTTPException 404 "API keys not found in Redis"), world_with_ann)
  end.
Proof.
  split; [exact world_with_ann_reachable|].
  exact (list_api_keys_mirrors_store world_with_ann ann_storage_id
           world_with_ann_reachable).
Defined.

End mirror.

Section stores.

Lemma filter_unique {A K} (g : A -> K) (p : A -> bool) l c :
  NoDup (map g l) -> (forall x, p x = true -> g x = c) ->
  (length (List.filter p l) <= 1)%nat.
Proof.
  intros Hnd Hp. induction l as [|x l IH]; [cbn; lia|].
  cbn [map] in Hnd. apply NoDup_cons in Hnd as [Hx Hnd]. cbn [List.filter].
  destruct (p x) eqn:Hpx; [|apply IH, Hnd]. cbn [length].
  assert (Hnil : List.filter p l = []).
  { destruct (List.filter p l) as [|y r] eqn:Hfl; [reflexivity|exfalso].
    assert (Hy : In y (List.filter p l)) by (rewrite Hfl; left; reflexivity).
    apply filter_In in Hy as [Hy Hpy]. apply Hx.
    rewrite (Hp x Hpx), <- (Hp y Hpy). apply list_elem_of_In, in_map, Hy. }
  rewrite Hnil. cbn. lia.
Qed.

Lemma matches_int_get i doc :
  matches "id" (VInt i) doc = true -> doc_id doc = Some (VInt i).
Proof.
  unfold matches, doc_id. destruct (dict_get doc "id") as [x|]; [|discriminate].
  destruct x; cbn; try discriminate. intros H. apply Z.eqb_eq in H. congruence.
Qed.

(** X16.  Identifiers are not shared.  In every state the service reaches
    by serving requests one after the other, the users collection holds at
    most one user per id and per storage id, [db.keys] holds at most one
    key set per id, the users cache has one entry per stored user, and
    every stored user has a key set under the text of its storage id. *)
Theorem reachable_ids_unique (w : world) :
  reachable w ->
  (forall i,
      (length (List.filter (matches "id" (VInt i)) (db_users w)) <= 1)%nat) /\
  (forall oid,
      (length (List.filter (matches "_id" (VObjectId oid)) (db_users w)) <= 1)%nat) /\
  (forall s,
      (length (List.filter (matches "id" (VStr s)) (db_keys w)) <= 1)%nat) /\
  length (redis_list "users_list" w) = length (db_users w) /\
  (forall doc, In doc (db_users w) ->
     exists oid key_set,
       dict_get doc "_id" = Some (VObjectId oid) /\
       List.find (matches "id" (VStr (str_of_ObjectId oid))) (db_keys w)
       = Some key_set).
Proof.
  intros Hr. destruct (reachable_coherent w Hr) as ([C _ I O] & [KI _ _ _] & HL & _).
  repeat split.
  - intros i. apply (filter_unique doc_id _ _ (Some (VInt i)) I).
    intros x. apply matches_int_get.
  - intros oid.
    apply (filter_unique (fun doc => dict_get doc "_id") _ _
             (Some (VObjectId oid)) O).
    intros x. apply matches_oid_get.
  - intros s. apply (filter_unique doc_id _ _ (Some (VStr s)) KI).
    intros x. apply matches_id_get.
  - rewrite C. apply length_map.
  - intros doc Hin. unfold users_have_keys in HL. rewrite Forall_forall in HL.
    destruct (HL doc (proj2 (list_elem_of_In _ _) Hin)) as (oid & Ho & Hex).
    apply Exists_exists in Hex as (kd & Hkd & Hm).
    destruct (List.find (matches "id" (VStr (str_of_ObjectId oid))) (db_keys w))
      as [key_set|] eqn:Hf.
    + exists oid, key_set. split; [exact Ho|exact Hf].
    + exfalso. apply list_elem_of_In in Hkd.
      pose proof (find_none _ _ Hf _ Hkd). congruence.
Qed.

Lemma reachable_ids_unique_witness :
  reachable world_with_ann /\
  (length (List.filter (matches "id" (VInt 1)) (db_users world_with_ann)) <= 1)%nat /\
  length (redis_list "users_list" world_with_ann)
  = length (db_users world_with_ann).
Proof.
  split; [exact world_with_ann_reachable|].
  pose proof (reachable_ids_unique world_with_ann world_with_ann_reachable)
    as (H1 & _ & _ & H4 & _).
  split; [apply H1|exact H4].
Defined.



End stores.

Section lifecycle.

Lemma find_last_match {A} (p : A -> bool) l x :
  p x = true -> exists y, List.find p (l ++ [x]) = Some y.
Proof.
  intros Hx. rewrite find_app_first. destruct (List.find p l) as [y|]; [eauto|].
  cbn [List.find]. rewrite Hx. eauto.
Qed.

Lemma stored_key_set_inj s ks oid s' ks' oid' :
  stored_key_set s ks oid = stored_key_set s' ks' oid' -> ks = ks'.
Proof.
  unfold stored_key_set. intros H. injection H as _ _ Hk.
  revert ks' Hk. induction ks as [|k ks IH]; intros [|k' ks'] Hk;
    try discriminate; [reflexivity|].
  cbn [map] in Hk. injection Hk as -> Hk. f_equal. apply IH, Hk.
Qed.

(** X18.  A key set through its life.  In a state reached by serving
    requests one after the other, [create_user] for an unused id within
    the signed 64-bit integers returns a storage id and a first key; [create_api_key] on that storage id is
    accepted and returns a second key; [list_api_keys] then shows the two
    keys in the order of their creation; [remove_api_key] of the first key
    succeeds, and [list_api_keys] then shows the second key alone, or no
    key at all when the random source gave the same key twice. *)
Theorem key_set_lifecycle (user : User) (w : world) :
  reachable w -> (oid_counter w + 4 <= 16 ^ 24)%N ->
  int64 (id user) = true ->
  List.find (matches "id" (VInt (id user))) (db_users w) = None ->
  exists storage_id k1 k2 w1 w2 w3 d d',
    create_user user w
    = (Return (VDict [("message"%string, VStr "User created");
                      ("user"%string,
                       VDict (User_dict user ++ [("_id"%string, VStr storage_id)]));
                      ("api_key"%string, VStr k1)]), w1) /\
    create_api_key storage_id w1
    = (Return (VDict [("message"%string, VStr "New API key created");
                      ("new_key"%string, VStr k2)]), w2) /\
    list_api_keys storage_id w2 = (Return (VDict d), w2) /\
    dict_get d "keys" = Some (VList [key_entry k1; key_entry k2]) /\
    remove_api_key storage_id k1 w2
    = (Return (VDict [("message"%string, VStr "API key removed");
                      ("removed_key"%string, VStr k1)]), w3) /\
    list_api_keys storage_id w3 = (Return (VDict d'), w3) /\
    dict_get d' "keys"
    = Some (VList (if String.eqb k2 k1 then [] else [key_entry k2])).
Proof.
  intros Hr Hroom Hi Hf.
  pose proof (reachable_consistent w Hr) as Hcons.
  set (c := oid_counter w) in *.
  set (sid := str_of_ObjectId (ObjectId_of_counter c)).
  set (k1 := drawn_key (entropy w) (drawn w) 20).
  set (k2 := drawn_key (entropy w) (drawn w + 20) 20).
  (* create_user *)
  pose proof (create_user_new user w Hi Hf) as Hrun1. cbv zeta in Hrun1.
  fold c in Hrun1. fold sid in Hrun1. fold k1 in Hrun1.
  assert (Hr1 : reachable (snd (create_user user w))).
  { apply (reach_step w (CreateUser user) Hr). fold c. lia. }
  rewrite Hrun1 in Hr1. cbn [snd] in Hr1.
  set (w1 := mkWorld _ _ _ _ _ _) in Hrun1, Hr1.
  pose proof (reachable_consistent w1 Hr1) as Hcons1.
  destruct (consistent_hypotheses w1 Hcons1) as (_ & CA1 & _).
  (* create_api_key *)
  assert (Ho : ObjectId_of_str sid = Some (ObjectId_of_counter c))
    by apply ObjectId_of_str_counter.
  destruct (find_last_match (matches "_id" (VObjectId (ObjectId_of_counter c)))
              (db_users w) (stored_user user (ObjectId_of_counter c)))
    as [u Hu].
  { unfold matches. cbn. apply String.eqb_refl. }
  assert (Hk1 : List.find (matches "id" (VStr sid)) (db_keys w1)
                = Some (stored_key_set sid [k1] (ObjectId_of_counter (N.succ c)))).
  { cbn [db_keys w1]. rewrite find_app_first.
    pose proof (fresh_id_no_key_set w Hcons ltac:(fold c; lia)) as Hnk.
    fold c in Hnk. fold sid in Hnk. rewrite Hnk.
    transitivity (List.find (matches "id" (VStr sid))
                    [stored_key_set sid [k1] (ObjectId_of_counter (N.succ c))]);
      [reflexivity|].
    cbn [List.find].
    rewrite (doc_id_matches sid
               (stored_key_set sid [k1] (ObjectId_of_counter (N.succ c))) eq_refl).
    reflexivity. }
  pose proof (create_api_key_next sid _ w1 u _ (map key_entry [k1])
                Ho Hu Hk1 (proj1 (stored_key_set_ok _ _ _)) eq_refl
                (key_entries_ok [k1]) CA1) as Hrun2.
  cbv zeta in Hrun2. cbn [entropy drawn w1] in Hrun2. fold k2 in Hrun2.
  change (map key_entry [k1] ++ [key_entry k2]) with (map key_entry [k1; k2])
    in Hrun2.
  assert (Hr2 : reachable (snd (create_api_key sid w1))).
  { apply (reach_step w1 (CreateApiKey sid) Hr1). cbn [oid_counter w1]. fold c. lia. }
  rewrite Hrun2 in Hr2. cbn [snd] in Hr2.
  set (w2 := mkWorld _ _ _ _ _ _) in Hrun2, Hr2.
  pose proof (reachable_consistent w2 Hr2) as Hcons2.
  destruct (consistent_hypotheses w2 Hcons2) as (_ & CA2 & _).
  assert (Hk2 : List.find (matches "id" (VStr sid)) (db_keys w2)
                = Some (stored_key_set sid [k1; k2] (ObjectId_of_counter (N.succ c)))).
  { cbn [db_keys w2].
    rewrite (find_after_set_keys sid _ (VList (map key_entry [k1; k2])) _ Hk1).
    rewrite set_keys_stored. reflexivity. }
  destruct (list_api_keys_found w2 sid _ Hcons2 (reachable_coherent w2 Hr2) Hk2)
    as (d & ks & oid & Hsame & _ & Hlist2 & _ & Hd).
  apply stored_key_set_inj in Hsame. subst ks.
  (* remove_api_key *)
  assert (Hkept : without_key k1 (map key_entry [k1; k2])
                  = map key_entry (if String.eqb k2 k1 then [] else [k2])).
  { rewrite without_key_entries. cbn [List.filter]. rewrite String.eqb_refl.
    cbn [negb]. destruct (String.eqb k2 k1); reflexivity. }
  assert (Hlen : length (without_key k1 (map key_entry [k1; k2]))
                 <> length (map key_entry [k1; k2])).
  { rewrite Hkept. destruct (String.eqb k2 k1); discriminate. }
  pose proof (remove_api_key_done sid k1 w2 _ _ Hk2 eq_refl
                (key_entries_ok [k1; k2]) Hlen CA2) as Hrun3.
  cbv zeta in Hrun3. rewrite Hkept in Hrun3.
  assert (Hr3 : reachable (snd (remove_api_key sid k1 w2))).
  { apply (reach_step w2 (RemoveApiKey sid k1) Hr2). cbn [oid_counter w2 w1].
    fold c. lia. }
  rewrite Hrun3 in Hr3. cbn [snd] in Hr3.
  set (w3 := mkWorld _ _ _ _ _ _) in Hrun3, Hr3.
  assert (Hk3 : List.find (matches "id" (VStr sid)) (db_keys w3)
                = Some (stored_key_set sid (if String.eqb k2 k1 then [] else [k2])
                          (ObjectId_of_counter (N.succ c)))).
  { cbn [db_keys w3].
    rewrite (find_after_set_keys sid _ _ _ Hk2).
    rewrite set_keys_stored. reflexivity. }
  destruct (list_api_keys_found w3 sid _ (reachable_consistent w3 Hr3)
              (reachable_coherent w3 Hr3) Hk3)
    as (d' & ks & oid' & Hsame & _ & Hlist3 & _ & Hd').
  apply stored_key_set_inj in Hsame. subst ks.
  exists sid, k1, k2, w1, w2, w3, d, d'.
  split; [exact Hrun1|]. split; [exact Hrun2|]. split; [exact Hlist2|].
  split; [exact Hd|]. split; [exact Hrun3|]. split; [exact Hlist3|].
  rewrite Hd'. destruct (String.eqb k2 k1); reflexivity.
Qed.


Lemma key_set_lifecycle_witness :
  reachable (empty_world sample_entropy) /\
  (oid_counter (empty_world sample_entropy) + 4 <= 16 ^ 24)%N /\
  int64 (id ann) = true /\
  List.find (matches "id" (VInt (id ann))) (db_users (empty_world sample_entropy))
  = None /\
  exists storage_id k1 k2 w1 w2 w3 d d',
    create_user ann (empty_world sample_entropy)
    = (Return (VDict [("message"%string, VStr "User created");
                      ("user"%string,
                       VDict (User_dict ann ++ [("_id"%string, VStr storage_id)]));
                      ("api_key"%string, VStr k1)]), w1) /\
    create_api_key storage_id w1
    = (Return (VDict [("message"%string, VStr "New API key created");
                      ("new_key"%string, VStr k2)]), w2) /\
    list_api_keys storage_id w2 = (Return (VDict d), w2) /\
    dict_get d "keys" = Some (VList [key_entry k1; key_entry k2]) /\
    remove_api_key storage_id k1 w2
    = (Return (VDict [("message"%string, VStr "API key removed");
                      ("removed_key"%string, VStr k1)]), w3) /\
    list_api_keys storage_id w3 = (Return (VDict d'), w3) /\
    dict_get d' "keys"
    = Some (VList (if String.eqb k2 k1 then [] else [key_entry k2])).
Proof.
  assert (Hroom : (oid_counter (empty_world sample_entropy) + 4 <= 16 ^ 24)%N)
    by (vm_compute; discriminate).
  split; [apply reach_start|]. split; [exact Hroom|]. split; [reflexivity|].
  split; [reflexivity|].
  exact (key_set_lifecycle ann (empty_world sample_entropy)
           (reach_start sample_entropy) Hroom eq_refl eq_refl).
Defined.

(** *** The id as the path spells it *)

Lemma find_app_kept {A} (p : A -> bool) l x y :
  List.find p l = Some y -> List.find p (l ++ [x]) = Some y.
Proof. intros H. rewrite find_app_first, H. reflexivity. Qed.

(** X19.  [create_api_key] looks the user up by the parsed [ObjectId] but
    files the key under the path text as it was given.  In a state reached
    by serving requests one after the other, when the text parses to the
    storage id of a stored user and [db.keys] has no key set under that
    very text, the text is another spelling of the id (capital digits);
    the request succeeds all the same, a second key set is inserted under
    the text as given, holding the new key alone, and the key set under
    the canonical text is left as it was: [list_api_keys] on the canonical
    id still returns the keys it held, on the other spelling the new key. *)
Theorem create_api_key_other_spelling
    (mongo_id : string) (oid : ObjectId) (u : dict) (w : world) :
  reachable w -> (oid_counter w + 2 <= 16 ^ 24)%N ->
  ObjectId_of_str mongo_id = Some oid ->
  List.find (matches "_id" (VObjectId oid)) (db_users w) = Some u ->
  List.find (matches "id" (VStr mongo_id)) (db_keys w) = None ->
  let canonical := str_of_ObjectId oid in
  let new_key := drawn_key (entropy w) (drawn w) 20 in
  let w1 := snd (create_api_key mongo_id w) in
  mongo_id <> canonical /\
  fst (create_api_key mongo_id w)
  = Return (VDict [("message"%string, VStr "New API key created");
                   ("new_key"%string, VStr new_key)]) /\
  (exists doc_oid,
      db_keys w1 = db_keys w ++ [stored_key_set mongo_id [new_key] doc_oid]) /\
  (exists own ks d,
      List.find (matches "id" (VStr canonical)) (db_keys w) = Some own /\
      List.find (matches "id" (VStr canonical)) (db_keys w1) = Some own /\
      dict_get own "keys" = Some (VList ks) /\
      list_api_keys canonical w1 = (Return (VDict d), w1) /\
      dict_get d "keys" = Some (VList ks)) /\
  (exists d,
      list_api_keys mongo_id w1 = (Return (VDict d), w1) /\
      dict_get d "keys" = Some (VList [key_entry new_key])).
Proof.
  intros Hr Hroom Ho Hu Hk. cbv zeta.
  pose proof (reachable_consistent w Hr) as Hcons.
  destruct (consistent_hypotheses w Hcons) as (_ & CA & _).
  destruct (reachable_coherent w Hr) as (_ & _ & HL & _).
  (* the user's own key set *)
  pose proof Hu as Hin. apply find_some in Hin as [Hin Hm].
  apply matches_oid_get in Hm.
  unfold users_have_keys in HL. rewrite Forall_forall in HL.
  destruct (HL u (proj2 (list_elem_of_In _ _) Hin)) as (o & Ho' & Hex).
  assert (o = oid) by congruence. subst o.
  destruct (List.find (matches "id" (VStr (str_of_ObjectId oid))) (db_keys w))
    as [own|] eqn:Hown.
  2:{ exfalso. apply Exists_exists in Hex as (kd & Hkd & Hmk).
      apply list_elem_of_In in Hkd. pose proof (find_none _ _ Hown _ Hkd). congruence. }
  (* the run *)
  pose proof (create_api_key_first mongo_id oid w u Ho Hu Hk CA) as Hrun.
  cbv zeta in Hrun.
  assert (Hr1 : reachable (snd (create_api_key mongo_id w)))
    by exact (reach_step w (CreateApiKey mongo_id) Hr Hroom).
  rewrite Hrun in *. cbn [fst snd] in *.
  set (new_key := drawn_key (entropy w) (drawn w) 20) in *.
  set (w1 := mkWorld _ _ _ _ _ _) in Hr1 |- *.
  pose proof (reachable_consistent w1 Hr1) as Hcons1.
  pose proof (reachable_coherent w1 Hr1) as Hcoh1.
  split; [intros ->; congruence|]. split; [reflexivity|].
  split; [exists (ObjectId_of_counter (oid_counter w)); reflexivity|]. split.
  - assert (Hown1 : List.find (matches "id" (VStr (str_of_ObjectId oid))) (db_keys w1)
                    = Some own) by (apply find_app_kept, Hown).
    destruct (list_api_keys_found w1 _ own Hcons1 Hcoh1 Hown1)
      as (d & ks & doc_oid & -> & _ & Hlist & _ & Hd).
    exists (stored_key_set (str_of_ObjectId oid) ks doc_oid), (map key_entry ks), d.
    repeat split; assumption.
  - assert (Hnew : List.find (matches "id" (VStr mongo_id)) (db_keys w1)
                   = Some (stored_key_set mongo_id [new_key]
                             (ObjectId_of_counter (oid_counter w)))).
    { cbn [db_keys w1]. rewrite find_app_first, Hk.
      transitivity (List.find (matches "id" (VStr mongo_id))
                      [stored_key_set mongo_id [new_key]
                         (ObjectId_of_counter (oid_counter w))]);
        [reflexivity|].
      cbn [List.find].
      rewrite (doc_id_matches mongo_id
                 (stored_key_set mongo_id [new_key]
                    (ObjectId_of_counter (oid_counter w))) eq_refl).
      reflexivity. }
    destruct (list_api_keys_found w1 _ _ Hcons1 Hcoh1 Hnew)
      as (d & ks & doc_oid & Hsame & _ & Hlist & _ & Hd).
    apply stored_key_set_inj in Hsame. subst ks.
    exists d. split; assumption.
Qed.

Lemma six_users_world_reachable : reachable six_users_world.
Proof.
  unfold six_users_world. cbn [fold_left].
  do 6 (match goal with
        | |- reachable (snd (create_user ?u ?w0)) =>
            refine (reach_step w0 (CreateUser u) _ _);
            [|vm_compute; discriminate]
        end).
  apply reach_start.
Defined.

Lemma create_api_key_other_spelling_witness :
  let mongo_id := "00000000000000000000000A"%string in
  let oid := ObjectId_of_counter 10 in
  let u := stored_user (mkUser 6 "U" "C" active) oid in
  let w := six_users_world in
  reachable w /\ (oid_counter w + 2 <= 16 ^ 24)%N /\
  ObjectId_of_str mongo_id = Some oid /\
  List.find (matches "_id" (VObjectId oid)) (db_users w) = Some u /\
  List.find (matches "id" (VStr mongo_id)) (db_keys w) = None /\
  mongo_id <> str_of_ObjectId oid /\
  exists d,
    list_api_keys mongo_id (snd (create_api_key mongo_id w))
    = (Return (VDict d), snd (create_api_key mongo_id w)) /\
    dict_get d "keys"
    = Some (VList [key_entry (drawn_key (entropy w) (drawn w) 20)]).
Proof.
  cbv zeta.
  assert (Hroom : (oid_counter six_users_world + 2 <= 16 ^ 24)%N)
    by (vm_compute; discriminate).
  assert (Ho : ObjectId_of_str "00000000000000000000000A"
               = Some (ObjectId_of_counter 10)) by (vm_compute; reflexivity).
  assert (Hu : List.find (matches "_id" (VObjectId (ObjectId_of_counter 10)))
                 (db_users six_users_world)
               = Some (stored_user (mkUser 6 "U" "C" active) (ObjectId_of_counter 10)))
    by (vm_compute; reflexivity).
  assert (Hk : List.find (matches "id" (VStr "00000000000000000000000A"))
                 (db_keys six_users_world) = None) by (vm_compute; reflexivity).
  pose proof (create_api_key_other_spelling _ _ _ _
                six_users_world_reachable Hroom Ho Hu Hk) as (H1 & _ & _ & _ & H5).
  repeat (split; [assumption || exact six_users_world_reachable|]).
  exact H5.
Defined.


Lemma find_exists {A} (p : A -> bool) l x :
  In x l -> p x = true -> exists y, List.find p l = Some y.
Proof.
  intros Hin Hx. destruct (List.find p l) as [y|] eqn:Hf; [eauto|].
  pose proof (find_none _ _ Hf _ Hin). congruence.
Qed.

(** X20.  A new key goes to the end of the key set.  In a state reached by
    serving requests one after the other, [create_api_key] on the storage
    id of any stored user is accepted (no 404, no [InvalidId]), inserts no
    document, and [list_api_keys] afterwards returns the keys it returned
    before, in the same order, followed by the new key. *)
Theorem create_api_key_appends (w : world) (u : dict) (oid : ObjectId) :
  reachable w -> (oid_counter w + 2 <= 16 ^ 24)%N ->
  In u (db_users w) -> dict_get u "_id" = Some (VObjectId oid) ->
  let mongo_id := str_of_ObjectId oid in
  let w1 := snd (create_api_key mongo_id w) in
  exists ks new_key d d1,
    list_api_keys mongo_id w = (Return (VDict d), w) /\
    dict_get d "keys" = Some (VList ks) /\
    fst (create_api_key mongo_id w)
    = Return (VDict [("message"%string, VStr "New API key created");
                     ("new_key"%string, VStr new_key)]) /\
    String.length new_key = 20%nat /\
    length (db_keys w1) = length (db_keys w) /\
    list_api_keys mongo_id w1 = (Return (VDict d1), w1) /\
    dict_get d1 "keys" = Some (VList (ks ++ [key_entry new_key])).
Proof.
  intros Hr Hroom Hin Hid. cbv zeta.
  pose proof (reachable_consistent w Hr) as Hcons.
  pose proof (reachable_coherent w Hr) as Hcoh.
  destruct (consistent_hypotheses w Hcons) as (_ & CA & _).
  pose proof Hcoh as Hcoh'. destruct Hcoh as (HU & HK & HL & HO).
  (* the id parses back to the ObjectId *)
  pose proof (uc_shape w HU) as Hshape. rewrite Forall_forall in Hshape.
  destruct (Hshape u (proj2 (list_elem_of_In _ _) Hin)) as (user & n & _ & ->).
  cbn in Hid. injection Hid as <-.
  set (oid := ObjectId_of_counter n) in *.
  assert (Ho : ObjectId_of_str (str_of_ObjectId oid) = Some oid)
    by apply ObjectId_of_str_counter.
  destruct (find_exists (matches "_id" (VObjectId oid)) (db_users w)
              (stored_user user oid) Hin) as [u' Hu].
  { unfold matches. cbn. apply String.eqb_refl. }
  (* the user's key set *)
  unfold users_have_keys in HL. rewrite Forall_forall in HL.
  destruct (HL _ (proj2 (list_elem_of_In _ _) Hin)) as (o & Ho' & Hex).
  cbn in Ho'. injection Ho' as <-.
  apply Exists_exists in Hex as (kd & Hkd & Hm). apply list_elem_of_In in Hkd.
  destruct (find_exists _ _ kd Hkd Hm) as [own Hown].
  destruct (list_api_keys_found w _ own Hcons Hcoh' Hown)
    as (d & ks & doc_oid & -> & _ & Hlist & _ & Hd).
  (* the run *)
  pose proof (create_api_key_next _ oid w u' _ (map key_entry ks)
                Ho Hu Hown (proj1 (stored_key_set_ok _ _ _)) eq_refl
                (key_entries_ok ks) CA) as Hrun.
  cbv zeta in Hrun.
  set (new_key := drawn_key (entropy w) (drawn w) 20) in *.
  assert (E : map key_entry ks ++ [key_entry new_key]
              = map key_entry (ks ++ [new_key]))
    by (rewrite map_app; reflexivity).
  rewrite E in Hrun.
  assert (Hr1 : reachable (snd (create_api_key (str_of_ObjectId oid) w)))
    by exact (reach_step w (CreateApiKey _) Hr Hroom).
  rewrite Hrun in Hr1 |- *. cbn [fst snd] in Hr1 |- *.
  set (w1 := mkWorld _ _ _ _ _ _) in Hr1 |- *.
  assert (Hown1 : List.find (matches "id" (VStr (str_of_ObjectId oid))) (db_keys w1)
                  = Some (stored_key_set (str_of_ObjectId oid) (ks ++ [new_key])
                            doc_oid)).
  { cbn [db_keys w1]. rewrite (find_after_set_keys _ _ _ _ Hown).
    rewrite set_keys_stored. reflexivity. }
  destruct (list_api_keys_found w1 _ _ (reachable_consistent w1 Hr1)
              (reachable_coherent w1 Hr1) Hown1)
    as (d1 & ks1 & doc_oid1 & Hsame & _ & Hlist1 & _ & Hd1).
  apply stored_key_set_inj in Hsame. subst ks1.
  exists (map key_entry ks), new_key, d, d1.
  split; [exact Hlist|]. split; [exact Hd|]. split; [reflexivity|].
  split; [apply drawn_key_length|]. split.
  - cbn [db_keys w1]. clear. induction (db_keys w) as [|x l IH]; [reflexivity|].
    cbn [update_first]. destruct (matches _ _ x); cbn [length]; auto.
  - split; [exact Hlist1|]. rewrite Hd1, map_app. reflexivity.
Qed.

Lemma create_api_key_appends_witness :
  let w := world_with_ann in
  let w1 := snd (create_api_key ann_storage_id w) in
  reachable w /\ (oid_counter w + 2 <= 16 ^ 24)%N /\
  In (stored_user ann (ObjectId_of_counter 0)) (db_users w) /\
  exists ks new_key d d1,
    list_api_keys ann_storage_id w = (Return (VDict d), w) /\
    dict_get d "keys" = Some (VList ks) /\
    fst (create_api_key ann_storage_id w)
    = Return (VDict [("message"%string, VStr "New API key created");
                     ("new_key"%string, VStr new_key)]) /\
    String.length new_key = 20%nat /\
    length (db_keys w1) = length (db_keys w) /\
    list_api_keys ann_storage_id w1 = (Return (VDict d1), w1) /\
    dict_get d1 "keys" = Some (VList (ks ++ [key_entry new_key])).
Proof.
  cbv zeta.
  assert (Hroom : (oid_counter world_with_ann + 2 <= 16 ^ 24)%N)
    by (vm_compute; discriminate).
  assert (Hin : In (stored_user ann (ObjectId_of_counter 0)) (db_users world_with_ann))
    by (vm_compute; left; reflexivity).
  split; [exact world_with_ann_reachable|]. split; [exact Hroom|].
  split; [exact Hin|].
  exact (create_api_key_appends world_with_ann _ (ObjectId_of_counter 0)
           world_with_ann_reachable Hroom Hin eq_refl).
Defined.

End lifecycle.

Section samples.

Lemma non_object_entry_loads : json_loads non_object_entry = Some (VList [VInt 1]).
Proof. vm_compute. reflexivity. Defined.

Lemma list_not_dict l : forall d, VList l <> VDict d.
Proof. intros d. discriminate. Defined.

Lemma readers_stop_at_non_object_witness :
  json_loads non_object_entry = Some (VList [VInt 1]) /\
  list_api_keys ann_storage_id foreign_entry_world
  = (Raise AttributeError, foreign_entry_world) /\
  get_user 1 foreign_entry_world = (Raise AttributeError, foreign_entry_world).
Proof.
  split; [exact non_object_entry_loads|].
  destruct (readers_stop_at_non_object ann_storage_id 1 foreign_entry_world
              [] (redis_list "api_keys_list" world_with_ann)
              non_object_entry (VList [VInt 1])
              non_object_entry_loads (list_not_dict _) (@List.Forall_nil _ _))
    as [Hk _].
  destruct (readers_stop_at_non_object ann_storage_id 1 foreign_entry_world
              [] (redis_list "users_list" world_with_ann)
              non_object_entry (VList [VInt 1])
              non_object_entry_loads (list_not_dict _) (@List.Forall_nil _ _))
    as [_ Hu].
  split; [apply Hk|apply Hu]; reflexivity.
Defined.

Lemma foreign_entry_world_found :
  List.find (matches "id" (VStr ann_storage_id)) (db_keys foreign_entry_world)
  = Some (stored_key_set ann_storage_id [ann_key] (ObjectId_of_counter 1)).
Proof. vm_compute. reflexivity. Defined.

Lemma remove_api_key_not_atomic_witness :
  let w := foreign_entry_world in
  let w1 := snd (remove_api_key ann_storage_id ann_key w) in
  fst (remove_api_key ann_storage_id ann_key w) = Raise AttributeError /\
  List.find (matches "id" (VStr ann_storage_id)) (db_keys w1)
  = Some (stored_key_set ann_storage_id [] (ObjectId_of_counter 1)) /\
  redis w1 = redis w /\
  remove_api_key ann_storage_id ann_key w1
  = (Raise (HTTPException 404 "API key not found"), w1).
Proof.
  cbv zeta.
  destruct (remove_api_key_not_atomic ann_storage_id ann_key foreign_entry_world
              (stored_key_set ann_storage_id [ann_key] (ObjectId_of_counter 1))
              (map key_entry [ann_key])
              [] (redis_list "api_keys_list" world_with_ann)
              non_object_entry (VList [VInt 1]))
    as (H1 & H2 & H3 & _ & H5).
  - exact foreign_entry_world_found.
  - reflexivity.
  - apply key_entries_ok.
  - vm_compute. discriminate.
  - reflexivity.
  - apply List.Forall_nil.
  - reflexivity.
  - exact non_object_entry_loads.
  - apply list_not_dict.
  - split; [exact H1|]. split; [|split; [exact H3|exact H5]].
    rewrite H2. vm_compute. reflexivity.
Defined.

Lemma create_api_key_not_atomic_witness :
  let w := foreign_entry_world in
  let w1 := snd (create_api_key ann_storage_id w) in
  fst (create_api_key ann_storage_id w) = Raise AttributeError /\
  List.find (matches "id" (VStr ann_storage_id)) (db_keys w1)
  = Some (stored_key_set ann_storage_id
            [ann_key; drawn_key (entropy w) (drawn w) 20] (ObjectId_of_counter 1)) /\
  drawn w1 = (drawn w + 20)%nat /\ redis w1 = redis w.
Proof.
  cbv zeta.
  destruct (create_api_key_not_atomic ann_storage_id (ObjectId_of_counter 0)
              foreign_entry_world
              (stored_user ann (ObjectId_of_counter 0))
              (stored_key_set ann_storage_id [ann_key] (ObjectId_of_counter 1))
              (map key_entry [ann_key])
              [] (redis_list "api_keys_list" world_with_ann)
              non_object_entry (VList [VInt 1]))
    as (H1 & H2 & H3 & H4 & _).
  - apply ObjectId_of_str_counter.
  - vm_compute. reflexivity.
  - exact foreign_entry_world_found.
  - reflexivity.
  - reflexivity.
  - apply List.Forall_nil.
  - reflexivity.
  - exact non_object_entry_loads.
  - apply list_not_dict.
  - split; [exact H1|]. split; [exact H2|]. split; [exact H3|exact H4].
Defined.

Lemma remove_api_key_twice_witness :
  let w1 := snd (remove_api_key ann_storage_id ann_key world_with_ann) in
  Forall key_doc_ok (db_keys world_with_ann) /\
  Forall decodable (redis_list "api_keys_list" world_with_ann) /\
  fst (remove_api_key ann_storage_id ann_key world_with_ann)
  = Return (VDict [("message"%string, VStr "API key removed");
                   ("removed_key"%string, VStr ann_key)]) /\
  remove_api_key ann_storage_id ann_key w1
  = (Raise (HTTPException 404 "API key not found"), w1).
Proof.
  cbv zeta.
  split; [exact world_with_ann_store_ok|].
  split; [exact world_with_ann_cache_ok|].
  split; [vm_compute; reflexivity|].
  apply (remove_api_key_twice ann_storage_id ann_key world_with_ann _
           (VDict [("message"%string, VStr "API key removed");
                   ("removed_key"%string, VStr ann_key)])
           world_with_ann_store_ok world_with_ann_cache_ok).
  vm_compute. reflexivity.
Defined.

Lemma remove_last_api_key_witness :
  let w1 := snd (remove_api_key ann_storage_id ann_key world_with_ann) in
  Forall decodable (redis_list "api_keys_list" world_with_ann) /\
  List.find (matches "id" (VStr ann_storage_id)) (db_keys world_with_ann)
  = Some (stored_key_set ann_storage_id [ann_key] (ObjectId_of_counter 1)) /\
  length (db_keys w1) = length (db_keys world_with_ann) /\
  list_api_keys ann_storage_id w1
  = (Return (VDict [("id"%string, VStr ann_storage_id); ("keys"%string, VList [])]),
     w1).
Proof.
  cbv zeta.
  assert (Hf : List.find (matches "id" (VStr ann_storage_id)) (db_keys world_with_ann)
               = Some (stored_key_set ann_storage_id [ann_key] (ObjectId_of_counter 1)))
    by (vm_compute; reflexivity).
  split; [exact world_with_ann_cache_ok|]. split; [exact Hf|].
  destruct (remove_last_api_key ann_storage_id ann_key world_with_ann
              (stored_key_set ann_storage_id [ann_key] (ObjectId_of_counter 1))
              (map key_entry [ann_key]) world_with_ann_cache_ok)
    as (_ & _ & H3 & H4).
  - vm_compute. lia.
  - exact Hf.
  - reflexivity.
  - discriminate.
  - apply key_entries_ok.
  - apply List.Forall_cons; [reflexivity|apply List.Forall_nil].
  - split; [exact H3|exact H4].
Defined.

End samples.
